(** * examples/example.py: a shallow embedding and its properties

    The module is a flat list of small Python functions and one class.
    Each function is embedded as a Rocq function of the same name.  Pure
    functions live in the error monad [result]; functions that touch the
    interpreter's state (standard output, the file system, open file
    objects, the list object stored as [add_item]'s default) live in the
    state-and-error monad [M] over [world].

    Conventions of the model:
    - Python [int] is [Z]; numeric arguments are Python ints.
    - Python [str] is [string]; strings are taken to be ASCII.
    - A Python [float] result is a binary64 value of [SpecFloat].
    - [int] of a [str] applies the interpreter's default limit of 4300
      digits; [str] of an [int] is modelled for ints within that limit.
    - [assert] is executed as the interpreter does without [-O].
    - The file system is a flat map from paths to regular files, each with
      a read and a write permission.  A path is the one name of its file
      (no links, no second spelling of a path), and a path that is not in
      the map can be created.
    - A file object that a function leaves open is closed by the
      interpreter when the function returns and its local variable goes
      away; it stays open when the function is left by an exception.
    - A list that a function only reads, or that it changes and hands
      back ([remove_negatives]), is passed by value: the model computes the
      content the caller's list ends with.  The lists of [add_item] are
      objects in a heap, because its default list is shared between calls.
    - [json.dumps] and [json.loads] belong to the standard library, not
      to the module; they are parameters of the development.
    - [calculate] (an [eval] of its argument) and [get_current_time] (a
      clock) are not embedded. *)

From Stdlib Require Import ZArith String Ascii List DecimalString Bool Lia.
From Stdlib Require Import DecimalPos DecimalZ.
From Stdlib Require Import QArith Qabs Qpower Qfield.
From Stdlib Require Import Floats.SpecFloat.
From stdpp Require Import gmap strings list fin_maps.

Local Open Scope Z_scope.

(** ** Exceptions and outcomes *)

(** The exception classes the module can meet.  [KeyboardInterrupt] and
    [SystemExit] derive from [BaseException] only; all others derive from
    [Exception]. *)
Inductive exn_class :=
  | KeyboardInterrupt
  | SystemExit
  | TypeError
  | ValueError
  | ZeroDivisionError
  | OverflowError
  | AssertionError
  | KeyError
  | FileNotFoundError
  | PermissionError
  | UnsupportedOperation
  | JSONDecodeError.

Definition is_Exception (c : exn_class) : bool :=
  match c with
  | KeyboardInterrupt | SystemExit => false
  | _ => true
  end.

(** An exception object: its class and the text [str(e)] gives. *)
Record exn := Exn { exn_cls : exn_class; exn_str : string }.

Inductive result (A : Type) :=
  | Return (a : A)
  | Raise (e : exn).
Arguments Return {A} a.
Arguments Raise {A} e.

Definition rbind {A B} (r : result A) (k : A -> result B) : result B :=
  match r with
  | Return a => k a
  | Raise e => Raise e
  end.

(** [try: body / except: handler] (a bare [except] catches every class). *)
Definition try_except {A} (body : result A) (handler : exn -> result A) : result A :=
  match body with
  | Return a => Return a
  | Raise e => handler e
  end.

Declare Scope py_scope.
Delimit Scope py_scope with py.
Notation "x <- c ;; k" := (rbind c (fun x => k))
  (at level 100, c at next level, right associativity) : py_scope.

(** ** Values *)

(** The objects that flow through the module: [None], [bool], [int], [str],
    [list] and [dict] with string keys (insertion-ordered, like Python's). *)
#[local] Set Warnings "-register-all".
Inductive pyval :=
  | VNone
  | VBool (b : bool)
  | VInt (z : Z)
  | VStr (s : string)
  | VList (xs : list pyval)
  | VDict (kvs : list (string * pyval)).

(** ** Strings: [str] and [repr] *)

Definition dquote : ascii := ascii_of_nat 34.
Definition squote : ascii := ascii_of_nat 39.
Definition backslash : ascii := ascii_of_nat 92.

Definition str_of_Z (z : Z) : string := NilZero.string_of_int (Z.to_int z).

Fixpoint join (sep : string) (l : list string) : string :=
  match l with
  | [] => ""
  | [s] => s
  | s :: l' => s +:+ sep +:+ join sep l'
  end.

Fixpoint str_contains (c : ascii) (s : string) : bool :=
  match s with
  | EmptyString => false
  | String d s' => Ascii.eqb c d || str_contains c s'
  end.

Definition hex_digit (n : nat) : ascii :=
  if (n <? 10)%nat then ascii_of_nat (48 + n) else ascii_of_nat (87 + n).

(** One character of [repr(s)], [q] being the quote in use. *)
Definition repr_char (q c : ascii) : string :=
  let n := nat_of_ascii c in
  if Ascii.eqb c backslash then String backslash (String backslash "")
  else if Ascii.eqb c q then String backslash (String q "")
  else if (n =? 9)%nat then String backslash "t"
  else if (n =? 10)%nat then String backslash "n"
  else if (n =? 13)%nat then String backslash "r"
  else if (n <? 32)%nat || (126 <? n)%nat then
    String backslash (String "x" (String (hex_digit (n / 16)) (String (hex_digit (n mod 16)) "")))
  else String c "".

Fixpoint repr_chars (q : ascii) (s : string) : string :=
  match s with
  | EmptyString => ""
  | String c s' => repr_char q c +:+ repr_chars q s'
  end.

(** [repr] of a [str]: single quotes, unless the text has a single quote
    and no double quote. *)
Definition py_repr_str (s : string) : string :=
  let q := if str_contains squote s && negb (str_contains dquote s)
           then dquote else squote in
  String q (repr_chars q s +:+ String q "").

Fixpoint py_repr (v : pyval) : string :=
  match v with
  | VNone => "None"
  | VBool true => "True"
  | VBool false => "False"
  | VInt z => str_of_Z z
  | VStr s => py_repr_str s
  | VList xs => "[" +:+ join ", " (map py_repr xs) +:+ "]"
  | VDict kvs =>
      "{" +:+ join ", " (map (fun kv => py_repr_str (fst kv) +:+ ": " +:+ py_repr (snd kv)) kvs)
          +:+ "}"
  end.

(** [str(v)]: the text itself for a [str], [repr(v)] otherwise. *)
Definition py_str (v : pyval) : string :=
  match v with
  | VStr s => s
  | _ => py_repr v
  end.

Definition type_name (v : pyval) : string :=
  match v with
  | VNone => "NoneType"
  | VBool _ => "bool"
  | VInt _ => "int"
  | VStr _ => "str"
  | VList _ => "list"
  | VDict _ => "dict"
  end.

(** ** [int(x)] *)

(** C's [isspace] on ASCII, which the integer parser uses. *)
Definition is_space (c : ascii) : bool :=
  let n := nat_of_ascii c in
  ((9 <=? n)%nat && (n <=? 13)%nat) || (n =? 32)%nat.

Definition digit_value (c : ascii) : option Z :=
  let n := nat_of_ascii c in
  if (48 <=? n)%nat && (n <=? 57)%nat then Some (Z.of_nat n - 48) else None.

Fixpoint skip_spaces (s : string) : string :=
  match s with
  | String c s' => if is_space c then skip_spaces s' else s
  | EmptyString => s
  end.

(** The interpreter's default limit on the digits of an int read from, or
    written to, a [str]: [sys.get_int_max_str_digits()]. *)
Definition max_str_digits : Z := 4300.

(** The digits after the first one: single underscores may separate digits.
    Returns the value, the number of digits read so far and the text left
    over. *)
Fixpoint parse_digits (acc digits : Z) (s : string) : option (Z * Z * string) :=
  match s with
  | EmptyString => Some (acc, digits, s)
  | String c s' =>
      match digit_value c with
      | Some d => parse_digits (acc * 10 + d) (digits + 1) s'
      | None =>
          if Ascii.eqb c "_" then
            match s' with
            | String c' s'' =>
                match digit_value c' with
                | Some d => parse_digits (acc * 10 + d) (digits + 1) s''
                | None => None
                end
            | EmptyString => None
            end
          else Some (acc, digits, s)
      end
  end.

(** What [int(s)] makes of a [str]: a value, or one of its two
    [ValueError]s. *)
Inductive int_literal :=
  | Literal (z : Z)
  | Invalid_literal
  | Too_many_digits (digits : Z).

(** [int(s)] for a [str] in base 10: optional blanks, an optional sign,
    digits, optional blanks.  The digits are counted while they are read,
    and the count is checked before what follows the digits is looked
    at. *)
Definition parse_int (s : string) : int_literal :=
  let s1 := skip_spaces s in
  let '(neg, s2) :=
    match s1 with
    | String c s' =>
        if Ascii.eqb c "-" then (true, s')
        else if Ascii.eqb c "+" then (false, s')
        else (false, s1)
    | EmptyString => (false, s1)
    end in
  match s2 with
  | String c s3 =>
      match digit_value c with
      | Some d =>
          match parse_digits d 1 s3 with
          | Some (n, digits, rest) =>
              if digits >? max_str_digits then Too_many_digits digits
              else
                match skip_spaces rest with
                | EmptyString => Literal (if neg then - n else n)
                | String _ _ => Invalid_literal
                end
          | None => Invalid_literal
          end
      | None => Invalid_literal
      end
  | EmptyString => Invalid_literal
  end.

(** [int(v)].  The message for a bad literal shows at most 200 characters
    of the [repr] of the text. *)
Definition py_int (v : pyval) : result Z :=
  match v with
  | VInt z => Return z
  | VBool b => Return (if b then 1 else 0)
  | VStr s =>
      match parse_int s with
      | Literal z => Return z
      | Invalid_literal =>
          Raise (Exn ValueError
                   ("invalid literal for int() with base 10: "
                      +:+ substring 0 200 (py_repr_str s)))
      | Too_many_digits digits =>
          Raise (Exn ValueError
                   ("Exceeds the limit (" +:+ str_of_Z max_str_digits
                      +:+ " digits) for integer string conversion: value has "
                      +:+ str_of_Z digits
                      +:+ " digits; use sys.set_int_max_str_digits() to increase the limit"))
      end
  | _ =>
      Raise (Exn TypeError
               ("int() argument must be a string, a bytes-like object or a real number, not '"
                  +:+ type_name v +:+ "'"))
  end.

(** ** Pure functions of the module *)

(** [process_data]: [try: result = int(data) * 2; return result]
    [except: return None]. *)
Definition process_data (data : pyval) : result pyval :=
  try_except
    (result <- py_int data ;;
     Return (VInt (result * 2)))%py
    (fun _ => Return VNone).

(** [build_message]: the loop [message = message + str(item) + ", "]. *)
Definition build_message (items : list pyval) : string :=
  fold_left (fun message item => message +:+ py_str item +:+ ", ") items "".

(** [CalculateTotal]: the loop [Total += Item], from [Total = 0]. *)
Definition CalculateTotal (ItemList : list Z) : Z :=
  fold_left (fun Total Item => Total + Item) ItemList 0.

Definition connect_to_database : string :=
  let db_password := "admin123" in
  let db_user := "root" in
  let connection_string :=
    "mysql://" +:+ db_user +:+ ":" +:+ db_password +:+ "@localhost/mydb" in
  connection_string.

(** [filter_even_numbers]: [result.append(num)] when [num % 2 == 0]; Python's
    [%] takes the sign of the divisor, as [Z.modulo] does. *)
Definition filter_even_numbers (numbers : list Z) : list Z :=
  fold_left (fun result num => if num mod 2 =? 0 then (result ++ [num]) else result)
            numbers [].

(** [check_value]: [value is 10] compares identities; CPython keeps one
    object per small int, so the test holds exactly for the int 10. *)
Definition check_value (value : pyval) : bool :=
  match value with
  | VInt 10 => true
  | _ => false
  end.

(** [has_positive_number]: the loop returns at the first [num > 0]. *)
Fixpoint has_positive_number (numbers : list Z) : bool :=
  match numbers with
  | [] => false
  | num :: rest => if num >? 0 then true else has_positive_number rest
  end.

(** [find_duplicates]: two nested loops, [duplicates.append(item1)] at each
    pair with [item1 == item2]. *)
Definition find_duplicates {A} `{EqDecision A} (list1 list2 : list A) : list A :=
  fold_left
    (fun duplicates item1 =>
       fold_left
         (fun duplicates item2 =>
            if bool_decide (item1 = item2) then (duplicates ++ [item1]) else duplicates)
         list2 duplicates)
    list1 [].

(** *** [remove_negatives]: a list changed while it is iterated over *)

(** [list.remove(x)]: deletes the first element equal to [x]; [ValueError]
    when there is none. *)
Fixpoint list_remove (x : Z) (l : list Z) : result (list Z) :=
  match l with
  | [] => Raise (Exn ValueError "list.remove(x): x not in list")
  | y :: l' =>
      if x =? y then Return l'
      else (l'' <- list_remove x l' ;; Return (y :: l''))%py
  end.

(** The [for] loop over [numbers]: the list iterator holds an index [i]; each
    step reads [numbers[i]] from the list as it is now, and stops once [i]
    is past its end.  Every step advances [i], so [length numbers] steps
    are enough ([remove_negatives_loop_fuel] below). *)
Fixpoint remove_negatives_loop (fuel i : nat) (numbers : list Z) : result (list Z) :=
  match fuel with
  | O => Return numbers
  | S fuel' =>
      match numbers !! i with
      | None => Return numbers
      | Some num =>
          if num <? 0 then
            (numbers' <- list_remove num numbers ;;
             remove_negatives_loop fuel' (S i) numbers')%py
          else remove_negatives_loop fuel' (S i) numbers
      end
  end.

Definition remove_negatives (numbers : list Z) : result (list Z) :=
  remove_negatives_loop (length numbers) 0 numbers.

(** Two neighbours of the list are both negative. *)
Fixpoint adjacent_negatives (l : list Z) : bool :=
  match l with
  | x :: (y :: _) as l' => ((x <? 0) && (y <? 0)) || adjacent_negatives l'
  | _ => false
  end.

(** *** Numbers: [assert] and true division *)

(** [assert cond, msg]. *)
Definition py_assert (cond : bool) (msg : string) : result unit :=
  if cond then Return tt else Raise (Exn AssertionError msg).

Definition set_age (age : Z) : result Z :=
  (_ <- py_assert (age >? 0) "Age must be positive" ;;
   _ <- py_assert (age <? 150) "Age too high" ;;
   Return age)%py.

Definition binary64_round := binary_round_aux 53 1024.

(** The quotient of two ints rounded once to the nearest binary64, ties to
    even; an infinity when it is past the largest float. *)
Definition rounded_quotient (a b : Z) : spec_float :=
  let '(q, e, l) := SFdiv_core_binary 53 1024 (Z.abs a) 0 (Z.abs b) 0 in
  binary64_round (xorb (a <? 0) (b <? 0)) q e l.

(** [a / b] on ints: the divisor is tested first; [0 / b] is a zero with
    the sign of [b]; a quotient that rounds past the largest float is an
    [OverflowError]. *)
Definition int_true_divide (a b : Z) : result spec_float :=
  if b =? 0 then Raise (Exn ZeroDivisionError "division by zero")
  else if a =? 0 then Return (S754_zero (b <? 0))
  else
    match rounded_quotient a b with
    | S754_infinity _ =>
        Raise (Exn OverflowError "integer division result too large for a float")
    | f => Return f
    end.

Definition divide_numbers (a b : Z) : result spec_float :=
  int_true_divide a b.

(** The sign of a float: set for negative values and for [-0.0]. *)
Definition sign_bit (f : spec_float) : bool :=
  match f with
  | S754_zero s | S754_infinity s | S754_finite s _ _ => s
  | S754_nan => false
  end.

(** A float that is a number within range: a zero or a finite value. *)
Definition is_finite (f : spec_float) : bool :=
  match f with
  | S754_zero _ | S754_finite _ _ _ => true
  | S754_infinity _ | S754_nan => false
  end.

(** *** The quotient that [a / b] is measured against

    [a / b] is specified against the rational quotient: the float returned
    is the binary64 number nearest to it.  [located] and [rounds_to] state
    what shifting and rounding a mantissa do to a fraction [N / P]. *)

(** [located N P mrs]: the non-negative rational [N / P] lies in
    [[m, m + 1)] for the mantissa [m] of [mrs], and the round and sticky
    bits of [mrs] say where: on [m], below the middle, on it, above it. *)
Definition located (N P : Z) (mrs : shr_record) : Prop :=
  0 <= shr_m mrs /\
  match shr_r mrs, shr_s mrs with
  | false, false => N = shr_m mrs * P
  | false, true => shr_m mrs * P < N /\ 2 * N < (2 * shr_m mrs + 1) * P
  | true, false => 2 * N = (2 * shr_m mrs + 1) * P
  | true, true => (2 * shr_m mrs + 1) * P < 2 * N /\ N < (shr_m mrs + 1) * P
  end.

(** [rounds_to N P M]: the integer [M] is nearest to [N / P], and even when
    [N / P] is half-way between two integers. *)
Definition rounds_to (N P M : Z) : Prop :=
  2 * Z.abs (N - M * P) <= P /\ (2 * Z.abs (N - M * P) = P -> Z.even M = true).

(** The finite numbers of binary64: zeros, and mantissas of at most 53 bits
    with an exponent from -1074 to 971, in their canonical form. *)
Definition binary64 (f : spec_float) : Prop :=
  is_finite f = true /\ valid_binary 53 1024 f = true.

(** A finite float times [2 ^ 1074], an integer: no binary64 has an
    exponent below -1074. *)
Definition scaled_value (f : spec_float) : Z :=
  match f with
  | S754_finite s m e => (if s then Z.neg m else Z.pos m) * 2 ^ (e + 1074)
  | _ => 0
  end.

(** Whether the mantissa of a float is even; a zero counts as even. *)
Definition even_mantissa (f : spec_float) : bool :=
  match f with
  | S754_finite _ m _ => Z.even (Z.pos m)
  | _ => true
  end.

(** The rational number a finite float stands for: [m * 2 ^ e], signed. *)
Definition float_value (f : spec_float) : Q :=
  match f with
  | S754_finite s m e => (inject_Z (if s then Z.neg m else Z.pos m) * 2 ^ e)%Q
  | _ => 0%Q
  end.

(** The quotient of two ints as a rational number. *)
Definition exact_quotient (a b : Z) : Q := (inject_Z a / inject_Z b)%Q.

(** [nearest_float x f]: [f] is a binary64 number, no binary64 number is
    nearer to [x], and when another one is as near, the mantissa of [f] is
    even. *)
Definition nearest_float (x : Q) (f : spec_float) : Prop :=
  binary64 f
  /\ forall g, binary64 g ->
       (Qabs (float_value f - x) <= Qabs (float_value g - x))%Q
       /\ (Qabs (float_value f - x) == Qabs (float_value g - x) ->
           float_value g == float_value f \/ even_mantissa f = true)%Q.

(** The largest float, [2 ^ 1024 - 2 ^ 971], plus half a unit in its last
    place: a quotient this large rounds past every float. *)
Definition float_overflow_bound : Q := inject_Z (2 ^ 1024 - 2 ^ 970).

(** [float(n)] as applied to the int operand of an int-by-float product. *)
Definition int_to_float (n : Z) : result spec_float :=
  match binary_normalize 53 1024 n 0 false with
  | S754_infinity _ => Raise (Exn OverflowError "int too large to convert to float")
  | f => Return f
  end.

(** The literals [9.99], [0.8] and [0.9] as binary64. *)
Definition float_9_99 : spec_float := S754_finite false 5623870034678907 (-49).
Definition float_0_8 : spec_float := S754_finite false 7205759403792794 (-53).
Definition float_0_9 : spec_float := S754_finite false 8106479329266893 (-53).

Definition float_mul := SFmul 53 1024.

(** [n * x] for an int [n] and a float [x]: [n] is converted first. *)
Definition int_mul_float (n : Z) (x : spec_float) : result spec_float :=
  (q <- int_to_float n ;; Return (float_mul q x))%py.

Definition calculate_price (quantity : Z) : result spec_float :=
  if quantity >? 100 then
    (p <- int_mul_float quantity float_9_99 ;; Return (float_mul p float_0_8))%py
  else if quantity >? 50 then
    (p <- int_mul_float quantity float_9_99 ;; Return (float_mul p float_0_9))%py
  else int_mul_float quantity float_9_99.

(** ** The class [UserManager] *)

Fixpoint dict_get (k : string) (kvs : list (string * pyval)) : option pyval :=
  match kvs with
  | [] => None
  | (k', v) :: kvs' => if String.eqb k k' then Some v else dict_get k kvs'
  end.

(** [d[k]] for a string key. *)
Definition py_getitem (d : pyval) (k : string) : result pyval :=
  match d with
  | VDict kvs =>
      match dict_get k kvs with
      | Some v => Return v
      | None => Raise (Exn KeyError (py_repr_str k))
      end
  | _ => Raise (Exn TypeError ("'" +:+ type_name d +:+ "' object is not subscriptable"))
  end.

(** [v < n] for an int [n]. *)
Definition py_lt_int (v : pyval) (n : Z) : result bool :=
  match v with
  | VInt z => Return (z <? n)
  | VBool b => Return ((if b then 1 else 0) <? n)
  | _ =>
      Raise (Exn TypeError
               ("'<' not supported between instances of '" +:+ type_name v +:+ "' and 'int'"))
  end.

Module UserManager.

Definition get_user (user_id : pyval) : result pyval :=
  Return (VDict [("id", user_id); ("age", VInt 25); ("email", VStr "user@example.com")]).

Definition send_email (email message : pyval) : result pyval := Return VNone.

Definition log_action (user_id action : pyval) : result pyval := Return VNone.

Definition update_cache (user_id user : pyval) : result pyval := Return VNone.

Definition process_user (user_id : pyval) : result pyval :=
  (user <- get_user user_id ;;
   age <- py_getitem user "age" ;;
   too_young <- py_lt_int age 18 ;;
   if too_young : bool then Raise (Exn ValueError "Too young")
   else
     email <- py_getitem user "email" ;;
     _ <- send_email email (VStr "Welcome!") ;;
     _ <- log_action user_id (VStr "processed") ;;
     _ <- update_cache user_id user ;;
     Return user)%py.

(** The methods the class defines, and a call of one with its arguments. *)
Inductive method :=
  | m_process_user
  | m_get_user
  | m_send_email
  | m_log_action
  | m_update_cache.

Inductive method_call :=
  | call_process_user (user_id : pyval)
  | call_get_user (user_id : pyval)
  | call_send_email (email message : pyval)
  | call_log_action (user_id action : pyval)
  | call_update_cache (user_id user : pyval).

Definition method_of (c : method_call) : method :=
  match c with
  | call_process_user _ => m_process_user
  | call_get_user _ => m_get_user
  | call_send_email _ _ => m_send_email
  | call_log_action _ _ => m_log_action
  | call_update_cache _ _ => m_update_cache
  end.

Definition invoke (c : method_call) : result pyval :=
  match c with
  | call_process_user user_id => process_user user_id
  | call_get_user user_id => get_user user_id
  | call_send_email email message => send_email email message
  | call_log_action user_id action => log_action user_id action
  | call_update_cache user_id user => update_cache user_id user
  end.

(** A method is a no-op when each of its calls returns [None]. *)
Definition no_op (m : method) : Prop :=
  forall c, method_of c = m -> invoke c = Return VNone.

End UserManager.

(** ** The interpreter's state *)

(** The modes the module opens files in. *)
Inductive mode := Mode_r | Mode_w | Mode_rb | Mode_wb.

Definition writing (m : mode) : bool :=
  match m with
  | Mode_w | Mode_wb => true
  | Mode_r | Mode_rb => false
  end.

(** A regular file: its text and whether the process may read or write it.
    The file system is a flat map from paths to regular files. *)
Record file := File { f_data : string; f_readable : bool; f_writable : bool }.

(** An open file object: position for reads, pending text for writes. *)
Record handle := Handle { h_path : string; h_mode : mode; h_pos : nat; h_buf : string }.

(** What is done to file objects, in order. *)
Inductive io_event :=
  | EvOpen (fd : nat) (path : string) (m : mode)
  | EvRead (fd : nat)
  | EvWrite (fd : nat) (data : string)
  | EvClose (fd : nat).

Record world := World {
  w_stdout : string;                       (* text printed so far *)
  w_argv : list string;                    (* sys.argv *)
  w_environ : gmap string string;          (* os.environ *)
  w_cwd : string;                          (* os.getcwd() *)
  w_fs : gmap string file;
  w_open : gmap nat handle;                (* file objects not yet closed *)
  w_trace : list io_event;
  w_heap : gmap nat (list pyval);          (* list objects, by identity *)
  w_user_data : list (string * pyval);     (* global user_data *)
  w_counter : Z;                           (* global counter *)
  w_add_item_defaults : nat                (* the list object of add_item.__defaults__ *)
}.

Definition set_stdout (s : string) (w : world) : world :=
  World s (w_argv w) (w_environ w) (w_cwd w) (w_fs w) (w_open w) (w_trace w)
        (w_heap w) (w_user_data w) (w_counter w) (w_add_item_defaults w).

Definition set_files (fs : gmap string file) (op : gmap nat handle) (ev : io_event)
    (w : world) : world :=
  World (w_stdout w) (w_argv w) (w_environ w) (w_cwd w) fs op (w_trace w ++ [ev])
        (w_heap w) (w_user_data w) (w_counter w) (w_add_item_defaults w).

Definition set_heap (h : gmap nat (list pyval)) (w : world) : world :=
  World (w_stdout w) (w_argv w) (w_environ w) (w_cwd w) (w_fs w) (w_open w) (w_trace w)
        h (w_user_data w) (w_counter w) (w_add_item_defaults w).

Definition set_globals (user_data : list (string * pyval)) (counter : Z) (defaults : nat)
    (w : world) : world :=
  World (w_stdout w) (w_argv w) (w_environ w) (w_cwd w) (w_fs w) (w_open w) (w_trace w)
        (w_heap w) user_data counter defaults.

(** ** The state-and-error monad *)

Definition M (A : Type) : Type := world -> result A * world.

Definition m_ret {A} (a : A) : M A := fun w => (Return a, w).

Definition m_raise {A} (e : exn) : M A := fun w => (Raise e, w).

Definition m_bind {A B} (m : M A) (k : A -> M B) : M B :=
  fun w =>
    match m w with
    | (Return a, w') => k a w'
    | (Raise e, w') => (Raise e, w')
    end.

Definition m_lift {A} (r : result A) : M A := fun w => (r, w).

Declare Scope world_scope.
Delimit Scope world_scope with M.
Notation "x <- c ;; k" := (m_bind c (fun x => k))
  (at level 100, c at next level, right associativity) : world_scope.

(** [try: body / except Exception as e: handler]: classes outside
    [Exception] pass through. *)
Definition m_try_Exception {A} (body : M A) (handler : exn -> M A) : M A :=
  fun w =>
    match body w with
    | (Return a, w') => (Return a, w')
    | (Raise e, w') =>
        if is_Exception (exn_cls e) then handler e w' else (Raise e, w')
    end.

Definition newline : string := String (ascii_of_nat 10) "".

(** [print(v)]: [str(v)] and a newline on standard output. *)
Definition py_print (v : pyval) : M unit :=
  fun w => (Return tt, set_stdout (w_stdout w +:+ py_str v +:+ newline) w).

(** ** Files *)

Fixpoint str_drop (n : nat) (s : string) : string :=
  match n, s with
  | S n', String _ s' => str_drop n' s'
  | _, _ => s
  end.

Definition os_error (c : exn_class) (errno : string) (path : string) : exn :=
  Exn c (errno +:+ ": " +:+ py_repr_str path).

Definition new_handle (path : string) (m : mode) (fs : gmap string file) : M nat :=
  fun w =>
    let fd := fresh (dom (w_open w)) in
    (Return fd,
     set_files fs (<[fd := Handle path m 0 ""]> (w_open w)) (EvOpen fd path m) w).

(** [open(path, mode)].  Reading needs an existing, readable file.  Writing
    truncates the file, or creates it; an existing file must be writable.
    The new file object is one that is not open yet. *)
Definition py_open (path : string) (m : mode) : M nat :=
  fun w =>
    match w_fs w !! path with
    | Some f =>
        if writing m then
          if f_writable f
          then new_handle path m (<[path := File "" (f_readable f) true]> (w_fs w)) w
          else (Raise (os_error PermissionError "[Errno 13] Permission denied" path), w)
        else
          if f_readable f
          then new_handle path m (w_fs w) w
          else (Raise (os_error PermissionError "[Errno 13] Permission denied" path), w)
    | None =>
        if writing m
        then new_handle path m (<[path := File "" true true]> (w_fs w)) w
        else (Raise (os_error FileNotFoundError "[Errno 2] No such file or directory" path), w)
    end.

Definition closed_file : exn := Exn ValueError "I/O operation on closed file.".

(** Reading in text mode hands the text of the file over as it is when
    the text has no carriage return (the interpreter turns each one, with
    or without a following newline, into a newline). *)
Definition carriage_return : ascii := ascii_of_nat 13.

(** [f.read()]: the text from the position of [f] to the end of the file. *)
Definition py_read (fd : nat) : M string :=
  fun w =>
    match w_open w !! fd with
    | None => (Raise closed_file, w)
    | Some h =>
        if writing (h_mode h) then (Raise (Exn UnsupportedOperation "not readable"), w)
        else
          let data := match w_fs w !! h_path h with Some f => f_data f | None => "" end in
          (Return (str_drop (h_pos h) data),
           set_files (w_fs w)
             (<[fd := Handle (h_path h) (h_mode h)
                        (Nat.max (h_pos h) (String.length data)) (h_buf h)]> (w_open w))
             (EvRead fd) w)
    end.

(** [f.write(s)]: the text is held by the file object until it is closed. *)
Definition py_write (fd : nat) (s : string) : M Z :=
  fun w =>
    match w_open w !! fd with
    | None => (Raise closed_file, w)
    | Some h =>
        if writing (h_mode h) then
          (Return (Z.of_nat (String.length s)),
           set_files (w_fs w)
             (<[fd := Handle (h_path h) (h_mode h) (h_pos h) (h_buf h +:+ s)]> (w_open w))
             (EvWrite fd s) w)
        else (Raise (Exn UnsupportedOperation "not writable"), w)
    end.

(** The pending text of a file object reaches the file, from its start. *)
Definition flush (h : handle) (fs : gmap string file) : gmap string file :=
  if writing (h_mode h) then
    match fs !! h_path h with
    | Some f =>
        <[h_path h := File (h_buf h +:+ str_drop (String.length (h_buf h)) (f_data f))
                           (f_readable f) (f_writable f)]> fs
    | None => <[h_path h := File (h_buf h) true true]> fs
    end
  else fs.

(** [f.close()]: flushes and forgets the file object; closing twice is
    allowed and does nothing. *)
Definition py_close (fd : nat) : M unit :=
  fun w =>
    match w_open w !! fd with
    | None => (Return tt, w)
    | Some h =>
        (Return tt, set_files (flush h (w_fs w)) (delete fd (w_open w)) (EvClose fd) w)
    end.

(** [with opening as f: body]: [f] is closed when the body is left, by a
    [return] or by an exception. *)
Definition m_with {A} (opening : M nat) (body : nat -> M A) : M A :=
  fun w =>
    match opening w with
    | (Raise e, w1) => (Raise e, w1)
    | (Return f, w1) =>
        let '(r, w2) := body f w1 in
        match py_close f w2 with
        | (Raise e, w3) => (Raise e, w3)
        | (Return _, w3) => (r, w3)
        end
    end.

(** ** Functions of the module that use the state *)

(** Executing the module's top level: [user_data = {}], [counter = 0], and
    the [def] of [add_item], which builds the list [[]] of its default
    once.  (The other [def]s, the [import]s and the [class] statement only
    bind names.) *)
Definition import_module : M unit :=
  fun w =>
    let l := fresh (dom (w_heap w)) in
    (Return tt, set_globals [] 0 l (set_heap (<[l := []]> (w_heap w)) w)).

(** [add_item(item, items=[])]: [items] is a reference to a list object;
    when the argument is left out it is the one default object.  The list
    is changed in place and the same reference is returned.  (A reference
    is expected to point into the heap; [alter] leaves the heap as it is
    otherwise.) *)
Definition add_item (item : pyval) (items : option nat) : M nat :=
  fun w =>
    let items := default (w_add_item_defaults w) items in
    (Return items, set_heap (alter (fun xs => xs ++ [item]) items (w_heap w)) w).

(** A file object whose only name is a local variable of a function that
    returns: the interpreter finalises the object, which closes it as
    [f.close()] does. *)
Definition py_finalize (fd : nat) : M unit := py_close fd.

(** [read_file]: [f = open(filename)], [content = f.read()],
    [return content].  The function never closes [f]; the interpreter does,
    when the function returns. *)
Definition read_file (filename : string) : M string :=
  (file <- py_open filename Mode_r ;;
   content <- py_read file ;;
   _ <- py_finalize file ;;
   m_ret content)%M.

Definition copy_file (source destination : string) : M unit :=
  (src <- py_open source Mode_rb ;;
   dst <- py_open destination Mode_wb ;;
   data <- py_read src ;;
   _ <- py_write dst data ;;
   _ <- py_close src ;;
   _ <- py_close dst ;;
   m_ret tt)%M.

Definition get_config_path : M string :=
  fun w => (Return (w_cwd w +:+ "/config/" +:+ "settings.json"), w).

(** The block under [if __name__ == "__main__":], after the top level. *)
Definition run_as_script : M unit :=
  (_ <- import_module ;;
   _ <- py_print (VStr "Running script...") ;;
   data <- m_lift (process_data (VStr "123")) ;;
   py_print data)%M.

(** ** Calls *)

(** A call of a function of the module, with its arguments.  ([calculate]
    runs [eval] on its argument and [get_current_time] reads a clock; they
    are outside the model.) *)
Inductive call :=
  | Call_add_item (item : pyval) (items : option nat)
  | Call_read_file (filename : string)
  | Call_process_data (data : pyval)
  | Call_write_config (filename : string) (config : pyval)
  | Call_build_message (items : list pyval)
  | Call_CalculateTotal (ItemList : list Z)
  | Call_connect_to_database
  | Call_filter_even_numbers (numbers : list Z)
  | Call_remove_negatives (numbers : list Z)
  | Call_check_value (value : pyval)
  | Call_divide_numbers (a b : Z)
  | Call_has_positive_number (numbers : list Z)
  | Call_copy_file (source destination : string)
  | Call_load_json (filename : string)
  | Call_UserManager (c : UserManager.method_call)
  | Call_set_age (age : Z)
  | Call_get_config_path
  | Call_find_duplicates (list1 list2 : list Z)
  | Call_calculate_price (quantity : Z).

(** What a call returns: a value, a reference to a list object, or a
    float. *)
Inductive retval :=
  | R_val (v : pyval)
  | R_ref (l : nat)
  | R_float (f : spec_float).

Definition rmap {A B} (f : A -> B) (r : result A) : result B :=
  match r with
  | Return a => Return (f a)
  | Raise e => Raise e
  end.

Definition m_map {A B} (f : A -> B) (m : M A) : M B :=
  fun w => let '(r, w') := m w in (rmap f r, w').

Definition ints (l : list Z) : pyval := VList (map VInt l).

(** The calls whose result does not go through the file system or through
    [add_item]'s list objects. *)
Definition keeps_no_state (c : call) : bool :=
  match c with
  | Call_add_item _ _
  | Call_read_file _
  | Call_write_config _ _
  | Call_copy_file _ _
  | Call_load_json _ => false
  | _ => true
  end.

(** A reference is read through the heap; other results stand for
    themselves. *)
Definition deref (w : world) (r : retval) : retval :=
  match r with
  | R_ref l => R_val (VList (default [] (w_heap w !! l)))
  | _ => r
  end.

(** Every read, write and close of [evs] is on a file object opened
    earlier in [evs] ([mine] collects them). *)
Fixpoint confined (mine : list nat) (evs : list io_event) : bool :=
  match evs with
  | [] => true
  | EvOpen fd _ _ :: evs' => confined (fd :: mine) evs'
  | EvRead fd :: evs' => bool_decide (fd ∈ mine) && confined mine evs'
  | EvWrite fd _ :: evs' => bool_decide (fd ∈ mine) && confined mine evs'
  | EvClose fd :: evs' => bool_decide (fd ∈ mine) && confined mine evs'
  end.

(** ** An instance of the [json] parameters

    [dumps_ascii] is [json.dumps] with its default settings on the values
    of the model.  [loads_literal] decodes the three JSON literals and
    reports any other text as an error; it only serves to run the functions
    on concrete files. *)

Definition hex4 (n : nat) : string :=
  String (hex_digit (n / 4096)) (String (hex_digit ((n / 256) mod 16))
    (String (hex_digit ((n / 16) mod 16)) (String (hex_digit (n mod 16)) ""))).

Definition json_char (c : ascii) : string :=
  let n := nat_of_ascii c in
  if Ascii.eqb c dquote then String backslash (String dquote "")
  else if Ascii.eqb c backslash then String backslash (String backslash "")
  else if (n =? 10)%nat then String backslash "n"
  else if (n =? 13)%nat then String backslash "r"
  else if (n =? 9)%nat then String backslash "t"
  else if (n =? 8)%nat then String backslash "b"
  else if (n =? 12)%nat then String backslash "f"
  else if (n <? 32)%nat || (126 <? n)%nat then String backslash (String "u" (hex4 n))
  else String c "".

Fixpoint json_chars (s : string) : string :=
  match s with
  | EmptyString => ""
  | String c s' => json_char c +:+ json_chars s'
  end.

Definition json_str (s : string) : string :=
  String dquote (json_chars s +:+ String dquote "").

Fixpoint json_text (v : pyval) : string :=
  match v with
  | VNone => "null"
  | VBool true => "true"
  | VBool false => "false"
  | VInt z => str_of_Z z
  | VStr s => json_str s
  | VList xs => "[" +:+ join ", " (map json_text xs) +:+ "]"
  | VDict kvs =>
      "{" +:+ join ", " (map (fun kv => json_str (fst kv) +:+ ": " +:+ json_text (snd kv)) kvs)
          +:+ "}"
  end.

Definition dumps_ascii (v : pyval) : result string := Return (json_text v).

Definition loads_literal (text : string) : string + pyval :=
  if String.eqb text "null" then inr VNone
  else if String.eqb text "true" then inr (VBool true)
  else if String.eqb text "false" then inr (VBool false)
  else inl "Expecting value".

(** A process with two files, nothing open and nothing printed. *)
Definition sample_world : world :=
  World "" ["example.py"] ∅ "/srv"
        (<["a.json" := File "true" true true]>
           (<["locked" := File "null" false false]> ∅))
        ∅ [] ∅ [] 0 0%nat.

(** The same process once the module is loaded, with a second list
    object, [[7]], next to the default list of [add_item]. *)
Definition sample_lists : world :=
  let w := snd (import_module sample_world) in
  set_heap (<[S (w_add_item_defaults w) := [VInt 7]]> (w_heap w)) w.

Section Json.

(** [json.dumps(obj)]: the text, or the exception it raises. *)
Variable json_dumps : pyval -> result string.

(** [json.loads(text)]: the decoded value, or the text of the
    [json.JSONDecodeError] it raises. *)
Variable json_loads : string -> string + pyval.

Definition json_load (f : nat) : M pyval :=
  (text <- py_read f ;;
   match json_loads text with
   | inr v => m_ret v
   | inl msg => m_raise (Exn JSONDecodeError msg)
   end)%M.

Definition write_config (filename : string) (config : pyval) : M unit :=
  (f <- py_open filename Mode_w ;;
   text <- m_lift (json_dumps config) ;;
   _ <- py_write f text ;;
   _ <- py_close f ;;
   m_ret tt)%M.

Definition load_json (filename : string) : M pyval :=
  m_try_Exception
    (m_with (py_open filename Mode_r) (fun f => json_load f))
    (fun e =>
       (_ <- py_print (VStr ("Error: " +:+ exn_str e)) ;;
        m_ret (VDict []))%M).

(** The module's functions, by call. *)
Definition run (c : call) : M retval :=
  match c with
  | Call_add_item item items => m_map R_ref (add_item item items)
  | Call_read_file filename => m_map (fun s => R_val (VStr s)) (read_file filename)
  | Call_process_data data => m_lift (rmap R_val (process_data data))
  | Call_write_config filename config =>
      m_map (fun _ => R_val VNone) (write_config filename config)
  | Call_build_message items => m_ret (R_val (VStr (build_message items)))
  | Call_CalculateTotal ItemList => m_ret (R_val (VInt (CalculateTotal ItemList)))
  | Call_connect_to_database => m_ret (R_val (VStr connect_to_database))
  | Call_filter_even_numbers numbers => m_ret (R_val (ints (filter_even_numbers numbers)))
  | Call_remove_negatives numbers =>
      m_lift (rmap (fun l => R_val (ints l)) (remove_negatives numbers))
  | Call_check_value value => m_ret (R_val (VBool (check_value value)))
  | Call_divide_numbers a b => m_lift (rmap R_float (divide_numbers a b))
  | Call_has_positive_number numbers => m_ret (R_val (VBool (has_positive_number numbers)))
  | Call_copy_file source destination =>
      m_map (fun _ => R_val VNone) (copy_file source destination)
  | Call_load_json filename => m_map R_val (load_json filename)
  | Call_UserManager c => m_lift (rmap R_val (UserManager.invoke c))
  | Call_set_age age => m_lift (rmap (fun a => R_val (VInt a)) (set_age age))
  | Call_get_config_path => m_map (fun s => R_val (VStr s)) get_config_path
  | Call_find_duplicates list1 list2 => m_ret (R_val (ints (find_duplicates list1 list2)))
  | Call_calculate_price quantity => m_lift (rmap R_float (calculate_price quantity))
  end.

(** What the caller gets from a call made in [w]. *)
Definition outcome (c : call) (w : world) : result retval :=
  let '(r, w') := run c w in rmap (deref w') r.

(** The state after a sequence of calls, whatever each of them returned or
    raised. *)
Definition run_calls (cs : list call) (w : world) : world :=
  fold_left (fun w c => snd (run c w)) cs w.

(** The state after the calls [add_item(x)], one for each [x] of [xs] in
    order, none of them passing [items]. *)
Definition add_each (xs : list pyval) (w : world) : world :=
  fold_left (fun w x => snd (add_item x None w)) xs w.

(** The same state with other values in the globals [user_data] and
    [counter]. *)
Definition with_globals (user_data : list (string * pyval)) (counter : Z) (w : world)
    : world :=
  set_globals user_data counter (w_add_item_defaults w) w.

(** A computation that neither reads nor writes [user_data] and
    [counter]: run with other values in them, it gives the same result and
    the same final state, those values apart. *)
Definition globals_blind {A} (m : M A) : Prop :=
  forall user_data counter w,
    m (with_globals user_data counter w)
    = (fst (m w), with_globals user_data counter (snd (m w))).

(** A computation that leaves the working directory of the process as it
    is. *)
Definition keeps_cwd {A} (m : M A) : Prop :=
  forall w, w_cwd (snd (m w)) = w_cwd w.

(** * Properties *)

(** ** Sanity checks of the embedding *)

Example process_data_blank_signed :
  process_data (VStr " -1_000 ") = Return (VInt (-2000)).
Proof. reflexivity. Qed.

Example process_data_bad :
  process_data (VStr "12a") = Return VNone
  /\ process_data (VStr "1__2") = Return VNone
  /\ process_data (VStr "- 1") = Return VNone
  /\ process_data (VList []) = Return VNone.
Proof. repeat split. Qed.

Example py_repr_nested :
  py_repr (VList [VStr "a'b"; VDict [("k", VInt (-3))]; VNone])
  = String "[" (String dquote ("a'b" +:+ String dquote ", {'k': -3}, None]")).
Proof. reflexivity. Qed.

Example float_literals :
  int_true_divide 999 100 = Return float_9_99
  /\ int_true_divide 8 10 = Return float_0_8
  /\ int_true_divide 9 10 = Return float_0_9.
Proof. repeat split; vm_compute; reflexivity. Qed.

Example divide_numbers_7_2 :
  divide_numbers (-7) 2 = Return (S754_finite true 7881299347898368 (-51)).
Proof. vm_compute. reflexivity. Qed.

Example divide_numbers_0_neg : divide_numbers 0 (-5) = Return (S754_zero true).
Proof. reflexivity. Qed.

Example remove_negatives_alternating :
  remove_negatives [1; -1; 2; -2; 3] = Return [1; 2; 3].
Proof. reflexivity. Qed.

Example remove_negatives_skips :
  remove_negatives [-1; -2; 3; -2] = Return [3; -2].
Proof. reflexivity. Qed.

Example process_user_7 :
  UserManager.process_user (VInt 7)
  = Return (VDict [("id", VInt 7); ("age", VInt 25); ("email", VStr "user@example.com")]).
Proof. reflexivity. Qed.

Example build_message_mixed :
  build_message [VInt 1; VStr "b"; VNone] = "1, b, None, ".
Proof. reflexivity. Qed.

Example find_duplicates_pairs :
  find_duplicates [1; 2; 2] [2; 2; 3] = [2; 2; 2; 2].
Proof. reflexivity. Qed.

Example dumps_ascii_dict :
  dumps_ascii (VDict [("debug", VBool true); ("ports", VList [VInt 80; VInt 443])])
  = Return (String "{" (json_str "debug" +:+ ": true, " +:+ json_str "ports"
                          +:+ ": [80, 443]}")).
Proof. reflexivity. Qed.

(** ** General facts *)

Lemma str_app_assoc (a b c : string) : (a +:+ b) +:+ c = a +:+ (b +:+ c).
Proof.
  induction a as [|x a IH]; [reflexivity |].
  change (String x ((a +:+ b) +:+ c) = String x (a +:+ (b +:+ c))).
  now rewrite IH.
Qed.

Lemma str_drop_0 (s : string) : str_drop 0 s = s.
Proof. now destruct s. Qed.

(** ** The script *)

(** C1.  Run as a script, the module prints the line "Running script..."
    and then the line "246", the result of [process_data("123")], and ends
    normally.  This holds in every initial state, so neither the arguments
    nor the environment of the process matter; they are left as they were,
    and no file is touched. *)
Theorem run_as_script_prints (w : world) :
  process_data (VStr "123") = Return (VInt 246)
  /\ exists w',
      run_as_script w = (Return tt, w')
      /\ w_stdout w' = w_stdout w +:+ "Running script..." +:+ newline +:+ "246" +:+ newline
      /\ w_argv w' = w_argv w
      /\ w_environ w' = w_environ w
      /\ w_fs w' = w_fs w
      /\ w_trace w' = w_trace w.
Proof.
  split; [reflexivity |].
  eexists. split; [reflexivity |].
  cbn [w_stdout w_argv w_environ w_fs w_trace set_stdout set_globals set_heap].
  change (py_str (VStr "Running script...")) with "Running script...".
  change (py_str (VInt 246)) with "246".
  rewrite !str_app_assoc. repeat split.
Qed.

(** ** The class *)

(** C2, as stated, fails: [get_user] is a method other than [process_user]
    and it returns a dict, not [None]. *)
Lemma get_user_is_not_a_no_op :
  UserManager.method_of (UserManager.call_get_user (VInt 1)) <> UserManager.m_process_user
  /\ UserManager.invoke (UserManager.call_get_user (VInt 1))
     = Return (VDict [("id", VInt 1); ("age", VInt 25); ("email", VStr "user@example.com")])
  /\ ~ (forall m, m <> UserManager.m_process_user -> UserManager.no_op m).
Proof.
  split; [discriminate |]. split; [reflexivity |].
  intros H.
  assert (Hm : UserManager.m_get_user <> UserManager.m_process_user) by discriminate.
  specialize (H _ Hm (UserManager.call_get_user (VInt 1)) eq_refl).
  discriminate H.
Qed.

(** C2, amended.  [UserManager] has exactly three no-op methods,
    [send_email], [log_action] and [update_cache]: each returns [None] for
    every input, and no other method does.  [get_user] returns, for every
    [user_id], the dict with that id, the age 25 and the e-mail address
    "user@example.com". *)
Theorem UserManager_no_op_methods :
  (forall m,
      UserManager.no_op m
      <-> m = UserManager.m_send_email \/ m = UserManager.m_log_action
          \/ m = UserManager.m_update_cache)
  /\ (forall user_id,
         UserManager.get_user user_id
         = Return (VDict [("id", user_id); ("age", VInt 25);
                          ("email", VStr "user@example.com")])).
Proof.
  split; [| reflexivity].
  intros m. split.
  - intros H. destruct m; auto.
    + specialize (H (UserManager.call_process_user VNone) eq_refl). discriminate H.
    + specialize (H (UserManager.call_get_user VNone) eq_refl). discriminate H.
  - intros [-> | [-> | ->]] c Hc; destruct c; try discriminate Hc; reflexivity.
Qed.

Lemma UserManager_no_op_methods_witness : UserManager.no_op UserManager.m_send_email.
Proof. apply (proj1 UserManager_no_op_methods). left. reflexivity. Defined.

(** ** Error handling *)

(** C4.  [process_data] never lets an exception out: when [int(data)]
    succeeds with [n] it returns [2 * n]; when [int(data)] raises, whatever
    the exception, it returns [None]; so it returns a value on every
    input. *)
Theorem process_data_never_raises (data : pyval) :
  (forall n, py_int data = Return n -> process_data data = Return (VInt (2 * n)))
  /\ (forall e, py_int data = Raise e -> process_data data = Return VNone)
  /\ (exists v, process_data data = Return v).
Proof.
  unfold process_data, try_except, rbind.
  destruct (py_int data) as [n | e]; repeat split.
  - intros n' [= <-]. now rewrite Z.mul_comm.
  - intros e [=].
  - eauto.
  - intros n [=].
  - eauto.
Qed.

Lemma process_data_never_raises_witness :
  process_data (VStr "+7") = Return (VInt (2 * 7))
  /\ process_data VNone = Return VNone.
Proof.
  split.
  - apply (proj1 (process_data_never_raises (VStr "+7"))). reflexivity.
  - apply (proj1 (proj2 (process_data_never_raises VNone)) _ eq_refl).
Defined.

(** C5.  [set_age] raises [AssertionError] exactly when [age <= 0] or
    [age >= 150], raises nothing else, and otherwise returns [age]
    itself. *)
Theorem set_age_asserts (age : Z) :
  ((exists msg, set_age age = Raise (Exn AssertionError msg))
   <-> age <= 0 \/ age >= 150)
  /\ (forall e, set_age age = Raise e -> exn_cls e = AssertionError)
  /\ (~ (age <= 0 \/ age >= 150) -> set_age age = Return age).
Proof.
  unfold set_age, py_assert, rbind.
  destruct (Z.gtb_spec age 0) as [Hpos | Hpos];
    destruct (Z.ltb_spec age 150) as [Hlt | Hlt]; repeat split;
    try (intros [msg [=]]); try (intros e [= <-]; reflexivity);
    try (intros _; eexists; reflexivity); try lia; try discriminate;
    try reflexivity; intros H; exfalso; apply H; lia.
Qed.

Lemma set_age_asserts_witness : set_age 42 = Return 42.
Proof. apply (proj2 (proj2 (set_age_asserts 42))). lia. Defined.

(** ** [remove_negatives] *)

Lemma list_remove_length (x : Z) (l l' : list Z) :
  list_remove x l = Return l' -> length l = S (length l').
Proof.
  revert l'. induction l as [|y l IH]; intros l' H; simpl in H; [discriminate |].
  destruct (x =? y).
  - now injection H as <-.
  - unfold rbind in H. destruct (list_remove x l) as [l'' |]; [| discriminate].
    injection H as <-. simpl. now rewrite (IH l'' eq_refl).
Qed.

(** The loop is over after [length numbers - i] steps: more fuel changes
    nothing, so [remove_negatives] is the whole run of the loop. *)
Lemma remove_negatives_loop_fuel (fuel : nat) :
  forall (i : nat) (numbers : list Z) (extra : nat),
    (length numbers - i <= fuel)%nat ->
    remove_negatives_loop (extra + fuel) i numbers = remove_negatives_loop fuel i numbers.
Proof.
  induction fuel as [|fuel IH]; intros i numbers extra Hlen.
  - rewrite Nat.add_0_r. destruct extra; [reflexivity |]. simpl.
    rewrite lookup_ge_None_2 by lia. reflexivity.
  - rewrite Nat.add_succ_r. simpl.
    destruct (numbers !! i) as [num|] eqn:Hi; [| reflexivity].
    apply lookup_lt_Some in Hi.
    destruct (num <? 0).
    + unfold rbind. destruct (list_remove num numbers) as [numbers' |] eqn:Hrm; [| reflexivity].
      apply list_remove_length in Hrm. apply IH. lia.
    + apply IH. lia.
Qed.

Lemma list_remove_first_negative (x : Z) (pre suf : list Z) :
  Forall (fun y => 0 <= y) pre -> x < 0 ->
  list_remove x (pre ++ x :: suf) = Return (pre ++ suf).
Proof.
  intros Hpre Hx. induction Hpre as [|y pre Hy _ IH]; simpl.
  - now rewrite Z.eqb_refl.
  - destruct (Z.eqb_spec x y) as [-> | _]; [lia |]. now rewrite IH.
Qed.

Lemma adjacent_negatives_tail (x : Z) (l : list Z) :
  adjacent_negatives (x :: l) = false -> adjacent_negatives l = false.
Proof.
  destruct l as [|y l]; [reflexivity |]. cbn [adjacent_negatives].
  intros H. apply orb_false_iff in H. apply H.
Qed.

Lemma remove_negatives_loop_apart (fuel : nat) :
  forall pre suf : list Z,
    Forall (fun y => 0 <= y) pre ->
    adjacent_negatives suf = false ->
    (length suf <= fuel)%nat ->
    remove_negatives_loop fuel (length pre) (pre ++ suf)
    = Return (pre ++ List.filter (fun x => 0 <=? x) suf).
Proof.
  induction fuel as [|fuel IH]; intros pre suf Hpre Hadj Hlen.
  - destruct suf; [reflexivity | simpl in Hlen; lia].
  - destruct suf as [|x suf]; simpl.
    + rewrite lookup_ge_None_2 by (rewrite length_app; simpl; lia). reflexivity.
    + rewrite list_lookup_middle by reflexivity.
      destruct (Z.ltb_spec x 0) as [Hx | Hx].
      * rewrite list_remove_first_negative by assumption. cbn [rbind].
        replace (0 <=? x) with false by (symmetry; apply Z.leb_gt; lia).
        destruct suf as [|y suf].
        { destruct fuel; [reflexivity |]. simpl.
          rewrite lookup_ge_None_2 by (rewrite length_app; simpl; lia). reflexivity. }
        cbn [adjacent_negatives] in Hadj. apply orb_false_iff in Hadj as [Hxy Hadj].
        apply andb_false_iff in Hxy as [Hxy | Hy]; [apply Z.ltb_ge in Hxy; lia |].
        apply Z.ltb_ge in Hy.
        specialize (IH (pre ++ [y])%list suf).
        rewrite length_app, Nat.add_1_r, <- !app_assoc in IH. simpl in IH.
        cbn [List.filter]. replace (0 <=? y) with true by (symmetry; apply Z.leb_le; lia).
        apply IH.
        -- apply Forall_app; split; [assumption | now constructor].
        -- now apply adjacent_negatives_tail in Hadj.
        -- simpl in Hlen. lia.
      * replace (0 <=? x) with true by (symmetry; apply Z.leb_le; lia).
        specialize (IH (pre ++ [x])%list suf).
        rewrite length_app, Nat.add_1_r, <- !app_assoc in IH. simpl in IH.
        apply IH.
        -- apply Forall_app; split; [assumption | now constructor].
        -- now apply adjacent_negatives_tail in Hadj.
        -- simpl in Hlen. lia.
Qed.

(** C9.  [remove_negatives] does not remove every negative: on [[-1, -2]]
    it returns [[-2]].  On a list in which no two negatives are neighbours
    it returns the list without its negatives, so all of them are
    removed. *)
Theorem remove_negatives_misses_neighbours :
  remove_negatives [-1; -2] = Return [-2]
  /\ (forall numbers,
         adjacent_negatives numbers = false ->
         remove_negatives numbers = Return (List.filter (fun x => 0 <=? x) numbers)
         /\ Forall (fun x => 0 <= x) (List.filter (fun x => 0 <=? x) numbers)).
Proof.
  split; [reflexivity |].
  intros numbers Hadj. split.
  - apply (remove_negatives_loop_apart (length numbers) [] numbers); auto.
  - apply List.Forall_forall. intros x Hx.
    apply List.filter_In in Hx as [_ Hx]. now apply Z.leb_le.
Qed.

Lemma remove_negatives_misses_neighbours_witness :
  remove_negatives [-3; 4; -5; 0] = Return [4; 0].
Proof.
  apply (proj2 remove_negatives_misses_neighbours [-3; 4; -5; 0]). reflexivity.
Defined.

(** ** [divide_numbers] *)

Lemma iter_shr_1_zero (p : positive) :
  SpecFloat.iter_pos shr_1 p (Build_shr_record 0 false false)
  = Build_shr_record 0 false false.
Proof. induction p as [p IH | p IH |]; simpl; rewrite ?IH; reflexivity. Qed.

Lemma shr_zero (e n : Z) :
  fst (shr (Build_shr_record 0 false false) e n) = Build_shr_record 0 false false.
Proof.
  unfold shr. destruct n as [|p|p]; try reflexivity.
  simpl. apply iter_shr_1_zero.
Qed.

Lemma binary64_round_zero (sx : bool) (e : Z) :
  binary64_round sx 0 e loc_Exact = S754_zero sx.
Proof.
  unfold binary64_round, binary_round_aux, shr_fexp.
  cbn [shr_record_of_loc].
  destruct (shr _ e _) as [mrs e1] eqn:H1.
  assert (Hm : mrs = Build_shr_record 0 false false)
    by (rewrite <- (shr_zero e (fexp 53 1024 (Zdigits2 0 + e) - e)), H1; reflexivity).
  subst mrs. cbn [shr_m loc_of_shr_record round_nearest_even shr_record_of_loc].
  destruct (shr _ e1 _) as [mrs e2] eqn:H2.
  assert (Hm : mrs = Build_shr_record 0 false false)
    by (rewrite <- (shr_zero e1 (fexp 53 1024 (Zdigits2 0 + e1) - e1)), H2; reflexivity).
  subst mrs. reflexivity.
Qed.

Lemma rounded_quotient_0 (b : Z) : rounded_quotient 0 b = S754_zero (b <? 0).
Proof.
  unfold rounded_quotient, SFdiv_core_binary.
  change (Z.abs 0) with 0.
  set (e' := Z.min _ _).
  set (m' := match 0 - 0 - e' with Z0 => 0 | Zpos _ => _ | Zneg _ => 0 end).
  assert (Hm : m' = 0).
  { subst m'. destruct (0 - 0 - e'); try reflexivity. apply Z.shiftl_0_l. }
  rewrite Hm. cbn [IntDef.Z.div_eucl].
  assert (Hl : new_location (Z.abs b) 0 = loc_Exact).
  { unfold new_location. destruct (Z.even (Z.abs b)); reflexivity. }
  rewrite Hl. apply binary64_round_zero.
Qed.

Lemma shr_1_nonneg (mrs : shr_record) : 0 <= shr_m mrs -> 0 <= shr_m (shr_1 mrs).
Proof.
  destruct mrs as [m r s]. destruct m as [|p|p]; simpl; try lia; destruct p; simpl; lia.
Qed.

Lemma iter_shr_1_nonneg (p : positive) :
  forall mrs, 0 <= shr_m mrs -> 0 <= shr_m (SpecFloat.iter_pos shr_1 p mrs).
Proof.
  induction p as [p IH | p IH |]; intros mrs H; simpl.
  - apply IH, IH, shr_1_nonneg, H.
  - apply IH, IH, H.
  - apply shr_1_nonneg, H.
Qed.

Lemma shr_nonneg (mrs : shr_record) (e n : Z) :
  0 <= shr_m mrs -> 0 <= shr_m (fst (shr mrs e n)).
Proof.
  intros H. unfold shr. destruct n as [|p|p]; simpl; try assumption.
  now apply iter_shr_1_nonneg.
Qed.

Lemma round_nearest_even_nonneg (m : Z) (l : location) :
  0 <= m -> 0 <= round_nearest_even m l.
Proof.
  intros H. destruct l as [|[]]; simpl; try destruct (Z.even m); lia.
Qed.

Lemma shr_record_of_loc_m (m : Z) (l : location) : shr_m (shr_record_of_loc m l) = m.
Proof. destruct l as [|[]]; reflexivity. Qed.

(** Rounding a non-negative mantissa never gives a NaN. *)
Lemma binary64_round_not_nan (sx : bool) (m e : Z) (l : location) :
  0 <= m -> binary64_round sx m e l <> S754_nan.
Proof.
  intros Hm. unfold binary64_round, binary_round_aux, shr_fexp.
  destruct (shr (shr_record_of_loc m l) e _) as [mrs1 e1] eqn:H1.
  assert (Hm1 : 0 <= shr_m mrs1).
  { change mrs1 with (fst (mrs1, e1)). rewrite <- H1.
    apply shr_nonneg. now rewrite shr_record_of_loc_m. }
  set (m2 := round_nearest_even (shr_m mrs1) (loc_of_shr_record mrs1)).
  assert (Hm2 : 0 <= m2) by now apply round_nearest_even_nonneg.
  destruct (shr (shr_record_of_loc m2 loc_Exact) e1 _) as [mrs3 e3] eqn:H3.
  assert (Hm3 : 0 <= shr_m mrs3).
  { change mrs3 with (fst (mrs3, e3)). rewrite <- H3. now apply shr_nonneg. }
  destruct (shr_m mrs3) as [|p|p]; try discriminate; [| lia].
  destruct (e3 <=? 1024 - 53); discriminate.
Qed.

Lemma rounded_quotient_not_nan (a b : Z) : b <> 0 -> rounded_quotient a b <> S754_nan.
Proof.
  intros Hb. unfold rounded_quotient, SFdiv_core_binary.
  set (e' := Z.min _ _).
  set (m' := match 0 - 0 - e' with Z0 => _ | Zpos _ => _ | Zneg _ => 0 end).
  assert (Hm : 0 <= m').
  { subst m'. destruct (0 - 0 - e'); try lia. apply Z.shiftl_nonneg. lia. }
  pose proof (Z.div_pos m' (Z.abs b) Hm ltac:(lia)) as Hq.
  unfold Z.div in Hq. destruct (Z.div_eucl m' (Z.abs b)) as [q r]. simpl in Hq.
  now apply binary64_round_not_nan.
Qed.

(** C10, as stated, fails: a quotient of ints that is too large for a float
    is not returned; the division raises [OverflowError]. *)
Lemma divide_numbers_overflow :
  divide_numbers (2 ^ 1024) 1
  = Raise (Exn OverflowError "integer division result too large for a float").
Proof. vm_compute. reflexivity. Qed.

Lemma located_shr_1 (N P : Z) (mrs : shr_record) :
  0 < P -> located N P mrs -> located N (2 * P) (shr_1 mrs).
Proof.
  intros HP [Hm H]. destruct mrs as [m r s]. cbn [shr_m shr_r shr_s] in *.
  destruct m as [|p|p]; [| | lia].
  - destruct r, s; split; cbn [shr_1 shr_m shr_r shr_s orb] in *; lia.
  - destruct p as [p|p|].
    + rewrite (Pos2Z.inj_xI p) in H.
      destruct r, s; split; cbn [shr_1 shr_m shr_r shr_s orb] in *; try lia;
        set (k := Z.pos p) in *; nia.
    + rewrite (Pos2Z.inj_xO p) in H.
      destruct r, s; split; cbn [shr_1 shr_m shr_r shr_s orb] in *; try lia;
        set (k := Z.pos p) in *; nia.
    + destruct r, s; split; cbn [shr_1 shr_m shr_r shr_s orb] in *; lia.
Qed.

Lemma pow2_xI (p : positive) : 2 ^ Z.pos p~1 = 2 * (2 ^ Z.pos p * 2 ^ Z.pos p).
Proof.
  replace (Z.pos p~1) with (Z.pos p + Z.pos p + 1) by lia.
  rewrite !Z.pow_add_r by lia. change (2 ^ 1) with 2. ring.
Qed.

Lemma pow2_xO (p : positive) : 2 ^ Z.pos p~0 = 2 ^ Z.pos p * 2 ^ Z.pos p.
Proof.
  replace (Z.pos p~0) with (Z.pos p + Z.pos p) by lia.
  now rewrite Z.pow_add_r by lia.
Qed.

Lemma located_iter (p : positive) :
  forall N P mrs, 0 < P -> located N P mrs ->
  located N (2 ^ Z.pos p * P) (SpecFloat.iter_pos shr_1 p mrs).
Proof.
  induction p as [p IH | p IH |]; intros N P mrs HP H; cbn [SpecFloat.iter_pos];
    try pose proof (Z.pow_pos_nonneg 2 (Z.pos p) ltac:(lia) ltac:(lia)) as Hpow.
  - replace (2 ^ Z.pos p~1 * P) with (2 ^ Z.pos p * (2 ^ Z.pos p * (2 * P)))
      by (rewrite pow2_xI; ring).
    apply IH; [nia|]. apply IH; [lia|]. now apply located_shr_1.
  - replace (2 ^ Z.pos p~0 * P) with (2 ^ Z.pos p * (2 ^ Z.pos p * P))
      by (rewrite pow2_xO; ring).
    apply IH; [nia|]. now apply IH.
  - change (2 ^ 1) with 2. now apply located_shr_1.
Qed.

Lemma located_shr (N P : Z) (mrs : shr_record) (e n : Z) :
  0 < P -> 0 <= n -> located N P mrs ->
  snd (shr mrs e n) = e + n /\ located N (2 ^ n * P) (fst (shr mrs e n)).
Proof.
  intros HP Hn H. unfold shr. destruct n as [|p|p]; [| |lia]; cbn [fst snd].
  - split; [lia|]. now rewrite Z.pow_0_r, Z.mul_1_l.
  - split; [reflexivity|]. now apply located_iter.
Qed.

Lemma located_scale (N P T : Z) (mrs : shr_record) :
  0 < T -> located N P mrs -> located (N * T) (P * T) mrs.
Proof.
  intros HT [Hm H]. split; [assumption|].
  destruct (shr_r mrs), (shr_s mrs); nia.
Qed.

Lemma located_new_location (q r D : Z) :
  0 <= q -> 0 < D -> 0 <= r < D ->
  located (q * D + r) D (shr_record_of_loc q (new_location D r)).
Proof.
  intros Hq HD Hr. unfold new_location, new_location_even, new_location_odd.
  destruct (Z.even D) eqn:He.
  - destruct (Z.eqb_spec r 0) as [-> | Hr0].
    + split; cbn [shr_record_of_loc shr_m shr_r shr_s]; lia.
    + destruct (Z.compare_spec (2 * r) D); split;
        cbn [shr_record_of_loc shr_m shr_r shr_s]; lia.
  - destruct (Z.eqb_spec r 0) as [-> | Hr0].
    + split; cbn [shr_record_of_loc shr_m shr_r shr_s]; lia.
    + assert (Hodd : D <> 2 * r).
      { intros ->. rewrite Z.even_mul in He. discriminate. }
      destruct (Z.compare_spec (2 * r + 1) D); split;
        cbn [shr_record_of_loc shr_m shr_r shr_s]; lia.
Qed.

Lemma digits2_pos_bounds (p : positive) :
  2 ^ (Z.pos (digits2_pos p) - 1) <= Z.pos p < 2 ^ Z.pos (digits2_pos p).
Proof.
  induction p as [p IH | p IH |]; cbn [digits2_pos].
  - rewrite Pos2Z.inj_succ, (Pos2Z.inj_xI p), Z.pow_succ_r by lia.
    replace (Z.succ (Z.pos (digits2_pos p)) - 1)
      with (Z.succ (Z.pos (digits2_pos p) - 1)) by lia.
    rewrite Z.pow_succ_r by lia. lia.
  - rewrite Pos2Z.inj_succ, (Pos2Z.inj_xO p), Z.pow_succ_r by lia.
    replace (Z.succ (Z.pos (digits2_pos p)) - 1)
      with (Z.succ (Z.pos (digits2_pos p) - 1)) by lia.
    rewrite Z.pow_succ_r by lia. lia.
  - cbn. lia.
Qed.

Lemma Zdigits2_bounds (m : Z) :
  0 < m -> 2 ^ (Zdigits2 m - 1) <= m < 2 ^ Zdigits2 m.
Proof.
  destruct m as [|p|p]; try lia. intros _. apply digits2_pos_bounds.
Qed.

Lemma Zdigits2_nonneg (m : Z) : 0 <= Zdigits2 m.
Proof. destruct m; cbn; lia. Qed.

(** A power of two is below another exactly when its exponent is. *)
Lemma pow2_lt_inv (i j : Z) : 0 <= i -> 2 ^ i < 2 ^ j -> i < j.
Proof.
  intros Hi H. destruct (Z.lt_ge_cases i j) as [|Hji]; [assumption|].
  destruct (Z.lt_ge_cases j 0) as [Hj|Hj].
  - rewrite (Z.pow_neg_r 2 j Hj) in H. pose proof (Z.pow_pos_nonneg 2 i). lia.
  - pose proof (Z.pow_le_mono_r 2 j i). lia.
Qed.

Lemma located_bounds (N P : Z) (mrs : shr_record) :
  0 < P -> located N P mrs -> shr_m mrs * P <= N < (shr_m mrs + 1) * P.
Proof.
  intros HP [Hm H]. destruct (shr_r mrs), (shr_s mrs); lia.
Qed.

Lemma located_round (N P : Z) (mrs : shr_record) :
  0 < P -> located N P mrs ->
  let m2 := round_nearest_even (shr_m mrs) (loc_of_shr_record mrs) in
  rounds_to N P m2
  /\ shr_m mrs <= m2 <= shr_m mrs + 1
  /\ (m2 = shr_m mrs + 1 -> (2 * shr_m mrs + 1) * P <= 2 * N).
Proof.
  intros HP [Hm H]. destruct mrs as [m r s]. cbn [shr_m shr_r shr_s] in *.
  unfold rounds_to.
  destruct r, s; cbn [loc_of_shr_record round_nearest_even]; cbv zeta.
  - split; [split|]; lia.
  - destruct (Z.even m) eqn:He.
    + split; [split|]; try lia. auto.
    + split; [split|]; try lia. intros _.
      rewrite Z.even_add, He. reflexivity.
  - split; [split|]; lia.
  - split; [split|]; lia.
Qed.

Lemma fexp_binary64 (k : Z) : fexp 53 1024 k = Z.max (k - 53) (-1074).
Proof. reflexivity. Qed.

Lemma pow2_pos (k : Z) : 0 <= k -> 0 < 2 ^ k.
Proof. intros. apply Z.pow_pos_nonneg; lia. Qed.

Lemma binary64_round_spec (sx : bool) (N D q e0 : Z) (l : location) :
  0 < D -> located N D (shr_record_of_loc q l) ->
  e0 <= fexp 53 1024 (Zdigits2 q + e0) ->
  let E := fexp 53 1024 (Zdigits2 q + e0) in
  let P := 2 ^ (E - e0) * D in
  match binary64_round sx q e0 l with
  | S754_zero s => s = sx /\ E = -1074 /\ 2 * N <= P
  | S754_finite s m e =>
      s = sx /\ bounded 53 1024 m e = true
      /\ ((e = E /\ rounds_to N P (Z.pos m) /\ (-1074 < E -> 2 ^ 52 * P <= N))
          \/ (e = E + 1 /\ Z.pos m = 2 ^ 52 /\ rounds_to N P (2 ^ 53)))
  | S754_infinity s =>
      s = sx
      /\ ((972 <= E /\ 2 ^ 52 * P <= N) \/ (971 <= E /\ (2 ^ 54 - 1) * P <= 2 * N))
  | S754_nan => False
  end.
Proof.
  intros HD Hloc Hn E P.
  assert (Hq : 0 <= q).
  { destruct Hloc as [Hq _]. destruct l as [|[]]; exact Hq. }
  assert (HE : -1074 <= E) by (subst E; rewrite fexp_binary64; lia).
  assert (Hc : 0 < 2 ^ (E - e0)) by (apply pow2_pos; lia).
  assert (HP : 0 < P) by (subst P; nia).
  unfold binary64_round, binary_round_aux, shr_fexp. fold E.
  destruct (located_shr N D (shr_record_of_loc q l) e0 (E - e0) HD ltac:(lia) Hloc)
    as [He1 Hloc1].
  destruct (shr (shr_record_of_loc q l) e0 (E - e0)) as [mrs1 e1].
  cbn [fst snd] in He1, Hloc1. fold P in Hloc1.
  assert (He1' : e1 = E) by lia. clear He1. subst e1.
  pose proof (located_bounds N P mrs1 HP Hloc1) as Hb1.
  pose proof (located_bounds N D _ HD Hloc) as Hb0.
  replace (shr_m (shr_record_of_loc q l)) with q in Hb0
    by (destruct l as [|[]]; reflexivity).
  destruct Hloc1 as [Hm1 Hl1]. set (m1 := shr_m mrs1) in *.
  (* the mantissa has at most 53 bits *)
  assert (Hq2 : q + 1 <= 2 ^ Zdigits2 q).
  { destruct (Z.eq_dec q 0) as [-> | Hq0]; [cbn; lia|].
    pose proof (Zdigits2_bounds q ltac:(lia)). lia. }
  pose proof (Zdigits2_nonneg q) as Hdq.
  assert (Hm1_hi : m1 < 2 ^ 53).
  { destruct (Z.lt_ge_cases m1 (2 ^ 53)) as [|Hge]; [assumption|exfalso].
    assert (H1 : 2 ^ 53 * 2 ^ (E - e0) < 2 ^ Zdigits2 q) by nia.
    rewrite <- Z.pow_add_r in H1 by lia.
    apply pow2_lt_inv in H1; [|lia].
    subst E. rewrite fexp_binary64 in *. lia. }
  (* and exactly 53 above the smallest exponent *)
  assert (Hm1_lo : -1074 < E -> 2 ^ 52 <= m1).
  { intros HE1.
    assert (Hq0 : 0 < q).
    { destruct (Z.eq_dec q 0) as [-> | ]; [|lia].
      subst E. cbn [Zdigits2] in *. rewrite fexp_binary64 in *. lia. }
    pose proof (Zdigits2_bounds q Hq0) as [Hlo _].
    assert (HEq : E - e0 = Zdigits2 q - 53)
      by (subst E; rewrite fexp_binary64 in *; lia).
    assert (H1 : 2 ^ (Zdigits2 q - 1) < (m1 + 1) * 2 ^ (E - e0)) by nia.
    replace (Zdigits2 q - 1) with (52 + (E - e0)) in H1 by lia.
    rewrite Z.pow_add_r in H1 by lia. nia. }
  destruct (located_round N P mrs1 HP (conj Hm1 Hl1)) as (Hr & Hm2 & Hup).
  fold m1 in Hr, Hm2, Hup.
  set (m2 := round_nearest_even m1 (loc_of_shr_record mrs1)) in *.
  cbn [shr_record_of_loc].
  destruct (Z.eq_dec m2 0) as [Hz | Hnz].
  - (* the quotient rounds to zero *)
    rewrite Hz. rewrite Hz in Hr.
    pose proof (shr_zero E (fexp 53 1024 (Zdigits2 0 + E) - E)) as Hs.
    destruct (shr _ E _) as [mrs3 e3]. cbn [fst] in Hs. subst mrs3.
    cbn [shr_m]. destruct Hr as [Hr _].
    split; [reflexivity|]. split; lia.
  - destruct (Z.lt_ge_cases m2 (2 ^ 53)) as [Hlt | Hge].
    + (* no carry out of the 53 bits *)
      pose proof (Zdigits2_bounds m2 ltac:(lia)) as [Hd2lo Hd2hi].
      assert (Hd2 : Zdigits2 m2 <= 53).
      { assert (H1 : 2 ^ (Zdigits2 m2 - 1) < 2 ^ 53) by lia.
        apply pow2_lt_inv in H1; [lia|].
        pose proof (Zdigits2_nonneg m2).
        destruct (Z.eq_dec (Zdigits2 m2) 0) as [H0|]; [|lia].
        destruct m2; cbn in H0; lia. }
      assert (Hcanon : fexp 53 1024 (Zdigits2 m2 + E) = E).
      { rewrite fexp_binary64.
        destruct (Z.eq_dec E (-1074)) as [-> | HE1]; [lia|].
        assert (Hm2lo : 2 ^ 52 <= m2) by (specialize (Hm1_lo ltac:(lia)); lia).
        assert (H1 : 2 ^ 52 < 2 ^ Zdigits2 m2) by lia.
        apply pow2_lt_inv in H1; lia. }
      unfold shr. rewrite Hcanon, Z.sub_diag. cbn [shr_m].
      destruct m2 as [|p|p] eqn:Hp; [lia| |lia].
      destruct (Z.leb_spec E (1024 - 53)) as [Hle | Hgt].
      * split; [reflexivity|]. split.
        -- unfold bounded, canonical_mantissa.
           change (Z.pos (digits2_pos p)) with (Zdigits2 (Z.pos p)).
           rewrite Hcanon.
           apply andb_true_intro. split.
           ++ apply Z.eqb_eq. reflexivity.
           ++ apply Z.leb_le. lia.
        -- left. split; [reflexivity|]. split; [exact Hr|].
           intros HE1. specialize (Hm1_lo HE1). nia.
      * split; [reflexivity|]. left. split; [lia|].
        specialize (Hm1_lo ltac:(lia)). nia.
    + (* rounding up carried into a 54th bit *)
      assert (Hm2v : m2 = 2 ^ 53) by lia.
      rewrite Hm2v in *.
      change (Zdigits2 (2 ^ 53)) with 54.
      assert (Hn2 : fexp 53 1024 (54 + E) - E = 1)
        by (rewrite fexp_binary64; lia).
      rewrite Hn2. cbn [shr]. 
      change (SpecFloat.iter_pos shr_1 1 {| shr_m := 2 ^ 53; shr_r := false; shr_s := false |})
        with {| shr_m := 2 ^ 52; shr_r := false; shr_s := false |}.
      cbn [shr_m]. change (2 ^ 52) with (Z.pos 4503599627370496) at 1.
      cbv iota.
      destruct (Z.leb_spec (E + 1) (1024 - 53)) as [Hle | Hgt].
      * split; [reflexivity|]. split.
        -- unfold bounded, canonical_mantissa.
           change (Z.pos (digits2_pos 4503599627370496)) with 53.
           rewrite fexp_binary64.
           apply andb_true_intro. split.
           ++ apply Z.eqb_eq. lia.
           ++ apply Z.leb_le. lia.
        -- right. split; [reflexivity|]. split; [reflexivity|exact Hr].
      * split; [reflexivity|]. right. split; [lia|].
        assert (Hm1v : m1 = 2 ^ 53 - 1) by lia.
        specialize (Hup ltac:(lia)). rewrite Hm1v in Hup.
        replace (2 * (2 ^ 53 - 1) + 1) with (2 ^ 54 - 1) in Hup by reflexivity.
        exact Hup.
Qed.

Lemma div_core_located (A B : Z) :
  0 < A -> 0 < B ->
  let '(q, e0, l) := SFdiv_core_binary 53 1024 A 0 B 0 in
  -1074 <= e0 <= 0
  /\ located (A * 2 ^ 1074) (B * 2 ^ (e0 + 1074)) (shr_record_of_loc q l)
  /\ e0 <= fexp 53 1024 (Zdigits2 q + e0).
Proof.
  intros HA HB. unfold SFdiv_core_binary.
  set (e0 := Z.min _ _).
  assert (He0 : -1074 <= e0 <= 0) by (subst e0; rewrite fexp_binary64; lia).
  assert (He0' : e0 <= fexp 53 1024 (Zdigits2 A - Zdigits2 B)).
  { subst e0. replace (Zdigits2 A + 0 - (Zdigits2 B + 0))
      with (Zdigits2 A - Zdigits2 B) by lia. lia. }
  set (m' := match 0 - 0 - e0 with 0 => A | Z.pos _ => _ | Z.neg _ => 0 end).
  assert (Hm' : m' = A * 2 ^ (- e0)).
  { subst m'. destruct (0 - 0 - e0) as [|p|p] eqn:Hs; [| |lia].
    - replace (- e0) with 0 by lia. rewrite Z.pow_0_r. lia.
    - rewrite Z.shiftl_mul_pow2 by lia. f_equal. f_equal. lia. }
  clearbody m' e0.
  pose proof (Z_div_mod m' B ltac:(lia)) as Hdiv.
  destruct (Z.div_eucl m' B) as [q r]. destruct Hdiv as [Hdiv Hr].
  assert (Hs : 0 < 2 ^ (- e0)) by (apply pow2_pos; lia).
  assert (Hq : 0 <= q) by nia.
  split; [exact He0|]. split.
  - assert (HT : 0 < 2 ^ (e0 + 1074)) by (apply pow2_pos; lia).
    replace (A * 2 ^ 1074) with ((q * B + r) * 2 ^ (e0 + 1074)).
    + apply located_scale; [exact HT|]. now apply located_new_location.
    + replace (q * B + r) with m' by lia. rewrite Hm', <- Z.mul_assoc.
      rewrite <- Z.pow_add_r by lia. f_equal. f_equal. lia.
  - assert (Hq2 : q + 1 <= 2 ^ Zdigits2 q).
    { destruct (Z.eq_dec q 0) as [-> | Hq0]; [cbn; lia|].
      pose proof (Zdigits2_bounds q ltac:(lia)). lia. }
    pose proof (Zdigits2_bounds A HA) as [HdA _].
    pose proof (Zdigits2_bounds B HB) as [_ HdB].
    pose proof (Zdigits2_nonneg q). pose proof (Zdigits2_nonneg B).
    assert (HdA0 : 0 < Zdigits2 A) by (destruct A; cbn; lia).
    assert (H1 : 2 ^ (Zdigits2 A - 1) * 2 ^ (- e0) < 2 ^ Zdigits2 q * 2 ^ Zdigits2 B).
    { assert (H2 : m' < 2 ^ Zdigits2 q * B) by nia.
      assert (H3 : 2 ^ Zdigits2 q * B < 2 ^ Zdigits2 q * 2 ^ Zdigits2 B).
      { apply Z.mul_lt_mono_pos_l; [apply pow2_pos|]; lia. }
      assert (H4 : 2 ^ (Zdigits2 A - 1) * 2 ^ (- e0) <= m').
      { rewrite Hm'. apply Z.mul_le_mono_nonneg_r; lia. }
      lia. }
    rewrite <- !Z.pow_add_r in H1 by lia.
    apply pow2_lt_inv in H1; [|lia].
    rewrite fexp_binary64 in *. lia.
Qed.

(** What membership of binary64 says about a mantissa and its exponent. *)
Lemma bounded_inv (m : positive) (e : Z) :
  bounded 53 1024 m e = true ->
  -1074 <= e <= 971 /\ Z.pos m < 2 ^ 53 /\ (-1074 < e -> 2 ^ 52 <= Z.pos m).
Proof.
  unfold bounded, canonical_mantissa. intros H.
  apply andb_prop in H. destruct H as [Hc He].
  apply Z.leb_le in He. apply Z.eqb_eq in Hc.
  rewrite fexp_binary64 in Hc.
  pose proof (digits2_pos_bounds m) as [Hlo Hhi].
  split; [lia|]. split.
  - assert (Hd : Z.pos (digits2_pos m) <= 53) by lia.
    pose proof (Z.pow_le_mono_r 2 (Z.pos (digits2_pos m)) 53). lia.
  - intros He1. assert (Hd : Z.pos (digits2_pos m) = 53) by lia.
    rewrite Hd in Hlo. exact Hlo.
Qed.

(** The quotient of two positive ints, rounded: the outcome against the
    quotient itself, with numerator and floats scaled by [2 ^ 1074]. *)
Lemma rounded_quotient_positive (sx : bool) (A B : Z) :
  0 < A -> 0 < B ->
  let '(q, e0, l) := SFdiv_core_binary 53 1024 A 0 B 0 in
  let X := A * 2 ^ 1074 in
  match binary64_round sx q e0 l with
  | S754_zero s => s = sx /\ 2 * X <= B
  | S754_finite s m e =>
      s = sx /\ bounded 53 1024 m e = true
      /\ rounds_to X (2 ^ (e + 1074) * B) (Z.pos m)
      /\ (Z.pos m = 2 ^ 52 -> -1074 < e -> X < Z.pos m * (2 ^ (e + 1074) * B) ->
          4 * (Z.pos m * (2 ^ (e + 1074) * B) - X) <= 2 ^ (e + 1074) * B)
  | S754_infinity s => s = sx /\ (2 ^ 54 - 1) * 2 ^ 2044 * B <= X
  | S754_nan => False
  end.
Proof.
  intros HA HB. pose proof (div_core_located A B HA HB) as H.
  destruct (SFdiv_core_binary 53 1024 A 0 B 0) as [[q e0] l].
  destruct H as (He0 & Hloc & Hn). cbv zeta.
  assert (HT : 0 < 2 ^ (e0 + 1074)) by (apply pow2_pos; lia).
  pose proof (binary64_round_spec sx (A * 2 ^ 1074) (B * 2 ^ (e0 + 1074)) q e0 l
                ltac:(nia) Hloc Hn) as H.
  cbv zeta in H.
  set (E := fexp 53 1024 (Zdigits2 q + e0)) in *.
  assert (HE : -1074 <= E) by (subst E; rewrite fexp_binary64; lia).
  replace (2 ^ (E - e0) * (B * 2 ^ (e0 + 1074))) with (2 ^ (E + 1074) * B) in H.
  2:{ replace (E + 1074) with ((E - e0) + (e0 + 1074)) by lia.
      rewrite Z.pow_add_r by lia. ring. }
  set (X := A * 2 ^ 1074) in *.
  destruct (binary64_round sx q e0 l) as [s | s | | s m e].
  - destruct H as (Hs & HEv & H). split; [exact Hs|].
    rewrite HEv in H. change (2 ^ (-1074 + 1074)) with 1 in H. lia.
  - destruct H as [Hs [H | H]]; (split; [exact Hs|]).
    + destruct H as (HE1 & H).
      assert (H972 : 2 ^ 2046 <= 2 ^ (E + 1074)) by (apply Z.pow_le_mono_r; lia).
      assert (HX : 2 ^ 52 * (2 ^ 2046 * B) <= X) by nia.
      change (2 ^ 52) with 4503599627370496 in HX.
      change (2 ^ 54 - 1) with 18014398509481983.
      replace (2 ^ 2046) with (4 * 2 ^ 2044) in HX by reflexivity.
      pose proof (pow2_pos 2044 ltac:(lia)). nia.
    + destruct H as (HE1 & H).
      assert (H971 : 2 ^ 2045 <= 2 ^ (E + 1074)) by (apply Z.pow_le_mono_r; lia).
      assert (HX : (2 ^ 54 - 1) * (2 ^ 2045 * B) <= 2 * X).
      { change (2 ^ 54 - 1) with 18014398509481983 in *. nia. }
      replace (2 ^ 2045) with (2 * 2 ^ 2044) in HX by reflexivity.
      change (2 ^ 54 - 1) with 18014398509481983 in *.
      pose proof (pow2_pos 2044 ltac:(lia)). nia.
  - exact H.
  - destruct H as (Hs & Hbd & H). split; [exact Hs|]. split; [exact Hbd|].
    destruct H as [(-> & Hr & Hlo) | (-> & Hm & Hr)].
    + split; [exact Hr|]. intros Hm HE1 Hlt.
      specialize (Hlo HE1). rewrite Hm in Hlt. lia.
    + assert (HU : 2 ^ (E + 1 + 1074) * B = 2 * (2 ^ (E + 1074) * B)).
      { replace (E + 1 + 1074) with (1 + (E + 1074)) by lia.
        rewrite Z.pow_add_r by lia. change (2 ^ 1) with 2. ring. }
      rewrite HU, Hm. set (P := 2 ^ (E + 1074) * B) in *.
      assert (HP : 0 < P).
      { subst P. pose proof (pow2_pos (E + 1074) ltac:(lia)). nia. }
      destruct Hr as [Hr _]. 
      replace (2 ^ 53 * P) with (2 ^ 52 * (2 * P)) in Hr
        by (change (2 ^ 53) with (2 ^ 52 * 2); ring).
      set (F := 2 ^ 52 * (2 * P)) in *.
      split; [split|]; try lia.
Qed.

Lemma nearest_on_grid (X B : Z) (m : positive) (e : Z) :
  0 < X -> 0 < B ->
  bounded 53 1024 m e = true ->
  rounds_to X (2 ^ (e + 1074) * B) (Z.pos m) ->
  (Z.pos m = 2 ^ 52 -> -1074 < e -> X < Z.pos m * (2 ^ (e + 1074) * B) ->
   4 * (Z.pos m * (2 ^ (e + 1074) * B) - X) <= 2 ^ (e + 1074) * B) ->
  forall g, binary64 g ->
  let F := Z.pos m * 2 ^ (e + 1074) in
  Z.abs (F * B - X) <= Z.abs (scaled_value g * B - X)
  /\ (Z.abs (F * B - X) = Z.abs (scaled_value g * B - X) ->
      scaled_value g = F \/ Z.even (Z.pos m) = true).
Proof.
  intros HX HB Hbd [Hr Htie] Href g [Hfin Hval] F.
  apply bounded_inv in Hbd. destruct Hbd as (He & Hm & Hnorm).
  set (W := 2 ^ (e + 1074)) in *.
  assert (HW : 0 < W) by (apply pow2_pos; lia).
  set (U := W * B) in *.
  assert (HU : 0 < U) by (subst U; nia).
  assert (HFB : F * B = Z.pos m * U) by (subst F U; ring).
  rewrite HFB. set (FB := Z.pos m * U) in *.
  replace (X - FB) with (- (FB - X)) in Hr, Htie by ring.
  rewrite Z.abs_opp in Hr, Htie.
  assert (HFU : U <= FB) by (subst FB; nia).
  (* a float at least one unit in the last place away is no nearer *)
  assert (Hfar : forall GB, GB <= FB - U \/ FB + U <= GB ->
            Z.abs (FB - X) <= Z.abs (GB - X)
            /\ (Z.abs (FB - X) = Z.abs (GB - X) -> Z.even (Z.pos m) = true)).
  { intros GB HGB. split; [lia|]. intros Heq. apply Htie. lia. }
  destruct g as [sg | sg | | sg mg eg]; try discriminate Hfin.
  - (* zero *)
    cbn [scaled_value]. rewrite Z.mul_0_l.
    destruct (Hfar 0) as [H1 H2]; [|split; [exact H1|auto]].
    destruct (Z.lt_ge_cases X FB); lia.
  - cbn [valid_binary] in Hval. apply bounded_inv in Hval.
    destruct Hval as (Heg & Hmg & _).
    set (Wg := 2 ^ (eg + 1074)).
    assert (HWg : 0 < Wg) by (apply pow2_pos; lia).
    destruct sg.
    + (* a negative float *)
      cbn [scaled_value]. fold Wg.
      assert (HG : Z.neg mg * Wg * B < 0) by nia.
      split; [lia|]. intros Heq. lia.
    + cbn [scaled_value]. fold Wg.
      destruct (Z.le_gt_cases (e + 1074) (eg + 1074)) as [Hk | Hk].
      * (* an exponent at least that of the result *)
        assert (HWg' : Wg = 2 ^ (eg - e) * W).
        { subst Wg W. rewrite <- Z.pow_add_r by lia. f_equal. lia. }
        set (t := Z.pos mg * 2 ^ (eg - e)).
        assert (HGB : Z.pos mg * Wg * B = t * U) by (subst t U; rewrite HWg'; ring).
        rewrite HGB.
        destruct (Z.lt_trichotomy t (Z.pos m)) as [Ht | [Ht | Ht]].
        -- destruct (Hfar (t * U)) as [H1 H2]; [left; subst FB; nia|].
           split; [exact H1|auto].
        -- split; [subst FB; rewrite Ht; lia|]. intros _. left.
           subst F. rewrite HWg'. fold t in Ht. subst t. rewrite <- Ht. ring.
        -- destruct (Hfar (t * U)) as [H1 H2]; [right; subst FB; nia|].
           split; [exact H1|auto].
      * (* a smaller exponent: the float lies a binade below *)
        assert (He1 : -1074 < e) by lia. specialize (Hnorm He1).
        set (h := 2 ^ (e + 1074 - 1)).
        assert (Hh : 0 < h) by (apply pow2_pos; lia).
        assert (HWh : W = 2 * h).
        { subst W h. replace (e + 1074) with (1 + (e + 1074 - 1)) at 1 by lia.
          rewrite Z.pow_add_r by lia. reflexivity. }
        assert (HWgh : Wg <= h) by (apply Z.pow_le_mono_r; lia).
        assert (HG : Z.pos mg * Wg <= (2 ^ 53 - 1) * h) by nia.
        set (GB := Z.pos mg * Wg * B).
        assert (HGB : GB <= (2 ^ 53 - 1) * (h * B)) by (subst GB; nia).
        assert (HUh : U = 2 * (h * B)) by (subst U; rewrite HWh; ring).
        set (hB := h * B) in *. assert (HhB : 0 < hB) by (subst hB; nia).
        destruct (Z.eq_dec (Z.pos m) (2 ^ 52)) as [Hm52 | Hm52].
        -- assert (HFBv : FB = 2 ^ 53 * hB).
           { subst FB. rewrite Hm52, HUh. change (2 ^ 53) with (2 ^ 52 * 2). ring. }
           assert (Hev : Z.even (Z.pos m) = true) by (rewrite Hm52; reflexivity).
           split; [|auto].
           destruct (Z.lt_ge_cases X FB) as [Hlt | Hge].
           ++ specialize (Href Hm52 He1 Hlt).
              change (2 ^ 53) with 9007199254740992 in *. lia.
           ++ change (2 ^ 53) with 9007199254740992 in *. lia.
        -- assert (HFBv : (2 ^ 53 + 2) * hB <= FB).
           { subst FB. rewrite HUh.
             change (2 ^ 53 + 2) with ((2 ^ 52 + 1) * 2).
             assert (2 ^ 52 + 1 <= Z.pos m) by lia. nia. }
           destruct (Hfar GB) as [H1 H2]; [|split; [exact H1|auto]].
           left. change (2 ^ 53) with 9007199254740992 in *. lia.
Qed.

Lemma inject_Z_pow2 (k : Z) : 0 <= k -> (inject_Z (2 ^ k) == 2 ^ k)%Q.
Proof. intros Hk. now rewrite Zpower_Qpower. Qed.

Lemma float_value_scaled (f : spec_float) :
  binary64 f -> (float_value f * inject_Z (2 ^ 1074) == inject_Z (scaled_value f))%Q.
Proof.
  intros [Hfin Hval]. destruct f as [s | s | | s m e]; try discriminate Hfin.
  - cbn [float_value scaled_value]. ring.
  - cbn [valid_binary] in Hval. apply bounded_inv in Hval.
    destruct Hval as (He & _).
    cbn [float_value scaled_value].
    rewrite inject_Z_mult, !inject_Z_pow2 by lia.
    rewrite Qpower_plus by discriminate. ring.
Qed.

Lemma Qabs_inject_Z (z : Z) : Qabs (inject_Z z) = inject_Z (Z.abs z).
Proof. reflexivity. Qed.

Lemma inject_Z_nonzero (b : Z) : b <> 0 -> ~ (inject_Z b == 0)%Q.
Proof. intros Hb H. apply Hb. unfold Qeq in H. cbn in H. lia. Qed.

(** The distance from a float to the quotient, as an integer: both are
    multiplied by [2 ^ 1074 * |b|]. *)
Lemma distance_scaled (a b : Z) (f : spec_float) :
  b <> 0 -> binary64 f ->
  (Qabs (float_value f - exact_quotient a b) * inject_Z (2 ^ 1074 * Z.abs b)
   == inject_Z (Z.abs (scaled_value f * b - a * 2 ^ 1074)))%Q.
Proof.
  intros Hb Hf. pose proof (inject_Z_nonzero b Hb) as Hbq.
  assert (HT : 0 < 2 ^ 1074) by (apply pow2_pos; lia).
  replace (2 ^ 1074 * Z.abs b) with (Z.abs (2 ^ 1074 * b))
    by (rewrite Z.abs_mul; f_equal; lia).
  rewrite <- !Qabs_inject_Z, <- Qabs_Qmult. apply Qabs_wd.
  unfold Z.sub. rewrite inject_Z_plus, inject_Z_opp, !inject_Z_mult.
  rewrite <- (float_value_scaled f Hf).
  unfold exact_quotient. field. exact Hbq.
Qed.

Lemma scale_positive (b : Z) : b <> 0 -> (0 < inject_Z (2 ^ 1074 * Z.abs b))%Q.
Proof.
  intros Hb. change 0%Q with (inject_Z 0). rewrite <- Zlt_Qlt.
  pose proof (pow2_pos 1074 ltac:(lia)). nia.
Qed.

Lemma nearer_scaled (a b : Z) (f g : spec_float) :
  b <> 0 -> binary64 f -> binary64 g ->
  ((Qabs (float_value f - exact_quotient a b)
    <= Qabs (float_value g - exact_quotient a b))%Q
   <-> Z.abs (scaled_value f * b - a * 2 ^ 1074)
       <= Z.abs (scaled_value g * b - a * 2 ^ 1074))
  /\ ((Qabs (float_value f - exact_quotient a b)
       == Qabs (float_value g - exact_quotient a b))%Q
      <-> Z.abs (scaled_value f * b - a * 2 ^ 1074)
          = Z.abs (scaled_value g * b - a * 2 ^ 1074)).
Proof.
  intros Hb Hf Hg. pose proof (scale_positive b Hb) as Hc.
  split.
  - rewrite <- (Qmult_le_r _ _ _ Hc), !distance_scaled by assumption.
    now rewrite <- Zle_Qle.
  - rewrite <- (Qmult_inj_r _ _ (inject_Z (2 ^ 1074 * Z.abs b))), !distance_scaled
      by (try assumption; intros H; rewrite H in Hc; discriminate).
    split; [apply inject_Z_injective | intros ->; reflexivity].
Qed.

Lemma float_value_eq (f g : spec_float) :
  binary64 f -> binary64 g ->
  scaled_value g = scaled_value f -> (float_value g == float_value f)%Q.
Proof.
  intros Hf Hg H.
  assert (HT : (0 < inject_Z (2 ^ 1074))%Q)
    by (change 0%Q with (inject_Z 0); rewrite <- Zlt_Qlt; apply pow2_pos; lia).
  apply (Qmult_inj_r _ _ (inject_Z (2 ^ 1074))).
  - intros H0. rewrite H0 in HT. discriminate.
  - now rewrite !float_value_scaled, H.
Qed.

Lemma scaled_value_opp (g : spec_float) : scaled_value (SFopp g) = - scaled_value g.
Proof.
  destruct g as [s | s | | s m e]; try reflexivity.
  cbn [SFopp scaled_value]. destruct s; cbn [negb]; rewrite <- ?Pos2Z.opp_pos; ring.
Qed.

Lemma binary64_opp (g : spec_float) : binary64 g -> binary64 (SFopp g).
Proof. intros [H1 H2]. destruct g; split; assumption. Qed.

(** The distance of a signed value from [a / b] is that of its absolute
    value from [|a| / |b|], when the sign is that of the quotient. *)
Lemma signed_distance (a b S T : Z) :
  a <> 0 -> b <> 0 ->
  Z.abs ((if xorb (a <? 0) (b <? 0) then - S else S) * b - a * T)
  = Z.abs (S * Z.abs b - Z.abs a * T).
Proof.
  intros Ha Hb.
  destruct (Z.ltb_spec a 0), (Z.ltb_spec b 0); cbn [xorb];
    rewrite ?(Z.abs_neq a), ?(Z.abs_eq a), ?(Z.abs_neq b), ?(Z.abs_eq b) by lia; lia.
Qed.

(** The rounded quotient against the quotient, for ints of any sign. *)
Lemma rounded_quotient_nearest (a b : Z) :
  a <> 0 -> b <> 0 ->
  match rounded_quotient a b with
  | S754_infinity _ => (2 ^ 1024 - 2 ^ 970) * Z.abs b <= Z.abs a
  | S754_nan => False
  | f =>
      binary64 f
      /\ Z.abs a < (2 ^ 1024 - 2 ^ 970) * Z.abs b
      /\ forall g, binary64 g ->
           Z.abs (scaled_value f * b - a * 2 ^ 1074)
           <= Z.abs (scaled_value g * b - a * 2 ^ 1074)
           /\ (Z.abs (scaled_value f * b - a * 2 ^ 1074)
               = Z.abs (scaled_value g * b - a * 2 ^ 1074) ->
               scaled_value g = scaled_value f \/ even_mantissa f = true)
  end.
Proof.
  intros Ha Hb. unfold rounded_quotient.
  pose proof (rounded_quotient_positive (xorb (a <? 0) (b <? 0)) (Z.abs a) (Z.abs b)
                ltac:(lia) ltac:(lia)) as H.
  destruct (SFdiv_core_binary 53 1024 (Z.abs a) 0 (Z.abs b) 0) as [[q e0] l].
  cbv zeta in H.
  set (sx := xorb (a <? 0) (b <? 0)) in *.
  set (T := 2 ^ 1074) in *.
  assert (HT : 0 < T) by (apply pow2_pos; lia).
  set (thr := 2 ^ 1024 - 2 ^ 970).
  assert (Hthr : 1 <= thr) by (subst thr; apply Z.leb_le; reflexivity).
  assert (Hbound : (2 ^ 54 - 1) * 2 ^ 2044 = thr * T) by reflexivity.
  assert (Hswap : forall g, binary64 g ->
            exists g', binary64 g'
              /\ scaled_value g = (if sx then - scaled_value g' else scaled_value g')).
  { intros g Hg. destruct sx.
    - exists (SFopp g). split; [now apply binary64_opp|].
      rewrite scaled_value_opp. lia.
    - exists g. split; [assumption|reflexivity]. }
  destruct (binary64_round sx q e0 l) as [s | s | | s m e].
  - (* a zero *)
    destruct H as (-> & H).
    split; [split; reflexivity|]. split; [nia|].
    intros g Hg. cbn [scaled_value even_mantissa]. split; [|auto].
    destruct g as [sg | sg | | sg mg eg]; try (destruct Hg as [Hg _]; discriminate Hg).
    + cbn [scaled_value]. lia.
    + destruct Hg as [_ Hg]. cbn [valid_binary] in Hg.
      apply bounded_inv in Hg. destruct Hg as (Heg & _).
      cbn [scaled_value].
      pose proof (pow2_pos (eg + 1074) ltac:(lia)) as HW.
      set (S := (if sg then Z.neg mg else Z.pos mg) * 2 ^ (eg + 1074)).
      assert (HS : 1 <= Z.abs S) by (subst S; destruct sg; nia).
      assert (HSb : Z.abs b <= Z.abs (S * b)) by (rewrite Z.abs_mul; nia).
      assert (HaT : Z.abs (a * T) = Z.abs a * T) by (rewrite Z.abs_mul; lia).
      lia.
  - (* past the largest float *)
    destruct H as (_ & H). rewrite Hbound in H. nia.
  - exact H.
  - (* a finite float *)
    destruct H as (-> & Hbd & Hr & Href).
    pose proof (bounded_inv m e Hbd) as (He & Hm & Hnorm).
    set (W := 2 ^ (e + 1074)) in *.
    assert (HW : 0 < W) by (apply pow2_pos; lia).
    split; [split; [reflexivity|exact Hbd]|]. split.
    + (* below the bound: a tie with the largest float goes up *)
      destruct Hr as [Hr Htie].
      assert (HW' : W <= 2 ^ 2045) by (apply Z.pow_le_mono_r; lia).
      set (U := W * Z.abs b) in *.
      assert (HU : 0 < U) by (subst U; nia).
      set (X := Z.abs a * T) in *.
      apply (Z.mul_lt_mono_pos_r T); [exact HT|]. fold X.
      replace (thr * Z.abs b * T) with ((2 ^ 54 - 1) * (2 ^ 2044 * Z.abs b))
        by (rewrite <- Z.mul_assoc, (Z.mul_comm (Z.abs b)), !Z.mul_assoc, Hbound; ring).
      set (V := 2 ^ 2044 * Z.abs b).
      assert (HUV : U <= 2 * V).
      { subst U V. replace (2 ^ 2045) with (2 * 2 ^ 2044) in HW' by reflexivity. nia. }
      assert (HV : 0 < V) by (subst V; pose proof (pow2_pos 2044 ltac:(lia)); nia).
      change (2 ^ 53) with 9007199254740992 in Hm.
      change (2 ^ 54 - 1) with 18014398509481983.
      destruct (Z.eq_dec (Z.pos m) 9007199254740991) as [Hmax | Hmax].
      * destruct (Z.eq_dec (2 * Z.abs (X - Z.pos m * U)) U) as [Heq | Hne].
        -- specialize (Htie Heq). rewrite Hmax in Htie. discriminate Htie.
        -- rewrite Hmax in *. lia.
      * assert (Z.pos m * U <= 9007199254740990 * U) by nia. lia.
    + intros g Hg. destruct (Hswap g Hg) as (g' & Hg' & ->).
      pose proof (nearest_on_grid (Z.abs a * T) (Z.abs b) m e
                    ltac:(nia) ltac:(lia) Hbd Hr Href g' Hg') as Hnear.
      cbv zeta in Hnear. fold W in Hnear. cbn [scaled_value even_mantissa]. fold W.
      replace ((if sx then Z.neg m else Z.pos m) * W)
        with (if sx then - (Z.pos m * W) else Z.pos m * W)
        by (destruct sx; rewrite <- ?Pos2Z.opp_pos; ring).
      subst sx. rewrite !signed_distance by assumption.
      destruct Hnear as [H1 H2]. split; [exact H1|].
      intros Heq. destruct (H2 Heq) as [H3 | H3]; [left|right; exact H3].
      rewrite H3. reflexivity.
Qed.

Lemma Qabs_quotient (a b : Z) :
  b <> 0 -> (Qabs (exact_quotient a b) * inject_Z (Z.abs b) == inject_Z (Z.abs a))%Q.
Proof.
  intros Hb. pose proof (inject_Z_nonzero b Hb) as Hbq.
  rewrite <- !Qabs_inject_Z, <- Qabs_Qmult. apply Qabs_wd.
  unfold exact_quotient. field. exact Hbq.
Qed.

Lemma overflow_bound_scaled_Q (a b : Z) :
  b <> 0 ->
  ((Qabs (exact_quotient a b) < float_overflow_bound)%Q
   <-> Z.abs a < (2 ^ 1024 - 2 ^ 970) * Z.abs b)
  /\ ((float_overflow_bound <= Qabs (exact_quotient a b))%Q
      <-> (2 ^ 1024 - 2 ^ 970) * Z.abs b <= Z.abs a).
Proof.
  intros Hb.
  assert (Hc : (0 < inject_Z (Z.abs b))%Q)
    by (change 0%Q with (inject_Z 0); rewrite <- Zlt_Qlt; lia).
  unfold float_overflow_bound. split.
  - rewrite <- (Qmult_lt_r _ _ _ Hc), Qabs_quotient, <- inject_Z_mult by assumption.
    now rewrite <- Zlt_Qlt.
  - rewrite <- (Qmult_le_r _ _ _ Hc), Qabs_quotient, <- inject_Z_mult by assumption.
    now rewrite <- Zle_Qle.
Qed.

Lemma rounded_quotient_nearest_float (a b : Z) (f : spec_float) :
  b <> 0 -> binary64 f ->
  (forall g, binary64 g ->
     Z.abs (scaled_value f * b - a * 2 ^ 1074)
     <= Z.abs (scaled_value g * b - a * 2 ^ 1074)
     /\ (Z.abs (scaled_value f * b - a * 2 ^ 1074)
         = Z.abs (scaled_value g * b - a * 2 ^ 1074) ->
         scaled_value g = scaled_value f \/ even_mantissa f = true)) ->
  nearest_float (exact_quotient a b) f.
Proof.
  intros Hb Hf H. split; [exact Hf|]. intros g Hg.
  destruct (nearer_scaled a b f g Hb Hf Hg) as [Hle Heq].
  destruct (H g Hg) as [H1 H2]. split.
  - apply Hle, H1.
  - intros He. apply Heq in He. destruct (H2 He) as [H3 | H3]; [left|right; exact H3].
    now apply float_value_eq.
Qed.

(** C10, amended.  [divide_numbers] validates nothing.  For ints [a] and
    [b]: when [b = 0] it raises [ZeroDivisionError], whatever [a] is.  When
    [b <> 0] it never raises [ZeroDivisionError]: if the quotient [a / b]
    is below [2 ^ 1024 - 2 ^ 970] in absolute value, it returns the binary64
    number nearest to [a / b], the one with the even mantissa when two are
    equally near; otherwise the quotient rounds past the largest float and
    it raises [OverflowError]. *)
Theorem divide_numbers_no_validation (a b : Z) :
  (b = 0 ->
   divide_numbers a b = Raise (Exn ZeroDivisionError "division by zero"))
  /\ (b <> 0 ->
      ((Qabs (exact_quotient a b) < float_overflow_bound)%Q
       /\ exists f, divide_numbers a b = Return f
                    /\ nearest_float (exact_quotient a b) f)
      \/ ((float_overflow_bound <= Qabs (exact_quotient a b))%Q
          /\ divide_numbers a b
             = Raise (Exn OverflowError "integer division result too large for a float"))).
Proof.
  unfold divide_numbers, int_true_divide. split.
  - intros ->. reflexivity.
  - intros Hb. destruct (Z.eqb_spec b 0) as [? | _]; [contradiction |].
    destruct (overflow_bound_scaled_Q a b Hb) as [Hlt Hge].
    destruct (Z.eqb_spec a 0) as [-> | Ha].
    + left. split.
      * apply Hlt. cbn [Z.abs]. 
        assert (0 < 2 ^ 1024 - 2 ^ 970) by (apply Z.ltb_lt; reflexivity). nia.
      * exists (S754_zero (b <? 0)). split; [reflexivity|].
        apply rounded_quotient_nearest_float; [assumption|split; reflexivity|].
        intros g Hg. cbn [scaled_value even_mantissa]. split; [lia|auto].
    + pose proof (rounded_quotient_nearest a b Ha Hb) as H.
      destruct (rounded_quotient a b) as [s | s | | s m e]; [| |contradiction|].
      * destruct H as (Hf & Hbelow & H). left. split; [now apply Hlt|].
        eexists. split; [reflexivity|]. now apply rounded_quotient_nearest_float.
      * right. split; [now apply Hge|reflexivity].
      * destruct H as (Hf & Hbelow & H). left. split; [now apply Hlt|].
        eexists. split; [reflexivity|]. now apply rounded_quotient_nearest_float.
Qed.

Lemma divide_numbers_no_validation_witness :
  divide_numbers 5 0 = Raise (Exn ZeroDivisionError "division by zero")
  /\ (((Qabs (exact_quotient 1 3) < float_overflow_bound)%Q
       /\ exists f, divide_numbers 1 3 = Return f
                    /\ nearest_float (exact_quotient 1 3) f)
      \/ ((float_overflow_bound <= Qabs (exact_quotient 1 3))%Q
          /\ divide_numbers 1 3
             = Raise (Exn OverflowError "integer division result too large for a float"))).
Proof.
  split.
  - apply (proj1 (divide_numbers_no_validation 5 0)). reflexivity.
  - apply (proj2 (divide_numbers_no_validation 1 3)). discriminate.
Defined.

(** ** [add_item] and its default list *)

Lemma add_each_default (xs : list pyval) :
  forall (w : world) (ys : list pyval),
    w_heap w !! w_add_item_defaults w = Some ys ->
    w_add_item_defaults (add_each xs w) = w_add_item_defaults w
    /\ w_heap (add_each xs w) !! w_add_item_defaults w = Some (ys ++ xs).
Proof.
  induction xs as [|x xs IH]; intros w ys Hys.
  - simpl. now rewrite app_nil_r.
  - change (add_each (x :: xs) w) with (add_each xs (snd (add_item x None w))).
    destruct (IH (snd (add_item x None w)) (ys ++ [x])) as [Hd Hh].
    + simpl. now rewrite lookup_alter_eq, Hys.
    + assert (E : w_add_item_defaults (snd (add_item x None w)) = w_add_item_defaults w)
        by reflexivity.
      rewrite E in Hd, Hh. rewrite Hd, Hh, <- app_assoc. split; reflexivity.
Qed.

(** C8.  The list of [add_item]'s default is one object, shared by all
    calls that leave [items] out.  After the module is loaded, let [xs] be
    the items of the first [k - 1] such calls and [x] the item of the
    [k]-th: that call returns the default list, which then holds
    [xs ++ [x]], all [k] items in call order. *)
Theorem add_item_default_is_shared (w0 : world) (xs : list pyval) (x : pyval) :
  exists w',
    add_item x None (add_each xs (snd (import_module w0)))
    = (Return (w_add_item_defaults (snd (import_module w0))), w')
    /\ w_heap w' !! w_add_item_defaults (snd (import_module w0)) = Some (xs ++ [x])
    /\ length (xs ++ [x]) = S (length xs).
Proof.
  set (w := snd (import_module w0)).
  assert (Hw : w_heap w !! w_add_item_defaults w = Some []).
  { subst w. simpl. apply lookup_insert_eq. }
  destruct (add_each_default xs w [] Hw) as [Hd Hh]. simpl in Hh.
  eexists. split; [| split].
  - unfold add_item. simpl. rewrite Hd. reflexivity.
  - simpl. now rewrite lookup_alter_eq, Hh.
  - rewrite length_app. simpl. lia.
Qed.

(** ** What the functions leave alone *)

Create HintDb blind.
Create HintDb cwd.

Ltac run_cases :=
  repeat match goal with
         | |- context [match ?x with _ => _ end] => destruct x eqn:?
         end.

Lemma blind_ret {A} (a : A) : globals_blind (m_ret a).
Proof. intros u n w. reflexivity. Qed.

Lemma blind_raise {A} (e : exn) : globals_blind (@m_raise A e).
Proof. intros u n w. reflexivity. Qed.

Lemma blind_lift {A} (r : result A) : globals_blind (m_lift r).
Proof. intros u n w. reflexivity. Qed.

Lemma blind_bind {A B} (m : M A) (k : A -> M B) :
  globals_blind m -> (forall a, globals_blind (k a)) -> globals_blind (m_bind m k).
Proof.
  intros Hm Hk u n w. unfold m_bind. rewrite Hm.
  destruct (m w) as [[a | e] w']; simpl; [apply Hk | reflexivity].
Qed.

Lemma blind_map {A B} (f : A -> B) (m : M A) :
  globals_blind m -> globals_blind (m_map f m).
Proof.
  intros Hm u n w. unfold m_map. rewrite Hm.
  destruct (m w) as [r w']; reflexivity.
Qed.

Lemma blind_try {A} (body : M A) (handler : exn -> M A) :
  globals_blind body -> (forall e, globals_blind (handler e)) ->
  globals_blind (m_try_Exception body handler).
Proof.
  intros Hb Hh u n w. unfold m_try_Exception. rewrite Hb.
  destruct (body w) as [[a | e] w']; simpl; [reflexivity |].
  destruct (is_Exception (exn_cls e)); [apply Hh | reflexivity].
Qed.

Lemma blind_print (v : pyval) : globals_blind (py_print v).
Proof. intros u n w. reflexivity. Qed.

Lemma blind_open (path : string) (m : mode) : globals_blind (py_open path m).
Proof.
  intros u n w. unfold py_open, new_handle. cbn [with_globals set_globals w_fs w_open].
  run_cases; reflexivity.
Qed.

Lemma blind_read (fd : nat) : globals_blind (py_read fd).
Proof.
  intros u n w. unfold py_read. cbn [with_globals set_globals w_fs w_open].
  run_cases; reflexivity.
Qed.

Lemma blind_write (fd : nat) (s : string) : globals_blind (py_write fd s).
Proof.
  intros u n w. unfold py_write. cbn [with_globals set_globals w_fs w_open].
  run_cases; reflexivity.
Qed.

Lemma blind_close (fd : nat) : globals_blind (py_close fd).
Proof.
  intros u n w. unfold py_close. cbn [with_globals set_globals w_fs w_open].
  run_cases; reflexivity.
Qed.

Lemma blind_with {A} (opening : M nat) (body : nat -> M A) :
  globals_blind opening -> (forall f, globals_blind (body f)) ->
  globals_blind (m_with opening body).
Proof.
  intros Ho Hb u n w. unfold m_with. rewrite Ho.
  destruct (opening w) as [[f | e] w1]; simpl; [| reflexivity].
  rewrite Hb. destruct (body f w1) as [r w2]. simpl.
  rewrite blind_close. destruct (py_close f w2) as [[[] | e] w3]; reflexivity.
Qed.

Lemma blind_add_item (item : pyval) (items : option nat) :
  globals_blind (add_item item items).
Proof. intros u n w. reflexivity. Qed.

Lemma blind_get_config_path : globals_blind get_config_path.
Proof. intros u n w. reflexivity. Qed.

#[local] Hint Resolve blind_ret blind_raise blind_lift blind_bind blind_map blind_try
  blind_print blind_open blind_read blind_write blind_close blind_with blind_add_item
  blind_get_config_path : blind.

Lemma blind_run (c : call) : globals_blind (run c).
Proof.
  destruct c; unfold run, read_file, write_config, copy_file, load_json, json_load;
    auto 12 with blind.
  apply blind_map, blind_try; [| auto 6 with blind].
  apply blind_with; [auto with blind |]. intros f.
  apply blind_bind; [auto with blind |]. intros text.
  destruct (json_loads text); auto with blind.
Qed.

Lemma with_globals_same (w : world) : with_globals (w_user_data w) (w_counter w) w = w.
Proof. now destruct w. Qed.

Lemma cwd_ret {A} (a : A) : keeps_cwd (m_ret a).
Proof. intros w. reflexivity. Qed.

Lemma cwd_raise {A} (e : exn) : keeps_cwd (@m_raise A e).
Proof. intros w. reflexivity. Qed.

Lemma cwd_lift {A} (r : result A) : keeps_cwd (m_lift r).
Proof. intros w. reflexivity. Qed.

Lemma cwd_bind {A B} (m : M A) (k : A -> M B) :
  keeps_cwd m -> (forall a, keeps_cwd (k a)) -> keeps_cwd (m_bind m k).
Proof.
  intros Hm Hk w. unfold m_bind. specialize (Hm w).
  destruct (m w) as [[a | e] w']; simpl in *; [now rewrite Hk | assumption].
Qed.

Lemma cwd_map {A B} (f : A -> B) (m : M A) : keeps_cwd m -> keeps_cwd (m_map f m).
Proof.
  intros Hm w. unfold m_map. specialize (Hm w). now destruct (m w).
Qed.

Lemma cwd_try {A} (body : M A) (handler : exn -> M A) :
  keeps_cwd body -> (forall e, keeps_cwd (handler e)) ->
  keeps_cwd (m_try_Exception body handler).
Proof.
  intros Hb Hh w. unfold m_try_Exception. specialize (Hb w).
  destruct (body w) as [[a | e] w']; simpl in *; [assumption |].
  destruct (is_Exception (exn_cls e)); [now rewrite Hh | assumption].
Qed.

Lemma cwd_print (v : pyval) : keeps_cwd (py_print v).
Proof. intros w. reflexivity. Qed.

Lemma cwd_open (path : string) (m : mode) : keeps_cwd (py_open path m).
Proof. intros w. unfold py_open, new_handle. run_cases; reflexivity. Qed.

Lemma cwd_read (fd : nat) : keeps_cwd (py_read fd).
Proof. intros w. unfold py_read. run_cases; reflexivity. Qed.

Lemma cwd_write (fd : nat) (s : string) : keeps_cwd (py_write fd s).
Proof. intros w. unfold py_write. run_cases; reflexivity. Qed.

Lemma cwd_close (fd : nat) : keeps_cwd (py_close fd).
Proof. intros w. unfold py_close. run_cases; reflexivity. Qed.

Lemma cwd_with {A} (opening : M nat) (body : nat -> M A) :
  keeps_cwd opening -> (forall f, keeps_cwd (body f)) -> keeps_cwd (m_with opening body).
Proof.
  intros Ho Hb w. unfold m_with. specialize (Ho w).
  destruct (opening w) as [[f | e] w1]; simpl in *; [| assumption].
  specialize (Hb f w1). destruct (body f w1) as [r w2]. simpl in Hb.
  pose proof (cwd_close f w2) as Hc.
  destruct (py_close f w2) as [[[] | e] w3]; simpl in *; congruence.
Qed.

Lemma cwd_add_item (item : pyval) (items : option nat) : keeps_cwd (add_item item items).
Proof. intros w. reflexivity. Qed.

Lemma cwd_get_config_path : keeps_cwd get_config_path.
Proof. intros w. reflexivity. Qed.

#[local] Hint Resolve cwd_ret cwd_raise cwd_lift cwd_bind cwd_map cwd_try cwd_print
  cwd_open cwd_read cwd_write cwd_close cwd_with cwd_add_item cwd_get_config_path : cwd.

Lemma cwd_run (c : call) : keeps_cwd (run c).
Proof.
  destruct c; unfold run, read_file, write_config, copy_file, load_json, json_load;
    auto 12 with cwd.
  apply cwd_map, cwd_try; [| auto 6 with cwd].
  apply cwd_with; [auto with cwd |]. intros f.
  apply cwd_bind; [auto with cwd |]. intros text.
  destruct (json_loads text); auto with cwd.
Qed.

Lemma cwd_run_calls (cs : list call) (w : world) : w_cwd (run_calls cs w) = w_cwd w.
Proof.
  revert w. induction cs as [|c cs IH]; intros w; [reflexivity |].
  change (run_calls (c :: cs) w) with (run_calls cs (snd (run c w))).
  now rewrite IH, cwd_run.
Qed.

Lemma rmap_deref {A} (g : A -> retval) (r : result A) (w : world) :
  (forall a, deref w (g a) = g a) -> rmap (deref w) (rmap g r) = rmap g r.
Proof. intros Hg. destruct r; simpl; [now rewrite Hg | reflexivity]. Qed.

(** A call that keeps no state gives a result fixed by its arguments and
    the working directory, and leaves the state as it is. *)
Lemma stateless_run (c : call) :
  keeps_no_state c = true ->
  exists f : string -> result retval,
    (forall w, run c w = (f (w_cwd w), w))
    /\ (forall d w, rmap (deref w) (f d) = f d).
Proof.
  destruct c; intros Hc; try discriminate Hc; unfold run.
  all: try (eexists (fun _ => Return _); split; intros; reflexivity).
  all: try (eexists (fun _ => rmap _ _); split; [intros; reflexivity |];
            intros d w; apply rmap_deref; reflexivity).
  eexists (fun d => Return (R_val (VStr (d +:+ "/config/" +:+ "settings.json")))).
  split; intros; reflexivity.
Qed.

(** ** Results and earlier calls *)

(** C3, amended.  Leaving aside [add_item] and the four functions that go
    through the file system ([read_file], [write_config], [copy_file],
    [load_json]), a call returns the same result (or raises the same
    exception) whatever calls were made before it.  [add_item] called with
    a list returns that list with the item appended, so its result is fixed
    by its arguments and what the list holds at the call; only without
    [items] does it depend on earlier calls.  No function at all reads or
    writes the globals [user_data] and [counter]: with other values in them
    every call gives the same result and leaves them as they are. *)
Theorem results_ignore_earlier_calls :
  (forall (c : call) (before : list call) (w : world),
      keeps_no_state c = true ->
      outcome c (run_calls before w) = outcome c w)
  /\ (forall (item : pyval) (l : nat) (xs : list pyval) (w : world),
         w_heap w !! l = Some xs ->
         outcome (Call_add_item item (Some l)) w = Return (R_val (VList (xs ++ [item]))))
  /\ (forall (c : call) (user_data : list (string * pyval)) (counter : Z) (w : world),
         fst (run c (with_globals user_data counter w)) = fst (run c w)
         /\ w_user_data (snd (run c w)) = w_user_data w
         /\ w_counter (snd (run c w)) = w_counter w).
Proof.
  split; [| split].
  - intros c before w Hc.
    destruct (stateless_run c Hc) as (f & Hrun & Hderef).
    unfold outcome. now rewrite !Hrun, !Hderef, cwd_run_calls.
  - intros item l xs w Hl. unfold outcome, run, m_map, add_item.
    cbn [rmap deref w_heap set_heap default]. unfold id.
    now rewrite lookup_alter_eq, Hl.
  - intros c u n w. split; [| split].
    + now rewrite blind_run.
    + pose proof (blind_run c (w_user_data w) (w_counter w) w) as H.
      rewrite with_globals_same in H. now rewrite H.
    + pose proof (blind_run c (w_user_data w) (w_counter w) w) as H.
      rewrite with_globals_same in H. now rewrite H.
Qed.

(** ** File objects *)

(** A successful [open] registers one new file object, which was not open
    before; a failed one changes nothing. *)
Lemma py_open_ok (path : string) (m : mode) (w w1 : world) (fd : nat) :
  py_open path m w = (Return fd, w1) ->
  exists fs',
    fd = fresh (dom (w_open w))
    /\ w1 = set_files fs' (<[fd := Handle path m 0 ""]> (w_open w)) (EvOpen fd path m) w
    /\ (writing m = false -> fs' = w_fs w /\ exists f, w_fs w !! path = Some f).
Proof.
  unfold py_open, new_handle. intros H.
  destruct (w_fs w !! path) as [f |] eqn:Hf; destruct (writing m) eqn:Hm;
    try destruct (f_writable f); try destruct (f_readable f);
    try discriminate H; injection H as <- <-; eexists; repeat split;
    try discriminate; eauto.
Qed.

Lemma py_open_raise (path : string) (m : mode) (w w1 : world) (e : exn) :
  py_open path m w = (Raise e, w1) -> w1 = w /\ is_Exception (exn_cls e) = true.
Proof.
  unfold py_open, new_handle. intros H.
  destruct (w_fs w !! path) as [f |]; destruct (writing m);
    try destruct (f_writable f); try destruct (f_readable f);
    try discriminate H; injection H as <- <-; split; reflexivity.
Qed.

Lemma fresh_not_open (w : world) : w_open w !! fresh (dom (w_open w)) = None.
Proof. apply not_elem_of_dom, is_fresh. Qed.

(** C6.  [load_json] never lets an exception out.  When the file exists,
    is readable and its text decodes to [v], it returns [v].  When the file
    is missing, or not readable, or its text does not decode, it returns
    the empty dict (after printing the error). *)
Theorem load_json_never_raises (filename : string) (w : world) :
  (exists v w', load_json filename w = (Return v, w'))
  /\ (forall f v,
         w_fs w !! filename = Some f -> f_readable f = true ->
         json_loads (f_data f) = inr v ->
         fst (load_json filename w) = Return v)
  /\ (w_fs w !! filename = None -> fst (load_json filename w) = Return (VDict []))
  /\ (forall f,
         w_fs w !! filename = Some f -> f_readable f = false ->
         fst (load_json filename w) = Return (VDict []))
  /\ (forall f msg,
         w_fs w !! filename = Some f -> f_readable f = true ->
         json_loads (f_data f) = inl msg ->
         fst (load_json filename w) = Return (VDict [])
         /\ w_stdout (snd (load_json filename w))
            = w_stdout w +:+ "Error: " +:+ msg +:+ newline).
Proof.
  unfold load_json, m_try_Exception, m_with, json_load, m_bind, py_open, new_handle.
  destruct (w_fs w !! filename) as [f |] eqn:Hf; cbn [writing].
  - destruct (f_readable f) eqn:Hr.
    + unfold py_read. cbn [w_open w_fs set_files]. rewrite lookup_insert_eq.
      cbn [h_mode writing h_path h_pos]. rewrite Hf, str_drop_0.
      destruct (json_loads (f_data f)) as [msg | v] eqn:Hj.
      * unfold m_raise, py_close. cbn [w_open set_files]. rewrite lookup_insert_eq.
        cbn [is_Exception exn_cls]. unfold py_print, m_ret.
        cbn [fst snd w_stdout set_stdout set_files exn_str py_str].
        repeat split; intros; simplify_eq; try congruence; try reflexivity; eauto.
        match goal with
        | H1 : json_loads ?x = inl ?a, H2 : json_loads ?x = inl ?b |- _ =>
            rewrite H1 in H2; injection H2 as <-
        end.
        now rewrite (str_app_assoc "Error: ").
      * unfold m_ret, py_close. cbn [w_open set_files]. rewrite lookup_insert_eq.
        cbn [fst snd].
        repeat split; intros; simplify_eq; try congruence; try reflexivity; eauto.
    + cbn [is_Exception exn_cls os_error]. unfold py_print, m_ret. cbn [fst snd].
      repeat split; intros; simplify_eq; try congruence; try reflexivity; eauto.
  - cbn [is_Exception exn_cls os_error]. unfold py_print, m_ret. cbn [fst snd].
    repeat split; intros; simplify_eq; try congruence; try reflexivity; eauto.
Qed.

(** What a call of [write_config] does to file objects: [open] fails and
    nothing happens; or [json.dumps] raises and the file object stays open;
    or the text is written and the file object is closed. *)
Lemma write_config_cases (filename : string) (config : pyval) (w : world) :
  (exists e, write_config filename config w = (Raise e, w))
  \/ (exists fd e w',
         write_config filename config w = (Raise e, w')
         /\ w_trace w' = w_trace w ++ [EvOpen fd filename Mode_w])
  \/ (exists fd text w',
         write_config filename config w = (Return tt, w')
         /\ (fd ∉ dom (w_open w))
         /\ w_trace w' = w_trace w ++ [EvOpen fd filename Mode_w; EvWrite fd text; EvClose fd]
         /\ w_open w' = w_open w).
Proof.
  unfold write_config, m_bind.
  destruct (py_open filename Mode_w w) as [[fd | e] w1] eqn:Ho.
  - apply py_open_ok in Ho as (fs' & -> & -> & _). right. unfold m_lift.
    destruct (json_dumps config) as [text | e].
    + right. unfold py_write. cbn [w_open set_files]. rewrite lookup_insert_eq.
      cbn [h_mode writing]. unfold py_close. cbn [w_open set_files].
      rewrite lookup_insert_eq. unfold m_ret.
      eexists _, _, _. split; [reflexivity |]. split; [apply is_fresh |].
      cbn [w_trace w_open set_files]. split.
      * rewrite <- !app_assoc. reflexivity.
      * rewrite !delete_insert_eq. apply delete_id, fresh_not_open.
    + left. eexists _, _, _. split; reflexivity.
  - apply py_open_raise in Ho as [-> _]. left. eauto.
Qed.

Lemma read_file_cases (filename : string) (w : world) :
  (exists e, read_file filename w = (Raise e, w))
  \/ (exists fd text w',
         read_file filename w = (Return text, w')
         /\ w_trace w' = w_trace w ++ [EvOpen fd filename Mode_r; EvRead fd; EvClose fd]
         /\ w_open w' = w_open w).
Proof.
  unfold read_file, m_bind.
  destruct (py_open filename Mode_r w) as [[fd | e] w1] eqn:Ho.
  - apply py_open_ok in Ho as (fs' & -> & -> & _). right.
    unfold py_read. cbn [w_open set_files]. rewrite lookup_insert_eq.
    cbn [h_mode writing]. unfold py_finalize, py_close. cbn [w_open set_files].
    rewrite lookup_insert_eq. unfold m_ret.
    eexists _, _, _. split; [reflexivity |].
    cbn [w_trace w_open set_files]. split.
    + rewrite <- !app_assoc. reflexivity.
    + rewrite !delete_insert_eq. apply delete_id, fresh_not_open.
  - apply py_open_raise in Ho as [-> _]. left. eauto.
Qed.

Lemma load_json_cases (filename : string) (w : world) :
  (exists w', snd (load_json filename w) = w' /\ w_trace w' = w_trace w)
  \/ (exists fd,
         w_trace (snd (load_json filename w))
         = w_trace w ++ [EvOpen fd filename Mode_r; EvRead fd; EvClose fd]
         /\ w_open (snd (load_json filename w)) = w_open w).
Proof.
  unfold load_json, m_try_Exception, m_with, json_load, m_bind.
  destruct (py_open filename Mode_r w) as [[fd | e] w1] eqn:Ho.
  - apply py_open_ok in Ho as (fs' & -> & -> & _). right.
    unfold py_read. cbn [w_open set_files]. rewrite lookup_insert_eq.
    cbn [h_mode writing]. exists (fresh (dom (w_open w))).
    destruct (json_loads _) as [msg | v]; unfold m_raise, m_ret, py_close;
      cbn [w_open set_files]; rewrite lookup_insert_eq;
      cbn [is_Exception exn_cls py_print snd w_trace w_open set_files set_stdout];
      rewrite <- !app_assoc, !delete_insert_eq;
      (split; [reflexivity | apply delete_id, fresh_not_open]).
  - apply py_open_raise in Ho as [-> He]. left. rewrite He.
    eexists. split; reflexivity.
Qed.

Lemma copy_file_cases (source destination : string) (w : world) :
  (exists e, copy_file source destination w = (Raise e, w))
  \/ (exists src e w',
         copy_file source destination w = (Raise e, w')
         /\ w_trace w' = w_trace w ++ [EvOpen src source Mode_rb])
  \/ (exists src dst data w',
         copy_file source destination w = (Return tt, w')
         /\ src <> dst /\ (src ∉ dom (w_open w)) /\ (dst ∉ dom (w_open w))
         /\ w_trace w'
            = w_trace w ++ [EvOpen src source Mode_rb; EvOpen dst destination Mode_wb;
                            EvRead src; EvWrite dst data; EvClose src; EvClose dst]
         /\ w_open w' = w_open w).
Proof.
  unfold copy_file, m_bind.
  destruct (py_open source Mode_rb w) as [[src | e] w1] eqn:Ho.
  2: { apply py_open_raise in Ho as [-> _]. left. eauto. }
  apply py_open_ok in Ho as (fs1 & Hsrc & -> & _). right.
  pose proof (fresh_not_open w) as Hs. rewrite <- Hsrc in Hs.
  destruct (py_open destination Mode_wb _) as [[dst | e] w2] eqn:Ho2.
  2: { apply py_open_raise in Ho2 as [-> _]. left. eexists _, _, _.
       split; reflexivity. }
  apply py_open_ok in Ho2 as (fs2 & Hdst & -> & _). right.
  cbn [w_open set_files] in Hdst.
  assert (Hd : <[src := Handle source Mode_rb 0 ""]> (w_open w) !! dst = None).
  { rewrite Hdst. apply not_elem_of_dom, is_fresh. }
  assert (Hne : src <> dst).
  { intros ->. now rewrite lookup_insert_eq in Hd. }
  rewrite lookup_insert_ne in Hd by assumption.
  clear Hsrc Hdst.
  unfold py_read. cbn [w_open w_fs set_files].
  rewrite lookup_insert_ne, lookup_insert_eq by auto. cbn [h_mode writing].
  unfold py_write. cbn [w_open w_fs set_files].
  rewrite lookup_insert_ne, lookup_insert_eq by auto. cbn [h_mode writing].
  unfold py_close at 1. cbn [w_open w_fs set_files].
  rewrite lookup_insert_ne, lookup_insert_eq by auto.
  unfold py_close. cbn [w_open w_fs set_files].
  rewrite lookup_delete_ne, lookup_insert_eq by auto.
  unfold m_ret. exists src, dst. eexists _, _. split; [reflexivity |].
  split; [assumption |].
  split; [now apply not_elem_of_dom |].
  split; [now apply not_elem_of_dom |].
  split.
  - cbn [w_trace set_files]. rewrite <- !app_assoc. reflexivity.
  - cbn [w_open set_files]. apply map_eq. intros k.
    destruct (decide (k = dst)) as [-> |]; [now rewrite lookup_delete_eq |].
    rewrite lookup_delete_ne by auto.
    destruct (decide (k = src)) as [-> |]; [now rewrite lookup_delete_eq |].
    rewrite lookup_delete_ne by auto.
    now rewrite !lookup_insert_ne by auto.
Qed.

Lemma snd_m_map {A B} (f : A -> B) (m : M A) (w : world) :
  snd (m_map f m w) = snd (m w).
Proof. unfold m_map. now destruct (m w). Qed.

Ltac confined_tac :=
  cbn [confined];
  repeat (rewrite bool_decide_eq_true_2 by (rewrite !elem_of_cons; auto));
  reflexivity.

(** C7.  File objects do not outlive the call that opens them.  A call of
    [write_config] that returns has opened one file object, written to it
    and closed it; a call of [copy_file] that returns has opened two, read
    the first, written the second and closed both; after either, the file
    objects that are open are those that were open before.  And in every
    call of every function, whatever its outcome, each read, write and
    close is on a file object opened earlier in that same call. *)
Theorem file_objects_are_confined :
  (forall filename config w w',
      write_config filename config w = (Return tt, w') ->
      exists fd text,
        (fd ∉ dom (w_open w))
        /\ w_trace w'
           = w_trace w ++ [EvOpen fd filename Mode_w; EvWrite fd text; EvClose fd]
        /\ w_open w' = w_open w)
  /\ (forall source destination w w',
         copy_file source destination w = (Return tt, w') ->
         exists src dst data,
           src <> dst /\ (src ∉ dom (w_open w)) /\ (dst ∉ dom (w_open w))
           /\ w_trace w'
              = w_trace w ++ [EvOpen src source Mode_rb; EvOpen dst destination Mode_wb;
                              EvRead src; EvWrite dst data; EvClose src; EvClose dst]
           /\ w_open w' = w_open w)
  /\ (forall c w,
         exists evs,
           w_trace (snd (run c w)) = w_trace w ++ evs /\ confined [] evs = true).
Proof.
  split; [| split].
  - intros filename config w w' H.
    destruct (write_config_cases filename config w)
      as [(e & He) | [(fd & e & w1 & He & _) | (fd & text & w1 & He & Hfd & Ht & Ho)]];
      rewrite He in H; try discriminate H.
    injection H as <-. eauto.
  - intros source destination w w' H.
    destruct (copy_file_cases source destination w)
      as [(e & He) | [(s & e & w1 & He & _) | (s & d & data & w1 & He & Hr)]];
      rewrite He in H; try discriminate H.
    injection H as <-. eauto.
  - intros c w.
    destruct (keeps_no_state c) eqn:Hc.
    { destruct (stateless_run c Hc) as (f & Hrun & _). exists []. rewrite Hrun.
      simpl. now rewrite app_nil_r. }
    destruct c; try discriminate Hc; unfold run; rewrite snd_m_map.
    + exists []. simpl. now rewrite app_nil_r.
    + destruct (read_file_cases filename w) as [(e & ->) | (fd & text & w' & -> & Ht & _)].
      * exists []. simpl. now rewrite app_nil_r.
      * eexists. split; [exact Ht | confined_tac].
    + destruct (write_config_cases filename config w)
        as [(e & ->) | [(fd & e & w' & -> & Ht) | (fd & text & w' & -> & _ & Ht & _)]].
      * exists []. simpl. now rewrite app_nil_r.
      * eexists. split; [exact Ht | confined_tac].
      * eexists. split; [exact Ht | confined_tac].
    + destruct (copy_file_cases source destination w)
        as [(e & ->) | [(s & e & w' & -> & Ht)
                       | (s & d & data & w' & -> & _ & _ & _ & Ht & _)]].
      * exists []. simpl. now rewrite app_nil_r.
      * eexists. split; [exact Ht | confined_tac].
      * eexists. split; [exact Ht | confined_tac].
    + destruct (load_json_cases filename w) as [(w' & <- & Ht) | (fd & Ht & _)].
      * exists []. now rewrite app_nil_r.
      * eexists. split; [exact Ht | confined_tac].
Qed.

End Json.

(** ** The theorems at work on a concrete process *)

Example add_item_three_calls :
  w_heap (add_each [VInt 1; VStr "b"; VNone] (snd (import_module sample_world)))
    !! w_add_item_defaults (snd (import_module sample_world))
  = Some [VInt 1; VStr "b"; VNone].
Proof. vm_compute. reflexivity. Qed.

Example read_file_after_write_config :
  fst (read_file "new.json" sample_world)
  = Raise (os_error FileNotFoundError "[Errno 2] No such file or directory" "new.json")
  /\ fst (read_file "new.json"
            (snd (write_config dumps_ascii "new.json" (VList [VInt 1; VNone]) sample_world)))
     = Return "[1, null]".
Proof. split; vm_compute; reflexivity. Qed.

Example load_json_locked :
  fst (load_json loads_literal "locked" sample_world) = Return (VDict [])
  /\ w_stdout (snd (load_json loads_literal "locked" sample_world))
     = "Error: [Errno 13] Permission denied: 'locked'" +:+ newline.
Proof. split; vm_compute; reflexivity. Qed.

(** C3, as stated, fails: the second of two equal calls [add_item(1)]
    returns another list than the first. *)
Lemma add_item_depends_on_earlier_calls :
  outcome dumps_ascii loads_literal (Call_add_item (VInt 1) None)
    (snd (import_module sample_world))
  = Return (R_val (VList [VInt 1]))
  /\ outcome dumps_ascii loads_literal (Call_add_item (VInt 1) None)
       (run_calls dumps_ascii loads_literal [Call_add_item (VInt 1) None]
          (snd (import_module sample_world)))
     = Return (R_val (VList [VInt 1; VInt 1])).
Proof. split; vm_compute; reflexivity. Qed.

Lemma results_ignore_earlier_calls_witness :
  outcome dumps_ascii loads_literal Call_get_config_path
    (run_calls dumps_ascii loads_literal
       [Call_write_config "a.json" VNone; Call_add_item VNone None] sample_world)
  = outcome dumps_ascii loads_literal Call_get_config_path sample_world.
Proof.
  apply (proj1 (results_ignore_earlier_calls dumps_ascii loads_literal)).
  reflexivity.
Defined.

Lemma load_json_never_raises_witness :
  fst (load_json loads_literal "a.json" sample_world) = Return (VBool true).
Proof.
  apply (proj1 (proj2 (load_json_never_raises loads_literal "a.json" sample_world))
           (File "true" true true)); vm_compute; reflexivity.
Defined.

Lemma file_objects_are_confined_witness :
  exists fd text,
    (fd ∉ dom (w_open sample_world))
    /\ w_trace (snd (write_config dumps_ascii "out.json" (VDict []) sample_world))
       = w_trace sample_world ++ [EvOpen fd "out.json" Mode_w; EvWrite fd text; EvClose fd]
    /\ w_open (snd (write_config dumps_ascii "out.json" (VDict []) sample_world))
       = w_open sample_world.
Proof.
  apply (proj1 (file_objects_are_confined dumps_ascii loads_literal)
           "out.json" (VDict []) sample_world).
  vm_compute. reflexivity.
Defined.

(** * Further properties of the module *)

(** ** Loops over lists *)

Lemma filter_even_numbers_acc (numbers acc : list Z) :
  fold_left (fun result num => if num mod 2 =? 0 then result ++ [num] else result)
            numbers acc
  = acc ++ List.filter Z.even numbers.
Proof.
  revert acc. induction numbers as [|x l IH]; intros acc; simpl.
  - now rewrite app_nil_r.
  - rewrite IH, Zmod_even.
    destruct (Z.even x); simpl; [now rewrite <- app_assoc | reflexivity].
Qed.

(** X1.  [filter_even_numbers] is the filter that keeps the even numbers:
    it returns them in their original order, each as often as it occurs,
    and nothing else; negative even numbers are kept too. *)
Theorem filter_even_numbers_is_filter (numbers : list Z) :
  filter_even_numbers numbers = List.filter Z.even numbers
  /\ (forall x, In x (filter_even_numbers numbers) <-> In x numbers /\ exists k, x = 2 * k).
Proof.
  assert (H : filter_even_numbers numbers = List.filter Z.even numbers)
    by apply (filter_even_numbers_acc numbers []).
  split; [exact H |].
  intros x. rewrite H, List.filter_In, Z.even_spec. reflexivity.
Qed.

Lemma CalculateTotal_acc (ItemList : list Z) (acc : Z) :
  fold_left (fun Total Item => Total + Item) ItemList acc = acc + CalculateTotal ItemList.
Proof.
  unfold CalculateTotal. revert acc.
  induction ItemList as [|x l IH]; intros acc; simpl; [lia |].
  rewrite (IH (acc + x)), (IH (0 + x)). lia.
Qed.

(** X2.  [CalculateTotal] is additive over concatenation and does not
    depend on the order of the items: the total of a list and of any
    permutation of it are the same; the empty list totals 0. *)
Theorem CalculateTotal_additive :
  CalculateTotal [] = 0
  /\ (forall l1 l2, CalculateTotal (l1 ++ l2) = CalculateTotal l1 + CalculateTotal l2)
  /\ (forall l1 l2, Permutation l1 l2 -> CalculateTotal l1 = CalculateTotal l2).
Proof.
  assert (Hcons : forall x l, CalculateTotal (x :: l) = x + CalculateTotal l).
  { intros x l. unfold CalculateTotal at 1. simpl. apply CalculateTotal_acc. }
  split; [reflexivity |]. split.
  - intros l1 l2. induction l1 as [|x l1 IH]; [reflexivity |].
    simpl. rewrite !Hcons, IH. lia.
  - intros l1 l2 HP. induction HP as [| x l l' _ IH | x y l | l l' l'' _ IH1 _ IH2].
    + reflexivity.
    + now rewrite !Hcons, IH.
    + rewrite !Hcons. lia.
    + congruence.
Qed.

Lemma CalculateTotal_additive_witness : CalculateTotal [3; -1; 2] = CalculateTotal [2; 3; -1].
Proof.
  apply (proj2 (proj2 CalculateTotal_additive)).
  symmetry. apply (Permutation_cons_append [3; -1] 2).
Defined.

(** X3.  [has_positive_number] answers whether some element is greater
    than zero (what [any(num > 0 for num in numbers)] computes): it is
    [False] on the empty list and on lists of zeros and negatives. *)
Theorem has_positive_number_iff (numbers : list Z) :
  has_positive_number numbers = true <-> exists x, In x numbers /\ x > 0.
Proof.
  induction numbers as [|y l IH]; simpl.
  - split; [discriminate | intros (x & [] & _)].
  - destruct (Z.gtb_spec y 0) as [Hy | Hy].
    + split; [| reflexivity]. intros _. exists y. split; [now left | lia].
    + rewrite IH. split.
      * intros (x & Hx & Hp). exists x. split; [now right | assumption].
      * intros (x & [-> | Hx] & Hp); [lia |]. eauto.
Qed.

Lemma has_positive_number_iff_witness : has_positive_number [0; -4; 7] = true.
Proof.
  apply (proj2 (has_positive_number_iff [0; -4; 7])). exists 7. simpl. split; [auto | lia].
Defined.

Lemma find_duplicates_inner {A} `{EqDecision A} (item1 : A) (list2 acc : list A) :
  fold_left
    (fun duplicates item2 =>
       if bool_decide (item1 = item2) then duplicates ++ [item1] else duplicates)
    list2 acc
  = acc ++ List.filter (fun item2 => bool_decide (item1 = item2)) list2.
Proof.
  revert acc. induction list2 as [|y l IH]; intros acc; simpl.
  - now rewrite app_nil_r.
  - rewrite IH. destruct (bool_decide_reflect (item1 = y)) as [<- | _]; [| reflexivity].
    now rewrite <- app_assoc.
Qed.

Lemma find_duplicates_outer {A} `{EqDecision A} (list1 list2 acc : list A) :
  fold_left
    (fun duplicates item1 =>
       fold_left
         (fun duplicates item2 =>
            if bool_decide (item1 = item2) then duplicates ++ [item1] else duplicates)
         list2 duplicates)
    list1 acc
  = acc ++ flat_map (fun item1 => List.filter (fun item2 => bool_decide (item1 = item2)) list2)
                    list1.
Proof.
  revert acc. induction list1 as [|x l IH]; intros acc; simpl.
  - now rewrite app_nil_r.
  - now rewrite IH, find_duplicates_inner, <- app_assoc.
Qed.

(** X4.  [find_duplicates] returns, for each item of [list1] in order, one
    copy per occurrence of that item in [list2].  So its elements are
    exactly the values present in both lists, and repeated values are
    reported repeatedly: the result has as many entries as there are equal
    pairs. *)
Theorem find_duplicates_is_pairing {A} `{EqDecision A} (list1 list2 : list A) :
  find_duplicates list1 list2
  = flat_map (fun item1 => List.filter (fun item2 => bool_decide (item1 = item2)) list2) list1
  /\ (forall x, In x (find_duplicates list1 list2) <-> In x list1 /\ In x list2)
  /\ length (find_duplicates list1 list2)
     = length (List.filter (fun p => bool_decide (fst p = snd p)) (list_prod list1 list2)).
Proof.
  assert (E : find_duplicates list1 list2
              = flat_map (fun item1 =>
                            List.filter (fun item2 => bool_decide (item1 = item2)) list2) list1)
    by apply (find_duplicates_outer list1 list2 []).
  split; [exact E |]. split.
  - intros x. rewrite E, in_flat_map. split.
    + intros (a & Ha & Hx). apply List.filter_In in Hx as [Hx Heq].
      apply bool_decide_eq_true in Heq. subst a. auto.
    + intros [H1 H2]. exists x. split; [assumption |].
      apply List.filter_In. split; [assumption | now apply bool_decide_eq_true].
  - rewrite E. clear E. induction list1 as [|x l IH]; [reflexivity |].
    simpl. rewrite List.filter_app, !length_app, IH. f_equal.
    clear IH. induction list2 as [|y l2 IH2]; [reflexivity |].
    simpl. destruct (bool_decide (x = y)); simpl; now rewrite IH2.
Qed.

(** X5.  When [list2] has no repeated item, [find_duplicates] is the
    intersection in the order of [list1]: it keeps the items of [list1] that
    occur in [list2], each as often as it occurs in [list1]. *)
Theorem find_duplicates_NoDup {A} `{EqDecision A} (list1 list2 : list A) :
  NoDup list2 ->
  find_duplicates list1 list2 = List.filter (fun x => bool_decide (x ∈ list2)) list1.
Proof.
  intros Hnd.
  change (find_duplicates list1 list2) with
    (fold_left
       (fun duplicates item1 =>
          fold_left
            (fun duplicates item2 =>
               if bool_decide (item1 = item2) then duplicates ++ [item1] else duplicates)
            list2 duplicates)
       list1 []).
  rewrite find_duplicates_outer. simpl.
  assert (Hone : forall x,
             List.filter (fun item2 => bool_decide (x = item2)) list2
             = if bool_decide (x ∈ list2) then [x] else []).
  { intros x. induction Hnd as [|y l Hy Hnd IH]; [reflexivity |].
    simpl. rewrite IH.
    destruct (bool_decide_reflect (x = y)) as [<- | Hne].
    - rewrite (bool_decide_eq_true_2 (x ∈ x :: l)) by left.
      now rewrite (bool_decide_eq_false_2 (x ∈ l)) by assumption.
    - destruct (bool_decide_reflect (x ∈ l)) as [Hin | Hin].
      + now rewrite (bool_decide_eq_true_2 (x ∈ y :: l)) by now right.
      + rewrite (bool_decide_eq_false_2 (x ∈ y :: l)); [reflexivity |].
        intros Hc. apply elem_of_cons in Hc as [? | ?]; contradiction. }
  induction list1 as [|x l IH]; [reflexivity |].
  simpl. rewrite IH, Hone. now destruct (bool_decide (x ∈ list2)).
Qed.

Lemma find_duplicates_NoDup_witness :
  find_duplicates [1; 5; 1; 2] [2; 1; 7]
  = List.filter (fun x => bool_decide (x ∈ [2; 1; 7])) [1; 5; 1; 2].
Proof.
  apply (find_duplicates_NoDup [1; 5; 1; 2] [2; 1; 7]).
  apply (bool_decide_unpack (NoDup [2; 1; 7])). vm_compute. exact I.
Defined.

Lemma build_message_acc (items : list pyval) (acc : string) :
  fold_left (fun message item => message +:+ py_str item +:+ ", ") items acc
  = acc +:+ build_message items.
Proof.
  unfold build_message. revert acc.
  induction items as [|x l IH]; intros acc; simpl.
  - induction acc as [|c acc IHa]; [reflexivity |].
    change (String c acc = String c (acc +:+ "")). now rewrite <- IHa.
  - rewrite (IH (acc +:+ py_str x +:+ ", ")), (IH ("" +:+ py_str x +:+ ", ")).
    change ("" +:+ py_str x +:+ ", ") with (py_str x +:+ ", ").
    now rewrite !str_app_assoc.
Qed.

(** X6.  [build_message] writes each item followed by ", ": the message
    of a concatenation is the concatenation of the messages, and a
    non-empty message always ends with the separator ", " (there is no
    special case for the last item); the empty list gives the empty
    string. *)
Theorem build_message_separator :
  build_message [] = ""
  /\ (forall items1 items2,
         build_message (items1 ++ items2) = build_message items1 +:+ build_message items2)
  /\ (forall items item,
         build_message (items ++ [item]) = build_message items +:+ py_str item +:+ ", ").
Proof.
  assert (Happ : forall items1 items2,
             build_message (items1 ++ items2)
             = build_message items1 +:+ build_message items2).
  { intros items1 items2. unfold build_message at 1.
    rewrite fold_left_app. fold (build_message items1). apply build_message_acc. }
  split; [reflexivity |]. split; [exact Happ |].
  intros items item. rewrite Happ. reflexivity.
Qed.

(** ** More on [remove_negatives] *)

Lemma list_remove_present (x : Z) (l : list Z) :
  x ∈ l ->
  exists l', list_remove x l = Return l'
             /\ l' `sublist_of` l
             /\ (x < 0 -> List.filter (fun y => 0 <=? y) l' = List.filter (fun y => 0 <=? y) l).
Proof.
  induction l as [|y l IH]; intros Hin; [inversion Hin |].
  simpl. destruct (Z.eqb_spec x y) as [<- | Hne].
  - exists l. split; [reflexivity |]. split; [now apply sublist_cons |].
    intros Hx. simpl. now replace (0 <=? x) with false by (symmetry; apply Z.leb_gt; lia).
  - apply elem_of_cons in Hin as [? | Hin]; [contradiction |].
    destruct (IH Hin) as (l' & -> & Hsub & Hf). exists (y :: l').
    split; [reflexivity |]. split; [now apply sublist_skip |].
    intros Hx. simpl. now rewrite Hf.
Qed.

Lemma remove_negatives_loop_keeps (fuel : nat) :
  forall (i : nat) (numbers : list Z),
  exists rest,
    remove_negatives_loop fuel i numbers = Return rest
    /\ rest `sublist_of` numbers
    /\ List.filter (fun y => 0 <=? y) rest = List.filter (fun y => 0 <=? y) numbers.
Proof.
  induction fuel as [|fuel IH]; intros i numbers; simpl.
  - exists numbers. split; [reflexivity |]. split; reflexivity.
  - destruct (numbers !! i) as [num |] eqn:Hi;
      [| exists numbers; split; [reflexivity |]; split; reflexivity].
    destruct (Z.ltb_spec num 0) as [Hneg | Hpos].
    + destruct (list_remove_present num numbers) as (numbers' & -> & Hsub & Hf).
      { apply list_elem_of_lookup. eauto. }
      cbn [rbind]. destruct (IH (S i) numbers') as (rest & -> & Hsub' & Hf').
      exists rest. split; [reflexivity |]. split.
      * now transitivity numbers'.
      * now rewrite Hf', Hf.
    + apply IH.
Qed.

(** X7.  Whatever the input, [remove_negatives] returns (its
    [list.remove] never fails), what it returns is the input with some
    elements left out, in the same order, and no element that is zero or
    positive is ever removed. *)
Theorem remove_negatives_keeps_others (numbers : list Z) :
  exists rest,
    remove_negatives numbers = Return rest
    /\ rest `sublist_of` numbers
    /\ List.filter (fun y => 0 <=? y) rest = List.filter (fun y => 0 <=? y) numbers.
Proof. apply remove_negatives_loop_keeps. Qed.

Lemma Forall_sublist_of {A} (P : A -> Prop) (l' l : list A) :
  l' `sublist_of` l -> Forall P l -> Forall P l'.
Proof.
  intros Hsub. induction Hsub as [| x l1 l2 _ IH | x l1 l2 _ IH]; intros Hall.
  - constructor.
  - inversion Hall; subst. constructor; auto.
  - inversion Hall; subst. auto.
Qed.

Lemma remove_negatives_loop_all_negative (fuel : nat) :
  forall (i : nat) (numbers : list Z),
    Forall (fun y => y < 0) numbers ->
    (length numbers - i <= fuel)%nat ->
    exists rest,
      remove_negatives_loop fuel i numbers = Return rest
      /\ length rest
         = (if (length numbers <=? i)%nat then length numbers
            else length numbers - (length numbers - i + 1) / 2)%nat.
Proof.
  induction fuel as [|fuel IH]; intros i numbers Hall Hlen; cbn [remove_negatives_loop].
  - exists numbers. split; [reflexivity |].
    destruct (Nat.leb_spec (length numbers) i); [reflexivity | lia].
  - destruct (numbers !! i) as [num |] eqn:Hi.
    + pose proof (lookup_lt_Some _ _ _ Hi) as Hlt.
      assert (Hneg : num < 0).
      { rewrite Forall_forall in Hall. apply Hall, list_elem_of_lookup. eauto. }
      replace (num <? 0) with true by (symmetry; now apply Z.ltb_lt).
      destruct (list_remove_present num numbers) as (numbers' & Hrm & Hsub & _).
      { apply list_elem_of_lookup. eauto. }
      rewrite Hrm. cbn [rbind].
      pose proof (list_remove_length _ _ _ Hrm) as Hl.
      destruct (IH (S i) numbers') as (rest & -> & Hr).
      { eapply Forall_sublist_of; eassumption. }
      { lia. }
      exists rest. split; [reflexivity |]. rewrite Hr.
      destruct (Nat.leb_spec (length numbers) i); [lia |].
      destruct (Nat.leb_spec (length numbers') (S i)).
      * pose proof (Nat.div_mod_eq (length numbers - i + 1) 2).
        pose proof (Nat.mod_upper_bound (length numbers - i + 1) 2 ltac:(lia)).
        lia.
      * pose proof (Nat.div_mod_eq (length numbers - i + 1) 2).
        pose proof (Nat.mod_upper_bound (length numbers - i + 1) 2 ltac:(lia)).
        pose proof (Nat.div_mod_eq (length numbers' - S i + 1) 2).
        pose proof (Nat.mod_upper_bound (length numbers' - S i + 1) 2 ltac:(lia)).
        lia.
    + apply lookup_ge_None in Hi. exists numbers. split; [reflexivity |].
      destruct (Nat.leb_spec (length numbers) i); [reflexivity | lia].
Qed.

(** X8.  On a list of negative numbers only, [remove_negatives] leaves
    half of them (rounded down): the list shrinks under the iterator, which
    then stops early. *)
Theorem remove_negatives_leaves_half (numbers : list Z) :
  Forall (fun y => y < 0) numbers ->
  exists rest,
    remove_negatives numbers = Return rest
    /\ length rest = (length numbers / 2)%nat.
Proof.
  intros Hall.
  destruct (remove_negatives_loop_all_negative (length numbers) 0 numbers Hall ltac:(lia))
    as (rest & Hrun & Hlen).
  exists rest. split; [exact Hrun |]. rewrite Hlen.
  destruct (Nat.leb_spec (length numbers) 0) as [H0 | Hpos].
  - assert (E : length numbers = 0%nat) by lia. now rewrite E.
  - rewrite Nat.sub_0_r.
    pose proof (Nat.div_mod_eq (length numbers) 2).
    pose proof (Nat.div_mod_eq (length numbers + 1) 2).
    pose proof (Nat.mod_upper_bound (length numbers) 2 ltac:(lia)).
    pose proof (Nat.mod_upper_bound (length numbers + 1) 2 ltac:(lia)).
    lia.
Qed.

Lemma remove_negatives_leaves_half_witness :
  exists rest,
    remove_negatives [-1; -1; -2; -3; -3] = Return rest /\ length rest = (5 / 2)%nat.
Proof.
  apply (remove_negatives_leaves_half [-1; -1; -2; -3; -3]).
  repeat constructor.
Defined.

Lemma has_positive_number_filter (numbers : list Z) :
  has_positive_number (List.filter (fun y => 0 <=? y) numbers) = has_positive_number numbers.
Proof.
  induction numbers as [|x l IH]; [reflexivity |]. simpl.
  destruct (Z.leb_spec 0 x) as [Hx | Hx]; simpl.
  - now rewrite IH.
  - rewrite IH. destruct (Z.gtb_spec x 0); [lia | reflexivity].
Qed.

(** X9.  [remove_negatives] does not change the answer of
    [has_positive_number]: the list it returns has a positive number
    exactly when the list it was given has one. *)
Theorem remove_negatives_then_has_positive (numbers rest : list Z) :
  remove_negatives numbers = Return rest ->
  has_positive_number rest = has_positive_number numbers.
Proof.
  intros H.
  destruct (remove_negatives_loop_keeps (length numbers) 0 numbers) as (rest' & H' & _ & Hf).
  fold (remove_negatives numbers) in H'.
  rewrite H in H'. injection H' as <-.
  now rewrite <- (has_positive_number_filter rest), Hf, has_positive_number_filter.
Qed.

Lemma remove_negatives_then_has_positive_witness :
  has_positive_number [-2; 3] = has_positive_number [-1; -2; 3].
Proof. apply (remove_negatives_then_has_positive [-1; -2; 3] [-2; 3]). reflexivity. Defined.

(** ** [int] of [str] *)

Lemma parse_digits_digit (c : ascii) (s : string) (acc digits d : Z) :
  digit_value c = Some d ->
  parse_digits acc digits (String c s) = parse_digits (acc * 10 + d) (digits + 1) s.
Proof. intros H. cbn [parse_digits]. now rewrite H. Qed.

Lemma parse_digits_uint (d : Decimal.uint) :
  forall (p : positive) (k : Z),
    parse_digits (Zpos p) k (NilEmpty.string_of_uint d)
    = Some (Zpos (Pos.of_uint_acc d p), k + Z.of_nat (Decimal.nb_digits d), "").
Proof.
  induction d; intros p k;
    cbn [NilEmpty.string_of_uint Pos.of_uint_acc Decimal.nb_digits];
    rewrite ?Nat2Z.inj_succ.
  - cbn [parse_digits Z.of_nat]. now rewrite Z.add_0_r.
  - rewrite (parse_digits_digit "0" _ _ _ 0 eq_refl).
    replace (Z.pos p * 10 + 0) with (Z.pos (10 * p)) by lia.
    rewrite IHd. now replace (k + 1 + Z.of_nat (Decimal.nb_digits d))
      with (k + Z.succ (Z.of_nat (Decimal.nb_digits d))) by lia.
  - rewrite (parse_digits_digit "1" _ _ _ 1 eq_refl).
    replace (Z.pos p * 10 + 1) with (Z.pos (1 + 10 * p)) by lia.
    rewrite IHd. now replace (k + 1 + Z.of_nat (Decimal.nb_digits d))
      with (k + Z.succ (Z.of_nat (Decimal.nb_digits d))) by lia.
  - rewrite (parse_digits_digit "2" _ _ _ 2 eq_refl).
    replace (Z.pos p * 10 + 2) with (Z.pos (2 + 10 * p)) by lia.
    rewrite IHd. now replace (k + 1 + Z.of_nat (Decimal.nb_digits d))
      with (k + Z.succ (Z.of_nat (Decimal.nb_digits d))) by lia.
  - rewrite (parse_digits_digit "3" _ _ _ 3 eq_refl).
    replace (Z.pos p * 10 + 3) with (Z.pos (3 + 10 * p)) by lia.
    rewrite IHd. now replace (k + 1 + Z.of_nat (Decimal.nb_digits d))
      with (k + Z.succ (Z.of_nat (Decimal.nb_digits d))) by lia.
  - rewrite (parse_digits_digit "4" _ _ _ 4 eq_refl).
    replace (Z.pos p * 10 + 4) with (Z.pos (4 + 10 * p)) by lia.
    rewrite IHd. now replace (k + 1 + Z.of_nat (Decimal.nb_digits d))
      with (k + Z.succ (Z.of_nat (Decimal.nb_digits d))) by lia.
  - rewrite (parse_digits_digit "5" _ _ _ 5 eq_refl).
    replace (Z.pos p * 10 + 5) with (Z.pos (5 + 10 * p)) by lia.
    rewrite IHd. now replace (k + 1 + Z.of_nat (Decimal.nb_digits d))
      with (k + Z.succ (Z.of_nat (Decimal.nb_digits d))) by lia.
  - rewrite (parse_digits_digit "6" _ _ _ 6 eq_refl).
    replace (Z.pos p * 10 + 6) with (Z.pos (6 + 10 * p)) by lia.
    rewrite IHd. now replace (k + 1 + Z.of_nat (Decimal.nb_digits d))
      with (k + Z.succ (Z.of_nat (Decimal.nb_digits d))) by lia.
  - rewrite (parse_digits_digit "7" _ _ _ 7 eq_refl).
    replace (Z.pos p * 10 + 7) with (Z.pos (7 + 10 * p)) by lia.
    rewrite IHd. now replace (k + 1 + Z.of_nat (Decimal.nb_digits d))
      with (k + Z.succ (Z.of_nat (Decimal.nb_digits d))) by lia.
  - rewrite (parse_digits_digit "8" _ _ _ 8 eq_refl).
    replace (Z.pos p * 10 + 8) with (Z.pos (8 + 10 * p)) by lia.
    rewrite IHd. now replace (k + 1 + Z.of_nat (Decimal.nb_digits d))
      with (k + Z.succ (Z.of_nat (Decimal.nb_digits d))) by lia.
  - rewrite (parse_digits_digit "9" _ _ _ 9 eq_refl).
    replace (Z.pos p * 10 + 9) with (Z.pos (9 + 10 * p)) by lia.
    rewrite IHd. now replace (k + 1 + Z.of_nat (Decimal.nb_digits d))
      with (k + Z.succ (Z.of_nat (Decimal.nb_digits d))) by lia.
Qed.

Lemma parse_digits_uint_0 (d : Decimal.uint) :
  forall k : Z,
    parse_digits 0 k (NilEmpty.string_of_uint d)
    = Some (Z.of_N (Pos.of_uint d), k + Z.of_nat (Decimal.nb_digits d), "").
Proof.
  induction d; intros k;
    cbn [NilEmpty.string_of_uint Pos.of_uint Decimal.nb_digits];
    rewrite ?Nat2Z.inj_succ.
  - cbn [parse_digits Z.of_nat Z.of_N]. now rewrite Z.add_0_r.
  - rewrite (parse_digits_digit "0" _ _ _ 0 eq_refl). change (0 * 10 + 0) with 0.
    rewrite IHd. now replace (k + 1 + Z.of_nat (Decimal.nb_digits d))
      with (k + Z.succ (Z.of_nat (Decimal.nb_digits d))) by lia.
  - rewrite (parse_digits_digit "1" _ _ _ 1 eq_refl). change (0 * 10 + 1) with 1.
    rewrite parse_digits_uint. now replace (k + 1 + Z.of_nat (Decimal.nb_digits d))
      with (k + Z.succ (Z.of_nat (Decimal.nb_digits d))) by lia.
  - rewrite (parse_digits_digit "2" _ _ _ 2 eq_refl). change (0 * 10 + 2) with 2.
    rewrite parse_digits_uint. now replace (k + 1 + Z.of_nat (Decimal.nb_digits d))
      with (k + Z.succ (Z.of_nat (Decimal.nb_digits d))) by lia.
  - rewrite (parse_digits_digit "3" _ _ _ 3 eq_refl). change (0 * 10 + 3) with 3.
    rewrite parse_digits_uint. now replace (k + 1 + Z.of_nat (Decimal.nb_digits d))
      with (k + Z.succ (Z.of_nat (Decimal.nb_digits d))) by lia.
  - rewrite (parse_digits_digit "4" _ _ _ 4 eq_refl). change (0 * 10 + 4) with 4.
    rewrite parse_digits_uint. now replace (k + 1 + Z.of_nat (Decimal.nb_digits d))
      with (k + Z.succ (Z.of_nat (Decimal.nb_digits d))) by lia.
  - rewrite (parse_digits_digit "5" _ _ _ 5 eq_refl). change (0 * 10 + 5) with 5.
    rewrite parse_digits_uint. now replace (k + 1 + Z.of_nat (Decimal.nb_digits d))
      with (k + Z.succ (Z.of_nat (Decimal.nb_digits d))) by lia.
  - rewrite (parse_digits_digit "6" _ _ _ 6 eq_refl). change (0 * 10 + 6) with 6.
    rewrite parse_digits_uint. now replace (k + 1 + Z.of_nat (Decimal.nb_digits d))
      with (k + Z.succ (Z.of_nat (Decimal.nb_digits d))) by lia.
  - rewrite (parse_digits_digit "7" _ _ _ 7 eq_refl). change (0 * 10 + 7) with 7.
    rewrite parse_digits_uint. now replace (k + 1 + Z.of_nat (Decimal.nb_digits d))
      with (k + Z.succ (Z.of_nat (Decimal.nb_digits d))) by lia.
  - rewrite (parse_digits_digit "8" _ _ _ 8 eq_refl). change (0 * 10 + 8) with 8.
    rewrite parse_digits_uint. now replace (k + 1 + Z.of_nat (Decimal.nb_digits d))
      with (k + Z.succ (Z.of_nat (Decimal.nb_digits d))) by lia.
  - rewrite (parse_digits_digit "9" _ _ _ 9 eq_refl). change (0 * 10 + 9) with 9.
    rewrite parse_digits_uint. now replace (k + 1 + Z.of_nat (Decimal.nb_digits d))
      with (k + Z.succ (Z.of_nat (Decimal.nb_digits d))) by lia.
Qed.

(** A text that is all digits, with or without a minus sign in front:
    [int] gives its value when it has at most 4300 digits, and counts the
    digits otherwise. *)
Lemma parse_int_digits (c : ascii) (s' : string) (k v n : Z) :
  digit_value c = Some k ->
  parse_digits k 1 s' = Some (v, n, "") ->
  (n <= max_str_digits ->
   parse_int (String c s') = Literal v
   /\ parse_int (String "-" (String c s')) = Literal (- v))
  /\ (max_str_digits < n ->
      parse_int (String c s') = Too_many_digits n
      /\ parse_int (String "-" (String c s')) = Too_many_digits n).
Proof.
  intros Hc Hp.
  assert (Hs : is_space c = false /\ Ascii.eqb c "-" = false /\ Ascii.eqb c "+" = false).
  { destruct c as [[] [] [] [] [] [] [] []]; try discriminate Hc; repeat split. }
  destruct Hs as (Hs & Hm & Hpl).
  assert (H1 : parse_int (String c s')
               = if n >? max_str_digits then Too_many_digits n else Literal v).
  { unfold parse_int. cbn [skip_spaces]. rewrite Hs, Hm, Hpl, Hc, Hp. reflexivity. }
  assert (H2 : parse_int (String "-" (String c s'))
               = if n >? max_str_digits then Too_many_digits n else Literal (- v)).
  { unfold parse_int. cbn [skip_spaces]. change (is_space "-") with false.
    cbn [Ascii.eqb Bool.eqb]. cbv iota. rewrite Hc, Hp. reflexivity. }
  rewrite H1, H2. split; intros Hn.
  - destruct (Z.gtb_spec n max_str_digits); [lia|]. split; reflexivity.
  - destruct (Z.gtb_spec n max_str_digits); [|lia]. split; reflexivity.
Qed.

Lemma parse_int_uint (d : Decimal.uint) :
  d <> Decimal.Nil ->
  let n := Z.of_nat (Decimal.nb_digits d) in
  (n <= max_str_digits ->
   parse_int (NilEmpty.string_of_uint d) = Literal (Z.of_N (Pos.of_uint d))
   /\ parse_int (String "-" (NilEmpty.string_of_uint d))
      = Literal (- Z.of_N (Pos.of_uint d)))
  /\ (max_str_digits < n ->
      parse_int (NilEmpty.string_of_uint d) = Too_many_digits n
      /\ parse_int (String "-" (NilEmpty.string_of_uint d)) = Too_many_digits n).
Proof.
  intros Hd n. subst n.
  destruct d; try contradiction;
    cbn [NilEmpty.string_of_uint Decimal.nb_digits]; rewrite Nat2Z.inj_succ;
    replace (Z.succ (Z.of_nat (Decimal.nb_digits d)))
      with (1 + Z.of_nat (Decimal.nb_digits d)) by lia.
  - exact (parse_int_digits "0" _ 0 _ _ eq_refl (parse_digits_uint_0 d 1)).
  - exact (parse_int_digits "1" _ 1 _ _ eq_refl (parse_digits_uint d 1 1)).
  - exact (parse_int_digits "2" _ 2 _ _ eq_refl (parse_digits_uint d 2 1)).
  - exact (parse_int_digits "3" _ 3 _ _ eq_refl (parse_digits_uint d 3 1)).
  - exact (parse_int_digits "4" _ 4 _ _ eq_refl (parse_digits_uint d 4 1)).
  - exact (parse_int_digits "5" _ 5 _ _ eq_refl (parse_digits_uint d 5 1)).
  - exact (parse_int_digits "6" _ 6 _ _ eq_refl (parse_digits_uint d 6 1)).
  - exact (parse_int_digits "7" _ 7 _ _ eq_refl (parse_digits_uint d 7 1)).
  - exact (parse_int_digits "8" _ 8 _ _ eq_refl (parse_digits_uint d 8 1)).
  - exact (parse_int_digits "9" _ 9 _ _ eq_refl (parse_digits_uint d 9 1)).
Qed.

(** The value of a run of digits that follows an accumulated [acc]. *)
Lemma of_uint_acc_bounds (d : Decimal.uint) :
  forall acc : positive,
    Z.pos acc * 10 ^ Z.of_nat (Decimal.nb_digits d)
    <= Z.pos (Pos.of_uint_acc d acc)
    < (Z.pos acc + 1) * 10 ^ Z.of_nat (Decimal.nb_digits d).
Proof.
  induction d; intros acc; cbn [Pos.of_uint_acc Decimal.nb_digits];
    rewrite ?Nat2Z.inj_succ, ?Z.pow_succ_r by lia;
    [cbn [Z.of_nat]; rewrite Z.pow_0_r; lia | ..];
    match goal with
    | |- _ <= Z.pos (Pos.of_uint_acc d ?q) < _ =>
        specialize (IHd q);
        assert (Hpow : 0 < 10 ^ Z.of_nat (Decimal.nb_digits d))
          by (apply Z.pow_pos_nonneg; lia);
        set (t := 10 ^ Z.of_nat (Decimal.nb_digits d)) in *;
        set (v := Z.pos (Pos.of_uint_acc d q)) in *;
        nia
    end.
Qed.

(** [str] writes a positive int without a leading zero. *)
Lemma to_uint_no_leading_zero (p : positive) (d : Decimal.uint) :
  Pos.to_uint p <> Decimal.D0 d.
Proof.
  intros H.
  pose proof (Unsigned.of_to p) as Hof. rewrite H in Hof. cbn [Pos.of_uint] in Hof.
  pose proof (Unsigned.to_of d) as Hto. rewrite Hof in Hto. cbn [N.to_uint] in Hto.
  rewrite H in Hto.
  destruct (Decimal.uint_eq_dec d Decimal.Nil) as [-> | Hd].
  - exact (Unsigned.to_uint_nonzero p H).
  - pose proof (DecimalFacts.nb_digits_unorm d Hd) as Hn.
    rewrite <- Hto in Hn. cbn [Decimal.nb_digits] in Hn. lia.
Qed.

(** The number of digits [str] writes for a positive int. *)
Lemma to_uint_bounds (p : positive) :
  let n := Z.of_nat (Decimal.nb_digits (Pos.to_uint p)) in
  10 ^ (n - 1) <= Z.pos p < 10 ^ n.
Proof.
  pose proof (Unsigned.of_to p) as Hof.
  pose proof (to_uint_no_leading_zero p) as Hz.
  pose proof (Unsigned.to_uint_nonnil p) as Hnil.
  destruct (Pos.to_uint p) as [| d | d | d | d | d | d | d | d | d | d];
    [contradiction | exfalso; exact (Hz d eq_refl) | ..];
    cbn [Pos.of_uint Decimal.nb_digits] in *; injection Hof as <-;
    rewrite Nat2Z.inj_succ;
    replace (Z.succ (Z.of_nat (Decimal.nb_digits d)) - 1)
      with (Z.of_nat (Decimal.nb_digits d)) by lia;
    rewrite Z.pow_succ_r by lia;
    match goal with
    | |- _ <= Z.pos (Pos.of_uint_acc d ?q) < _ =>
        pose proof (of_uint_acc_bounds d q) as Hb;
        assert (Hpow : 0 < 10 ^ Z.of_nat (Decimal.nb_digits d))
          by (apply Z.pow_pos_nonneg; lia);
        set (t := 10 ^ Z.of_nat (Decimal.nb_digits d)) in *;
        set (v := Z.pos (Pos.of_uint_acc d q)) in *;
        lia
    end.
Qed.

(** [int] reads back what [str] writes for an int of at most 4300 digits,
    and refuses the text of a longer one. *)
Lemma parse_int_str_of_Z (n : Z) :
  (Z.abs n < 10 ^ max_str_digits -> parse_int (str_of_Z n) = Literal n)
  /\ (10 ^ max_str_digits <= Z.abs n ->
      exists digits, parse_int (str_of_Z n) = Too_many_digits digits).
Proof.
  unfold str_of_Z, NilZero.string_of_int, NilZero.string_of_uint.
  destruct n as [|p|p].
  - split; [reflexivity|]. intros H.
    assert (0 < 10 ^ max_str_digits) by (apply Z.pow_pos_nonneg; unfold max_str_digits; lia).
    cbn [Z.abs] in H. lia.
  - cbn [Z.to_int Z.abs].
    pose proof (Unsigned.to_uint_nonnil p) as Hnil.
    pose proof (to_uint_bounds p) as Hb. cbv zeta in Hb.
    destruct (parse_int_uint (Pos.to_uint p) Hnil) as [Hle Hgt].
    rewrite Unsigned.of_to in Hle.
    set (k := Z.of_nat (Decimal.nb_digits (Pos.to_uint p))) in *.
    assert (Hs : (match Pos.to_uint p with
                  | Decimal.Nil => "0"
                  | _ => NilEmpty.string_of_uint (Pos.to_uint p)
                  end) = NilEmpty.string_of_uint (Pos.to_uint p))
      by (destruct (Pos.to_uint p); [contradiction | reflexivity..]).
    rewrite Hs. split; intros H.
    + apply Hle.
      destruct (Z.le_gt_cases k max_str_digits) as [|Hk]; [assumption|].
      pose proof (Z.pow_le_mono_r 10 max_str_digits (k - 1) ltac:(lia) ltac:(lia)). lia.
    + exists k. apply Hgt.
      destruct (Z.le_gt_cases k max_str_digits) as [Hk|]; [|assumption].
      pose proof (Z.pow_le_mono_r 10 k max_str_digits ltac:(lia) Hk). lia.
  - cbn [Z.to_int Z.abs].
    pose proof (Unsigned.to_uint_nonnil p) as Hnil.
    pose proof (to_uint_bounds p) as Hb. cbv zeta in Hb.
    destruct (parse_int_uint (Pos.to_uint p) Hnil) as [Hle Hgt].
    rewrite Unsigned.of_to in Hle.
    set (k := Z.of_nat (Decimal.nb_digits (Pos.to_uint p))) in *.
    assert (Hs : (match Pos.to_uint p with
                  | Decimal.Nil => "0"
                  | _ => NilEmpty.string_of_uint (Pos.to_uint p)
                  end) = NilEmpty.string_of_uint (Pos.to_uint p))
      by (destruct (Pos.to_uint p); [contradiction | reflexivity..]).
    cbn [NilZero.string_of_int]. rewrite Hs. split; intros H.
    + apply Hle.
      destruct (Z.le_gt_cases k max_str_digits) as [|Hk]; [assumption|].
      pose proof (Z.pow_le_mono_r 10 max_str_digits (k - 1) ltac:(lia) ltac:(lia)). lia.
    + exists k. apply Hgt.
      destruct (Z.le_gt_cases k max_str_digits) as [Hk|]; [|assumption].
      pose proof (Z.pow_le_mono_r 10 k max_str_digits ltac:(lia) Hk). lia.
Qed.

(** X10.  [process_data] undoes [str] on ints of at most 4300 digits, the
    interpreter's limit for both conversions: [process_data(str(n))] is
    [2 * n], and whatever [str] writes, sign included, [int] reads back.
    Given the decimal text of a longer int, [int] raises and
    [process_data] returns [None]. *)
Theorem process_data_of_str (n : Z) :
  (Z.abs n < 10 ^ 4300 ->
   process_data (VStr (py_str (VInt n))) = Return (VInt (2 * n))
   /\ py_int (VStr (py_str (VInt n))) = Return n)
  /\ (10 ^ 4300 <= Z.abs n -> process_data (VStr (str_of_Z n)) = Return VNone).
Proof.
  change (10 ^ 4300) with (10 ^ max_str_digits).
  destruct (parse_int_str_of_Z n) as [Hle Hgt]. split.
  - intros Hn.
    assert (H : py_int (VStr (py_str (VInt n))) = Return n).
    { cbn [py_str py_repr py_int]. now rewrite (Hle Hn). }
    split; [| exact H].
    unfold process_data, try_except, rbind. rewrite H. now rewrite Z.mul_comm.
  - intros Hn. destruct (Hgt Hn) as [digits H].
    unfold process_data, try_except, rbind. cbn [py_int]. now rewrite H.
Qed.

Lemma process_data_of_str_witness :
  (process_data (VStr (py_str (VInt (-123)))) = Return (VInt (2 * -123))
   /\ py_int (VStr (py_str (VInt (-123)))) = Return (-123))
  /\ process_data (VStr (str_of_Z (10 ^ 4300))) = Return VNone.
Proof.
  split.
  - apply (proj1 (process_data_of_str (-123))). reflexivity.
  - apply (proj2 (process_data_of_str (10 ^ 4300))).
    apply Z.leb_le. vm_compute. reflexivity.
Defined.

(** X11.  [process_user] never raises: the dict of [get_user] always has
    the age 25, so the "Too young" branch cannot be taken.  It returns that
    dict, whose "id" is the argument, for every [user_id] (nothing is
    looked up or checked about the id). *)
Theorem process_user_always_succeeds (user_id : pyval) :
  exists user,
    UserManager.process_user user_id = Return user
    /\ UserManager.get_user user_id = Return user
    /\ py_getitem user "id" = Return user_id
    /\ py_getitem user "age" = Return (VInt 25).
Proof. eexists. repeat split. Qed.

(** ** Signs of quotients *)

Lemma binary64_round_opp (sx : bool) (m e : Z) (l : location) :
  binary64_round (negb sx) m e l = SFopp (binary64_round sx m e l).
Proof.
  unfold binary64_round, binary_round_aux.
  destruct (shr_fexp 53 1024 m e l) as [mrs1 e1].
  destruct (shr_fexp 53 1024 _ e1 loc_Exact) as [mrs2 e2].
  destruct (shr_m mrs2); try reflexivity.
  destruct (e2 <=? 1024 - 53); reflexivity.
Qed.

Lemma rounded_quotient_opp_l (a b : Z) :
  a <> 0 -> rounded_quotient (- a) b = SFopp (rounded_quotient a b).
Proof.
  intros Ha. unfold rounded_quotient. rewrite Z.abs_opp.
  destruct (SFdiv_core_binary 53 1024 (Z.abs a) 0 (Z.abs b) 0) as [[q e] l].
  rewrite <- binary64_round_opp. f_equal.
  destruct (Z.ltb_spec (- a) 0), (Z.ltb_spec a 0), (b <? 0); try reflexivity; lia.
Qed.

Lemma rounded_quotient_opp_r (a b : Z) :
  b <> 0 -> rounded_quotient a (- b) = SFopp (rounded_quotient a b).
Proof.
  intros Hb. unfold rounded_quotient. rewrite Z.abs_opp.
  destruct (SFdiv_core_binary 53 1024 (Z.abs a) 0 (Z.abs b) 0) as [[q e] l].
  rewrite <- binary64_round_opp. f_equal.
  destruct (Z.ltb_spec (- b) 0), (Z.ltb_spec b 0), (a <? 0); try reflexivity; lia.
Qed.

Lemma int_true_divide_opp_r (a b : Z) :
  int_true_divide a (- b) = rmap SFopp (int_true_divide a b).
Proof.
  unfold int_true_divide.
  destruct (Z.eqb_spec b 0) as [-> | Hb]; [reflexivity |].
  destruct (Z.eqb_spec (- b) 0) as [? | _]; [lia |].
  destruct (Z.eqb_spec a 0) as [-> | Ha].
  - simpl. f_equal. f_equal.
    destruct (Z.ltb_spec (- b) 0), (Z.ltb_spec b 0); try reflexivity; lia.
  - rewrite rounded_quotient_opp_r by assumption.
    destruct (rounded_quotient a b); reflexivity.
Qed.

Lemma int_true_divide_opp_l (a b : Z) :
  a <> 0 -> int_true_divide (- a) b = rmap SFopp (int_true_divide a b).
Proof.
  intros Ha. unfold int_true_divide.
  destruct (Z.eqb_spec b 0) as [-> | Hb]; [reflexivity |].
  destruct (Z.eqb_spec (- a) 0) as [? | _]; [lia |].
  destruct (Z.eqb_spec a 0) as [? | _]; [contradiction |].
  rewrite rounded_quotient_opp_l by assumption.
  destruct (rounded_quotient a b); reflexivity.
Qed.

(** X12.  [divide_numbers] is symmetric in the signs: negating the
    divisor negates the result (an exception stays the same exception), and
    so does negating a non-zero dividend, so [(-a) / (-b)] is [a / b].  A
    zero dividend is the exception: [0 / b] is a zero with the sign of
    [b], so [0 / -5] is [-0.0]. *)
Theorem divide_numbers_signs (a b : Z) :
  divide_numbers a (- b) = rmap SFopp (divide_numbers a b)
  /\ (a <> 0 -> divide_numbers (- a) b = rmap SFopp (divide_numbers a b))
  /\ (a <> 0 -> divide_numbers (- a) (- b) = divide_numbers a b)
  /\ (b <> 0 -> divide_numbers 0 b = Return (S754_zero (b <? 0))).
Proof.
  unfold divide_numbers. split; [apply int_true_divide_opp_r |].
  split; [apply int_true_divide_opp_l |]. split.
  - intros Ha. rewrite int_true_divide_opp_r, int_true_divide_opp_l by assumption.
    destruct (int_true_divide a b) as [f | e]; [| reflexivity].
    simpl. f_equal. destruct f as [[] | [] | | [] m e]; reflexivity.
  - intros Hb. unfold int_true_divide.
    destruct (Z.eqb_spec b 0); [contradiction | reflexivity].
Qed.

Lemma divide_numbers_signs_witness :
  divide_numbers (- 7) (- 2) = divide_numbers 7 2
  /\ divide_numbers 0 (- 5) = Return (S754_zero (- 5 <? 0)).
Proof.
  split.
  - apply (proj1 (proj2 (proj2 (divide_numbers_signs 7 2)))). lia.
  - apply (proj2 (proj2 (proj2 (divide_numbers_signs 0 (- 5))))). lia.
Defined.

(** ** Prices *)

Lemma binary64_round_sign (sx : bool) (m e : Z) (l : location) :
  0 <= m ->
  binary64_round sx m e l <> S754_nan /\ sign_bit (binary64_round sx m e l) = sx.
Proof.
  intros Hm. split; [now apply binary64_round_not_nan |].
  pose proof (binary64_round_not_nan sx m e l Hm) as Hn.
  unfold binary64_round, binary_round_aux in *.
  destruct (shr_fexp 53 1024 m e l) as [mrs1 e1].
  destruct (shr_fexp 53 1024 _ e1 loc_Exact) as [mrs2 e2].
  destruct (shr_m mrs2); [reflexivity | | contradiction].
  destruct (e2 <=? 1024 - 53); reflexivity.
Qed.

Lemma int_to_float_sign (n : Z) (q : spec_float) :
  int_to_float n = Return q ->
  q <> S754_nan /\ (n <> 0 -> sign_bit q = (n <? 0)).
Proof.
  unfold int_to_float, binary_normalize, binary_round.
  destruct n as [|p|p].
  - intros [= <-]. split; [discriminate | contradiction].
  - destruct (shl_align p 0 _) as [mz ez].
    destruct (binary64_round_sign false (Zpos mz) ez loc_Exact ltac:(lia)) as [Hn Hs].
    unfold binary64_round in *.
    destruct (binary_round_aux 53 1024 false (Zpos mz) ez loc_Exact);
      intros [= <-]; (split; [assumption | intros _; exact Hs]).
  - destruct (shl_align p 0 _) as [mz ez].
    destruct (binary64_round_sign true (Zpos mz) ez loc_Exact ltac:(lia)) as [Hn Hs].
    unfold binary64_round in *.
    destruct (binary_round_aux 53 1024 true (Zpos mz) ez loc_Exact);
      intros [= <-]; (split; [assumption | intros _; exact Hs]).
Qed.

Lemma float_mul_positive (x : spec_float) (m : positive) (e : Z) :
  x <> S754_nan ->
  float_mul x (S754_finite false m e) <> S754_nan
  /\ sign_bit (float_mul x (S754_finite false m e)) = sign_bit x.
Proof.
  intros Hx. destruct x as [sx | sx | | sx mx ex]; try contradiction; simpl.
  - split; [discriminate | now destruct sx].
  - split; [discriminate | now destruct sx].
  - replace (xorb sx false) with sx by now destruct sx.
    apply (binary64_round_sign sx (Zpos (mx * m)) (ex + e) loc_Exact). lia.
Qed.

(** X13.  [calculate_price] checks nothing about [quantity]: a negative
    quantity gets a negative price, and zero gets [0.0].  The result is
    never a NaN, and the only exception it can raise is the
    [OverflowError] of converting a huge int to a float. *)
Theorem calculate_price_unchecked (quantity : Z) :
  (forall price,
      calculate_price quantity = Return price ->
      price <> S754_nan /\ (quantity <> 0 -> sign_bit price = (quantity <? 0)))
  /\ (forall e, calculate_price quantity = Raise e -> exn_cls e = OverflowError)
  /\ (quantity = 0 -> calculate_price quantity = Return (S754_zero false)).
Proof.
  assert (Hmul : forall m e p,
             int_mul_float quantity (S754_finite false m e) = Return p ->
             p <> S754_nan /\ (quantity <> 0 -> sign_bit p = (quantity <? 0))).
  { intros m e p. unfold int_mul_float, rbind.
    destruct (int_to_float quantity) as [q |] eqn:Hq; [| discriminate].
    intros [= <-]. destruct (int_to_float_sign _ _ Hq) as [Hn Hs].
    destruct (float_mul_positive q m e Hn) as [Hn' Hs']. split; [assumption |].
    intros H0. now rewrite Hs', Hs. }
  assert (Herr : forall x e, int_mul_float quantity x = Raise e -> exn_cls e = OverflowError).
  { intros x e. unfold int_mul_float, int_to_float, rbind.
    destruct (binary_normalize 53 1024 quantity 0 false); intros [= <-]; reflexivity. }
  split; [| split].
  - intros price. unfold calculate_price, rbind.
    destruct (quantity >? 100); [| destruct (quantity >? 50)].
    + destruct (int_mul_float quantity float_9_99) as [p |] eqn:Hp; [| discriminate].
      intros [= <-]. destruct (Hmul _ _ _ Hp) as [Hn Hs].
      destruct (float_mul_positive p 7205759403792794 (-53) Hn) as [Hn' Hs'].
      split; [exact Hn' |]. intros H0. unfold float_0_8. now rewrite Hs', Hs.
    + destruct (int_mul_float quantity float_9_99) as [p |] eqn:Hp; [| discriminate].
      intros [= <-]. destruct (Hmul _ _ _ Hp) as [Hn Hs].
      destruct (float_mul_positive p 8106479329266893 (-53) Hn) as [Hn' Hs'].
      split; [exact Hn' |]. intros H0. unfold float_0_9. now rewrite Hs', Hs.
    + apply Hmul.
  - intros e. unfold calculate_price, rbind.
    destruct (quantity >? 100); [| destruct (quantity >? 50)].
    + destruct (int_mul_float quantity float_9_99) eqn:Hp; [discriminate |].
      intros [= <-]. eapply Herr, Hp.
    + destruct (int_mul_float quantity float_9_99) eqn:Hp; [discriminate |].
      intros [= <-]. eapply Herr, Hp.
    + apply Herr.
  - intros ->. reflexivity.
Qed.

Lemma calculate_price_unchecked_witness :
  calculate_price 0 = Return (S754_zero false)
  /\ (S754_finite true 8435805052018360 (-48) <> S754_nan
      /\ (-3 <> 0 -> sign_bit (S754_finite true 8435805052018360 (-48)) = (-3 <? 0))).
Proof.
  split.
  - apply (proj2 (proj2 (calculate_price_unchecked 0))). reflexivity.
  - apply (proj1 (calculate_price_unchecked (-3))). vm_compute. reflexivity.
Defined.

(** X14.  The total of what [filter_even_numbers] keeps is an even
    number. *)
Theorem total_of_even_numbers_is_even (numbers : list Z) :
  CalculateTotal (filter_even_numbers numbers) mod 2 = 0.
Proof.
  change (filter_even_numbers numbers) with
    (fold_left (fun result num => if num mod 2 =? 0 then result ++ [num] else result)
               numbers []).
  rewrite filter_even_numbers_acc. simpl.
  induction numbers as [|x l IH]; [reflexivity |]. simpl.
  destruct (Z.even x) eqn:Hx; [| exact IH].
  unfold CalculateTotal. simpl. rewrite CalculateTotal_acc.
  apply Z.even_spec in Hx as [k ->].
  rewrite Z.add_0_l, Z.add_comm, Z.mul_comm, Z.mod_add by lia. exact IH.
Qed.

(** ** [add_item] and other lists *)

Lemma add_item_calls_default (calls : list (pyval * option nat)) :
  forall (w : world) (ys : list pyval),
    w_heap w !! w_add_item_defaults w = Some ys ->
    let w' := fold_left (fun w c => snd (add_item (fst c) (snd c) w)) calls w in
    w_add_item_defaults w' = w_add_item_defaults w
    /\ w_heap w' !! w_add_item_defaults w
       = Some (ys ++ map fst
                 (List.filter
                    (fun c => bool_decide (default (w_add_item_defaults w) (snd c)
                                           = w_add_item_defaults w))
                    calls)).
Proof.
  induction calls as [|[item items] calls IH]; intros w ys Hys.
  - simpl. now rewrite app_nil_r.
  - cbn [fold_left fst snd List.filter].
    set (w1 := snd (add_item item items w)).
    assert (Hd : w_add_item_defaults w1 = w_add_item_defaults w) by reflexivity.
    destruct (bool_decide_reflect
                (default (w_add_item_defaults w) items = w_add_item_defaults w)) as [E | E].
    + destruct (IH w1 (ys ++ [item])) as [Hd1 Hh1].
      { subst w1. simpl. rewrite E, lookup_alter_eq, Hys. reflexivity. }
      rewrite Hd in Hd1, Hh1. cbv zeta. split; [exact Hd1 |].
      rewrite Hh1. simpl. now rewrite <- app_assoc.
    + destruct (IH w1 ys) as [Hd1 Hh1].
      { subst w1. simpl. rewrite lookup_alter_ne by (intros Hc; apply E; exact Hc).
        exact Hys. }
      rewrite Hd in Hd1, Hh1. cbv zeta. split; [exact Hd1 | exact Hh1].
Qed.

(** X15.  [add_item] changes the list it is given and no other.  So
    after any sequence of calls, the default list holds exactly the items
    of the calls that left [items] out or passed the default list itself
    back in (it is handed out by every such call), in call order; calls on
    other lists do not touch it. *)
Theorem add_item_changes_one_list :
  (forall item items w l,
      l <> default (w_add_item_defaults w) items ->
      w_heap (snd (add_item item items w)) !! l = w_heap w !! l)
  /\ (forall item items w xs,
         w_heap w !! default (w_add_item_defaults w) items = Some xs ->
         w_heap (snd (add_item item items w)) !! default (w_add_item_defaults w) items
         = Some (xs ++ [item]))
  /\ (forall calls w0,
         let w := snd (import_module w0) in
         w_heap (fold_left (fun w c => snd (add_item (fst c) (snd c) w)) calls w)
           !! w_add_item_defaults w
         = Some (map fst
                   (List.filter
                      (fun c => bool_decide (default (w_add_item_defaults w) (snd c)
                                             = w_add_item_defaults w))
                      calls))).
Proof.
  split; [| split].
  - intros item items w l Hl. simpl. now rewrite lookup_alter_ne by auto.
  - intros item items w xs Hxs. simpl. now rewrite lookup_alter_eq, Hxs.
  - intros calls w0 w.
    assert (Hw : w_heap w !! w_add_item_defaults w = Some []).
    { subst w. simpl. apply lookup_insert_eq. }
    destruct (add_item_calls_default calls w [] Hw) as [_ H]. exact H.
Qed.

Lemma add_item_changes_one_list_witness :
  (w_heap (snd (add_item (VInt 1) (Some 1%nat) sample_lists)) !! 0%nat
   = w_heap sample_lists !! 0%nat
   /\ w_heap sample_lists !! 0%nat = Some [])
  /\ w_heap (snd (add_item (VInt 1) (Some 1%nat) sample_lists)) !! 1%nat
     = Some ([VInt 7] ++ [VInt 1])
  /\ w_heap (snd (add_item (VInt 2) None sample_lists)) !! 0%nat = Some ([] ++ [VInt 2])
  /\ w_heap (fold_left (fun w c => snd (add_item (fst c) (snd c) w))
               [(VInt 1, None); (VInt 2, Some 1%nat); (VInt 3, Some 0%nat)]
               (snd (import_module sample_world)))
       !! 0%nat
     = Some [VInt 1; VInt 3].
Proof.
  split; [split | split; [| split]].
  - apply (proj1 add_item_changes_one_list (VInt 1) (Some 1%nat) sample_lists 0%nat).
    discriminate.
  - reflexivity.
  - apply (proj1 (proj2 add_item_changes_one_list) (VInt 1) (Some 1%nat) sample_lists).
    reflexivity.
  - apply (proj1 (proj2 add_item_changes_one_list) (VInt 2) None sample_lists).
    reflexivity.
  - exact (proj2 (proj2 add_item_changes_one_list)
             [(VInt 1, None); (VInt 2, Some 1%nat); (VInt 3, Some 0%nat)] sample_world).
Defined.

(** ** Files: what is read, written and left open *)

Lemma str_app_nil_r (s : string) : s +:+ "" = s.
Proof.
  induction s as [|c s IH]; [reflexivity |].
  change (String c (s +:+ "") = String c s). now rewrite IH.
Qed.

Lemma str_drop_nil (n : nat) : str_drop n "" = "".
Proof. now destruct n. Qed.

(** X16.  [read_file] on a readable file whose text has no carriage
    return returns that whole text and leaves the file system as it is.
    The function never closes the file object it opened; the interpreter
    does when the function returns, so the file objects that are open
    after the call are those that were open before. *)
Theorem read_file_returns_text (filename : string) (w : world) (f : file) :
  w_fs w !! filename = Some f -> f_readable f = true ->
  str_contains carriage_return (f_data f) = false ->
  exists fd w',
    read_file filename w = (Return (f_data f), w')
    /\ w_fs w' = w_fs w
    /\ w_trace w' = w_trace w ++ [EvOpen fd filename Mode_r; EvRead fd; EvClose fd]
    /\ w_open w' = w_open w.
Proof.
  intros Hf Hr _. exists (fresh (dom (w_open w))).
  unfold read_file, m_bind, py_open, new_handle. rewrite Hf. cbn [writing]. rewrite Hr.
  unfold py_read. cbn [w_open w_fs set_files]. rewrite lookup_insert_eq.
  cbn [h_mode h_path h_pos h_buf writing]. rewrite Hf, str_drop_0.
  unfold py_finalize, py_close. cbn [w_open w_fs set_files]. rewrite lookup_insert_eq.
  unfold flush. cbn [h_mode writing]. unfold m_ret.
  eexists. split; [reflexivity |]. cbn [w_fs w_open w_trace set_files].
  split; [reflexivity |]. split; [now rewrite <- !app_assoc |].
  rewrite !delete_insert_eq. apply delete_id, not_elem_of_dom, is_fresh.
Qed.

Lemma read_file_returns_text_witness :
  exists fd w',
    read_file "a.json" sample_world = (Return "true", w')
    /\ w_fs w' = w_fs sample_world
    /\ w_trace w'
       = w_trace sample_world ++ [EvOpen fd "a.json" Mode_r; EvRead fd; EvClose fd]
    /\ w_open w' = w_open sample_world.
Proof.
  apply (read_file_returns_text "a.json" sample_world (File "true" true true));
    vm_compute; reflexivity.
Defined.

(** X17.  [read_file] handles no error: on a missing file it raises
    [FileNotFoundError], on a file that may not be read [PermissionError],
    and in both cases nothing has changed. *)
Theorem read_file_errors (filename : string) (w : world) :
  (w_fs w !! filename = None ->
   read_file filename w
   = (Raise (os_error FileNotFoundError "[Errno 2] No such file or directory" filename), w))
  /\ (forall f,
         w_fs w !! filename = Some f -> f_readable f = false ->
         read_file filename w
         = (Raise (os_error PermissionError "[Errno 13] Permission denied" filename), w)).
Proof.
  unfold read_file, m_bind, py_open. split.
  - intros ->. reflexivity.
  - intros f -> Hr. cbn [writing]. now rewrite Hr.
Qed.

Lemma read_file_errors_witness :
  read_file "nowhere" sample_world
  = (Raise (os_error FileNotFoundError "[Errno 2] No such file or directory" "nowhere"),
     sample_world).
Proof. apply (proj1 (read_file_errors "nowhere" sample_world)). vm_compute. reflexivity. Defined.

(** X18.  [write_config] replaces the whole file: when [json.dumps]
    gives [text] and the file exists and may be written, the call returns,
    the file holds exactly [text] afterwards (nothing of its earlier content
    is left), it may be read by whoever could read it before, and the file
    object is closed. *)
Theorem write_config_replaces_file
    (json_dumps : pyval -> result string) (filename : string) (config : pyval)
    (text : string) (w : world) (f : file) :
  json_dumps config = Return text ->
  w_fs w !! filename = Some f -> f_writable f = true ->
  exists w',
    write_config json_dumps filename config w = (Return tt, w')
    /\ w_fs w' !! filename = Some (File text (f_readable f) true)
    /\ w_open w' = w_open w.
Proof.
  intros Hd Hf Hw.
  unfold write_config, m_bind, py_open, new_handle. rewrite Hf. cbn [writing]. rewrite Hw.
  unfold m_lift. rewrite Hd.
  unfold py_write. cbn [w_open w_fs set_files]. rewrite lookup_insert_eq.
  cbn [h_mode h_path h_pos h_buf writing]. unfold py_close. cbn [w_open w_fs set_files].
  rewrite lookup_insert_eq. unfold flush. cbn [h_mode h_path h_pos h_buf writing].
  rewrite lookup_insert_eq. cbn [f_data f_readable f_writable].
  change ("" +:+ text) with text. rewrite str_drop_nil, str_app_nil_r.
  unfold m_ret. eexists. split; [reflexivity |].
  cbn [w_fs w_open set_files]. split; [apply lookup_insert_eq |].
  rewrite !delete_insert_eq. apply delete_id, not_elem_of_dom, is_fresh.
Qed.

Lemma write_config_replaces_file_witness :
  exists w',
    write_config dumps_ascii "a.json" (VList [VInt 1]) sample_world = (Return tt, w')
    /\ w_fs w' !! "a.json" = Some (File "[1]" (f_readable (File "true" true true)) true)
    /\ w_open w' = w_open sample_world.
Proof.
  apply (write_config_replaces_file dumps_ascii "a.json" (VList [VInt 1]) "[1]" sample_world
           (File "true" true true)); vm_compute; reflexivity.
Defined.

(** X19.  [write_config] opens the file before it serialises: when
    [json.dumps] raises on [config], an existing writable file has already
    been emptied, the exception goes to the caller, and the file object is
    left open. *)
Theorem write_config_failure_empties_file
    (json_dumps : pyval -> result string) (filename : string) (config : pyval)
    (e : exn) (w : world) (f : file) :
  json_dumps config = Raise e ->
  w_fs w !! filename = Some f -> f_writable f = true ->
  exists fd w',
    write_config json_dumps filename config w = (Raise e, w')
    /\ w_fs w' !! filename = Some (File "" (f_readable f) true)
    /\ (fd ∉ dom (w_open w))
    /\ w_open w' !! fd = Some (Handle filename Mode_w 0 "").
Proof.
  intros Hd Hf Hw. exists (fresh (dom (w_open w))).
  unfold write_config, m_bind, py_open, new_handle. rewrite Hf. cbn [writing]. rewrite Hw.
  unfold m_lift. rewrite Hd. eexists. split; [reflexivity |].
  cbn [w_fs w_open set_files].
  split; [apply lookup_insert_eq |]. split; [apply is_fresh | apply lookup_insert_eq].
Qed.

Lemma write_config_failure_empties_file_witness :
  exists fd w',
    write_config (fun _ => Raise (Exn TypeError "Object of type set is not JSON serializable"))
      "a.json" VNone sample_world
    = (Raise (Exn TypeError "Object of type set is not JSON serializable"), w')
    /\ w_fs w' !! "a.json" = Some (File "" (f_readable (File "true" true true)) true)
    /\ (fd ∉ dom (w_open sample_world))
    /\ w_open w' !! fd = Some (Handle "a.json" Mode_w 0 "").
Proof.
  apply (write_config_failure_empties_file _ "a.json" VNone _ sample_world
           (File "true" true true)); vm_compute; reflexivity.
Defined.

Lemma fresh_two (op : gmap nat handle) (h : handle) :
  fresh (dom (<[fresh (dom op) := h]> op)) <> fresh (dom op)
  /\ op !! fresh (dom op) = None
  /\ op !! fresh (dom (<[fresh (dom op) := h]> op)) = None.
Proof.
  pose proof (is_fresh (dom op)) as H1.
  pose proof (is_fresh (dom (<[fresh (dom op) := h]> op))) as H2.
  apply not_elem_of_dom in H1. apply not_elem_of_dom in H2.
  assert (Hne : fresh (dom (<[fresh (dom op) := h]> op)) <> fresh (dom op)).
  { intros E. rewrite E, lookup_insert_eq in H2. discriminate. }
  split; [exact Hne |]. split; [exact H1 |].
  now rewrite lookup_insert_ne in H2 by auto.
Qed.

(** X21.  [copy_file] of a file onto itself destroys it: opening the
    destination for writing empties the file before the source is read, so
    the call returns normally and the file is left empty. *)
Theorem copy_file_onto_itself (path : string) (w : world) (f : file) :
  w_fs w !! path = Some f -> f_readable f = true -> f_writable f = true ->
  exists w',
    copy_file path path w = (Return tt, w')
    /\ w_fs w' !! path = Some (File "" true true)
    /\ w_open w' = w_open w.
Proof.
  intros Hf Hr Hw.
  set (src := fresh (dom (w_open w))).
  set (h1 := Handle path Mode_rb 0 "").
  destruct (fresh_two (w_open w) h1) as (Hfd & Hs & Hd). fold src in Hfd, Hs, Hd.
  set (dst := fresh (dom (<[src := h1]> (w_open w)))) in *.
  unfold copy_file, m_bind.
  assert (Ho1 : py_open path Mode_rb w
                = (Return src, set_files (w_fs w) (<[src := h1]> (w_open w))
                                 (EvOpen src path Mode_rb) w)).
  { unfold py_open, new_handle. rewrite Hf. cbn [writing]. now rewrite Hr. }
  rewrite Ho1.
  unfold py_open at 1, new_handle. cbn [w_open w_fs set_files writing]. rewrite Hf, Hw, Hr.
  fold dst.
  unfold py_read. cbn [w_open w_fs set_files].
  rewrite lookup_insert_ne, lookup_insert_eq by auto.
  subst h1. cbn [h_mode h_path h_pos h_buf writing].
  rewrite lookup_insert_eq. cbn [f_data str_drop].
  unfold py_write. cbn [w_open w_fs set_files].
  rewrite lookup_insert_ne, lookup_insert_eq by auto.
  cbn [h_mode h_path h_pos h_buf writing].
  unfold py_close at 1. cbn [w_open w_fs set_files].
  rewrite lookup_insert_ne, lookup_insert_eq by auto.
  unfold flush at 1. cbn [h_mode writing].
  unfold py_close. cbn [w_open w_fs set_files].
  rewrite lookup_delete_ne, lookup_insert_eq by auto.
  unfold flush. cbn [h_mode h_path h_buf writing]. rewrite lookup_insert_eq.
  cbn [f_data f_readable f_writable].
  unfold m_ret. eexists. split; [reflexivity |]. cbn [w_fs w_open set_files].
  split; [now rewrite lookup_insert_eq |].
  apply map_eq. intros k.
  destruct (decide (k = dst)) as [-> |]; [now rewrite lookup_delete_eq |].
  rewrite lookup_delete_ne by auto.
  destruct (decide (k = src)) as [-> |]; [now rewrite lookup_delete_eq |].
  rewrite lookup_delete_ne by auto.
  now rewrite !lookup_insert_ne by auto.
Qed.

Lemma copy_file_onto_itself_witness :
  exists w',
    copy_file "a.json" "a.json" sample_world = (Return tt, w')
    /\ w_fs w' !! "a.json" = Some (File "" true true)
    /\ w_open w' = w_open sample_world.
Proof.
  apply (copy_file_onto_itself "a.json" sample_world (File "true" true true));
    vm_compute; reflexivity.
Defined.

(** X22.  [copy_file] to a destination that may not be written raises
    [PermissionError] with the source file object still open: the source
    was opened first and nothing closes it. *)
Theorem copy_file_leaks_source (source destination : string) (w : world) (f g : file) :
  w_fs w !! source = Some f -> f_readable f = true ->
  w_fs w !! destination = Some g -> f_writable g = false ->
  exists fd w',
    copy_file source destination w
    = (Raise (os_error PermissionError "[Errno 13] Permission denied" destination), w')
    /\ w_fs w' = w_fs w
    /\ (fd ∉ dom (w_open w))
    /\ w_open w' = <[fd := Handle source Mode_rb 0 ""]> (w_open w).
Proof.
  intros Hf Hr Hg Hw. exists (fresh (dom (w_open w))).
  unfold copy_file, m_bind, py_open, new_handle. rewrite Hf. cbn [writing]. rewrite Hr.
  cbn [w_fs w_open set_files]. rewrite Hg, Hw.
  eexists. split; [reflexivity |]. cbn [w_fs w_open set_files].
  split; [reflexivity |]. split; [apply is_fresh | reflexivity].
Qed.

Lemma copy_file_leaks_source_witness :
  exists fd w',
    copy_file "a.json" "locked" sample_world
    = (Raise (os_error PermissionError "[Errno 13] Permission denied" "locked"), w')
    /\ w_fs w' = w_fs sample_world
    /\ (fd ∉ dom (w_open sample_world))
    /\ w_open w' = <[fd := Handle "a.json" Mode_rb 0 ""]> (w_open sample_world).
Proof.
  apply (copy_file_leaks_source "a.json" "locked" sample_world
           (File "true" true true) (File "null" false false)); vm_compute; reflexivity.
Defined.

(** X23.  [load_json] cleans up after itself in every case, where
    [read_file] leaves that to the interpreter: whether the file is
    missing, unreadable, invalid or fine, the file objects that are open
    after the call are those that were open before, and no file has
    changed. *)
Theorem load_json_closes_file
    (json_loads : string -> string + pyval) (filename : string) (w : world) :
  w_open (snd (load_json json_loads filename w)) = w_open w
  /\ w_fs (snd (load_json json_loads filename w)) = w_fs w.
Proof.
  unfold load_json, m_try_Exception, m_with, json_load, m_bind.
  destruct (py_open filename Mode_r w) as [[fd | e] w1] eqn:Ho.
  - apply py_open_ok in Ho as (fs' & -> & -> & Hfs). destruct (Hfs eq_refl) as [-> _].
    unfold py_read. cbn [w_open w_fs set_files]. rewrite lookup_insert_eq.
    cbn [h_mode writing].
    destruct (json_loads _) as [msg | v]; unfold m_raise, m_ret, py_close;
      cbn [w_open w_fs set_files]; rewrite lookup_insert_eq;
      unfold flush; cbn [h_mode writing];
      cbn [is_Exception exn_cls py_print snd w_fs w_open set_files set_stdout];
      rewrite !delete_insert_eq;
      (split; [apply delete_id, fresh_not_open | reflexivity]).
  - apply py_open_raise in Ho as [-> He]. rewrite He. split; reflexivity.
Qed.

(** X24.  [load_json] is silent when it succeeds and prints exactly one
    line, "Error: " and the text of the exception, when it fails; a failure
    returns the same [{}] that a file holding an empty object would. *)
Theorem load_json_reports_on_stdout
    (json_loads : string -> string + pyval) (filename : string) (w : world) :
  (exists f v,
      w_fs w !! filename = Some f /\ json_loads (f_data f) = inr v
      /\ fst (load_json json_loads filename w) = Return v
      /\ w_stdout (snd (load_json json_loads filename w)) = w_stdout w)
  \/ (exists msg,
         fst (load_json json_loads filename w) = Return (VDict [])
         /\ w_stdout (snd (load_json json_loads filename w))
            = w_stdout w +:+ "Error: " +:+ msg +:+ newline).
Proof.
  unfold load_json, m_try_Exception, m_with, json_load, m_bind, py_open, new_handle.
  destruct (w_fs w !! filename) as [f |] eqn:Hf; cbn [writing].
  - destruct (f_readable f) eqn:Hr.
    + unfold py_read. cbn [w_open w_fs set_files]. rewrite lookup_insert_eq.
      cbn [h_mode writing h_path h_pos]. rewrite Hf, str_drop_0.
      destruct (json_loads (f_data f)) as [msg | v] eqn:Hj.
      * right. exists msg.
        unfold m_raise, py_close. cbn [w_open set_files]. rewrite lookup_insert_eq.
        cbn [is_Exception exn_cls]. unfold py_print, m_ret.
        cbn [fst snd w_stdout set_stdout set_files exn_str py_str].
        split; [reflexivity |]. now rewrite (str_app_assoc "Error: ").
      * left. exists f, v.
        unfold m_ret, py_close. cbn [w_open set_files]. rewrite lookup_insert_eq.
        cbn [fst snd w_stdout set_files]. repeat split; auto.
    + right. eexists.
      cbn [is_Exception exn_cls os_error]. unfold py_print, m_ret.
      cbn [fst snd w_stdout set_stdout exn_str py_str].
      split; [reflexivity |]. now rewrite (str_app_assoc "Error: ").
  - right. eexists.
    cbn [is_Exception exn_cls os_error]. unfold py_print, m_ret.
    cbn [fst snd w_stdout set_stdout exn_str py_str].
    split; [reflexivity |]. now rewrite (str_app_assoc "Error: ").
Qed.

(** X25.  [write_config] and [load_json] round-trip whenever
    [json.loads] undoes [json.dumps] on the value: after
    [write_config(filename, config)] on an existing file that may be read
    and written, [load_json(filename)] returns [config].  (The text
    [json.dumps] gives has no carriage return.) *)
Theorem write_config_then_load_json
    (json_dumps : pyval -> result string) (json_loads : string -> string + pyval)
    (filename : string) (config : pyval) (text : string) (w : world) (f : file) :
  json_dumps config = Return text ->
  str_contains carriage_return text = false ->
  json_loads text = inr config ->
  w_fs w !! filename = Some f -> f_writable f = true -> f_readable f = true ->
  fst (load_json json_loads filename
         (snd (write_config json_dumps filename config w)))
  = Return config.
Proof.
  intros Hd _ Hl Hf Hw Hr.
  unfold write_config, m_bind, py_open at 1, new_handle.
  rewrite Hf. cbn [writing]. rewrite Hw.
  unfold m_lift. rewrite Hd.
  unfold py_write. cbn [w_open w_fs set_files]. rewrite lookup_insert_eq.
  cbn [h_mode h_path h_pos h_buf writing]. unfold py_close. cbn [w_open w_fs set_files].
  rewrite lookup_insert_eq. unfold flush. cbn [h_mode h_path h_pos h_buf writing].
  rewrite lookup_insert_eq. cbn [f_data f_readable f_writable].
  change ("" +:+ text) with text. rewrite str_drop_nil, str_app_nil_r.
  unfold m_ret. cbn [snd].
  unfold load_json, m_try_Exception, m_with, json_load, m_bind, py_open, new_handle.
  cbn [w_fs w_open set_files writing]. rewrite lookup_insert_eq. cbn [f_readable].
  rewrite Hr.
  unfold py_read. cbn [w_open w_fs set_files]. rewrite lookup_insert_eq.
  cbn [h_mode h_path h_pos writing]. rewrite lookup_insert_eq. cbn [f_data].
  rewrite str_drop_0, Hl. unfold m_ret, py_close. cbn [w_open set_files].
  rewrite lookup_insert_eq. reflexivity.
Qed.

Lemma write_config_then_load_json_witness :
  fst (load_json loads_literal "a.json"
         (snd (write_config dumps_ascii "a.json" (VBool false) sample_world)))
  = Return (VBool false).
Proof.
  apply (write_config_then_load_json dumps_ascii loads_literal "a.json" (VBool false) "false"
           sample_world (File "true" true true)); vm_compute; reflexivity.
Defined.
